(** * pixelKanban: the GitHub sync adapter, the task store and the user store

    A shallow embedding of the parts of [js/dragDrop.js] (classes
    [GitHubAPI] and [GitHubBoards], and the handlers of the push, pull
    and sync buttons of [GitHubBoardsUI]), [js/kanban.js] (the task
    operations of [KanbanBoard], [getUserName], [isVideoUrl] and the
    attachments of the task form) and [js/userManager.js] (the roles,
    [deleteUser], [getUser], [getUserAssignedTasks] and the assignment
    of tasks) that the specification talks about or that these call.

    Conventions of the embedding.
    - A JavaScript string is a [string]: a sequence of 8-bit code units.
      The embedding is exact on text of the code units 0 to 255; a code
      unit above 255 is outside the model, and the one place where the
      embedded code can make one from such text, the escape [\uXXXX] of
      [JSON.parse], keeps its low byte.
    - A JavaScript number is a double ([Js.number]), with the rounding of
      [parseInt], [JSON.parse], [ToNumber] and [++] written out; the ids
      of tasks and issues are the integers [Z] among them.  The sign of
      zero is not kept.
    - An object is the list of its own properties in the order in which
      they were made.  JavaScript puts the keys that are array indices
      in front of the others; on objects with such keys the order of
      the list is not that of JavaScript, their properties are.
    - Exceptions are explicit: effectful code lives in a state-and-exception
      monad over the browser state, pure code that can throw returns a
      [completion]. *)

From Stdlib Require Import ZArith Ascii Lia DecimalString.
From Stdlib Require DecimalZ DecimalPos DecimalFacts.
From stdpp Require Import base list strings gmap.

Set Warnings "-register-all".

Local Open Scope Z_scope.
Local Open Scope nat_scope.

(* ===================================================================== *)
(** * Strings and the regular expressions of the source *)
(* ===================================================================== *)

Module Str.

(** ** Character classes *)

Definition code (c : ascii) : nat := nat_of_ascii c.

Definition between (lo hi : nat) (c : ascii) : bool :=
  (lo <=? code c) && (code c <=? hi).

(** [\d] *)
Definition is_digit (c : ascii) : bool := between 48 57 c.

(** [\w]: [A-Za-z0-9_] *)
Definition is_word (c : ascii) : bool :=
  between 65 90 c || between 97 122 c || is_digit c || Ascii.eqb c "_".

(** [[\d-]] *)
Definition is_digit_or_dash (c : ascii) : bool :=
  is_digit c || Ascii.eqb c "-".

(** White space of [String.prototype.trim] in the 8-bit range:
    TAB, LF, VT, FF, CR, SPACE and NBSP. *)
Definition is_space (c : ascii) : bool :=
  between 9 13 c || (code c =? 32) || (code c =? 160).

(** Line terminators, which [.] does not match: LF and CR. *)
Definition is_line_terminator (c : ascii) : bool :=
  (code c =? 10) || (code c =? 13).

(** ** Basic operations *)

(** Lower case in the 8-bit range: A-Z, and the accented capitals
    192-222 except the multiplication sign 215. *)
Definition is_upper (c : ascii) : bool :=
  between 65 90 c || (between 192 222 c && negb (code c =? 215)).

Definition lower_ascii (c : ascii) : ascii :=
  if is_upper c then ascii_of_nat (code c + 32) else c.

(** [String.prototype.toLowerCase] *)
Fixpoint toLowerCase (s : string) : string :=
  match s with
  | EmptyString => EmptyString
  | String c s' => String (lower_ascii c) (toLowerCase s')
  end.

Fixpoint drop (n : nat) (s : string) : string :=
  match n, s with
  | S n', String _ s' => drop n' s'
  | _, _ => s
  end.

(** The first [n] characters. *)
Fixpoint prefix (n : nat) (s : string) : string :=
  match n, s with
  | S n', String c s' => String c (prefix n' s')
  | _, _ => EmptyString
  end.

Fixpoint starts_with (p s : string) : bool :=
  match p, s with
  | EmptyString, _ => true
  | String a p', String b s' => Ascii.eqb a b && starts_with p' s'
  | String _ _, EmptyString => false
  end.

Fixpoint all (f : ascii -> bool) (s : string) : bool :=
  match s with
  | EmptyString => true
  | String c s' => f c && all f s'
  end.

(** The longest prefix of [s] made of characters of the class [f]
    (a greedy [[...]*]). *)
Fixpoint take_while (f : ascii -> bool) (s : string) : string :=
  match s with
  | String c s' => if f c then String c (take_while f s') else EmptyString
  | EmptyString => EmptyString
  end.

Fixpoint drop_while (f : ascii -> bool) (s : string) : string :=
  match s with
  | String c s' => if f c then drop_while f s' else s
  | EmptyString => EmptyString
  end.

Fixpoint rev_append (s acc : string) : string :=
  match s with
  | EmptyString => acc
  | String c s' => rev_append s' (String c acc)
  end.

Definition rev (s : string) : string := rev_append s EmptyString.

(** [String.prototype.trim] *)
Definition trim (s : string) : string :=
  rev (drop_while is_space (rev (drop_while is_space s))).

(** [split_at p s] looks for the leftmost occurrence of the literal [p]
    in [s] and returns the text before it and the text after it. *)
Fixpoint split_at (p s : string) : option (string * string) :=
  if starts_with p s then Some (EmptyString, drop (String.length p) s)
  else match s with
       | EmptyString => None
       | String c s' =>
           match split_at p s' with
           | Some (before, after) => Some (String c before, after)
           | None => None
           end
       end.

Definition contains (p s : string) : bool :=
  match split_at p s with Some _ => true | None => false end.

(** The way a regular expression without the sticky flag is matched:
    the pattern is tried at position 0, then 1, and so on; [search f s]
    is the result of the first position where [f] succeeds. *)
Fixpoint search {A} (f : string -> option A) (s : string) : option A :=
  match f s with
  | Some r => Some r
  | None => match s with
            | EmptyString => None
            | String _ s' => search f s'
            end
  end.

(** A pattern [lit([cls]+)] tried at the start of [s]: the capture. *)
Definition literal_then_class (lit : string) (cls : ascii -> bool)
    (s : string) : option string :=
  if starts_with lit s then
    match take_while cls (drop (String.length lit) s) with
    | EmptyString => None
    | w => Some w
    end
  else None.

(** [open[\s\S]*?close] where [open] and [close] are literals: the
    leftmost [open], then the nearest [close] after it.  The result is
    the text before the match, the text of the lazy group, and the text
    after the match.  When the leftmost [open] has no [close] after it,
    no later [open] has one either, so there is no match. *)
Definition lazy_between (open close : string) (s : string)
    : option (string * string * string) :=
  match split_at open s with
  | Some (before, rest) =>
      match split_at close rest with
      | Some (group, after) => Some (before, group, after)
      | None => None
      end
  | None => None
  end.

End Str.

(* ===================================================================== *)
(** * JavaScript values and the JSON built-ins *)
(* ===================================================================== *)

Module Js.

Definition dquote : ascii := "034"%char.
Definition backslash : ascii := "092"%char.
Definition LF : ascii := "010"%char.

(** String concatenation that computes under [simpl]. *)
Fixpoint cat (a b : string) : string :=
  match a with
  | EmptyString => b
  | String c a' => String c (cat a' b)
  end.

(** ** Numbers

    A number is a double.  [Int z] is the double whose value is the
    integer [z]; [Frac m e] is the double [m / 2^e] with [m] odd, which
    is not an integer.  The sign of zero is not kept: nothing in the
    embedded code tells [-0] from [0]. *)
Inductive number : Type :=
| Int (z : Z)
| Frac (m : Z) (e : positive)
| Infinity (negative : bool)
| NaN.

(** [x * 2^k] for [k >= 0], and [x] otherwise. *)
Definition scale (x k : Z) : Z := (x * 2 ^ Z.max k 0)%Z.

(** The integer nearest to [n / d], the even one of two that are equally
    near ([d > 0]). *)
Definition round_half_even (n d : Z) : Z :=
  let q := (n / d)%Z in
  let r := (n mod d)%Z in
  if (2 * r <? d)%Z then q
  else if (d <? 2 * r)%Z then (q + 1)%Z
  else if Z.even q then q else (q + 1)%Z.

(** The exponent of the last bit of the doubles around [p / q]
    ([p, q > 0]): 52 below the exponent of the leading bit, and not
    below -1074, where the subnormal numbers start. *)
Definition ulp_exponent (p q : Z) : Z :=
  let e := (Z.log2 p - Z.log2 q)%Z in
  let e := if (scale p (- e) <? scale q e)%Z then (e - 1)%Z else e in
  Z.max (e - 52) (-1074).

(** The double [m * 2^u] ([m <> 0], [-1074 <= u]). *)
Definition dyadic (m u : Z) : number :=
  if (0 <=? u)%Z then Int (m * 2 ^ u)
  else
    let t := Z.log2 (Z.gcd m (2 ^ (- u))) in
    if (t =? - u)%Z then Int (m / 2 ^ t)
    else Frac (m / 2 ^ t) (Z.to_pos (- u - t)).

(** The double nearest to [p / q] ([p >= 0], [q > 0]), with the sign
    given: round to nearest, ties to even, and infinity from
    [2^1024 - 2^970] on. *)
Definition nearest (negative : bool) (p q : Z) : number :=
  if (p =? 0)%Z then Int 0
  else
    let u := ulp_exponent p q in
    let m := round_half_even (scale p (- u)) (scale q u) in
    if (2 ^ 1024 <=? scale m u)%Z then Infinity negative
    else dyadic (if negative then (- m)%Z else m) u.

(** [Number.isSafeInteger]: below [2^53] in magnitude. *)
Definition is_safe_integer (z : Z) : bool := (Z.abs z <? 2 ^ 53)%Z.

(** The double nearest to an integer: the integer itself when it is
    safe. *)
Definition of_Z (z : Z) : number :=
  if is_safe_integer z then Int z else nearest (z <? 0)%Z (Z.abs z) 1.

(** The double nearest to [m * 10^x] ([m >= 0]), with the sign given. *)
Definition of_decimal (negative : bool) (m x : Z) : number :=
  if (0 <=? x)%Z then
    let z := (m * 10 ^ x)%Z in
    if (z <? 2 ^ 53)%Z then Int (if negative then (- z)%Z else z)
    else nearest negative z 1
  else nearest negative m (10 ^ (- x)).

(** [n++] and [n + 1] on an integer: the sum is rounded to a double, so
    that from [2^53] on it can be [n] itself. *)
Definition increment (n : Z) : Z :=
  match of_Z (n + 1) with
  | Int z => z
  | _ => n
  end.

(** The value of a finite number, as a fraction. *)
Definition fraction_of (n : number) : option (Z * Z) :=
  match n with
  | Int z => Some (z, 1%Z)
  | Frac m e => Some (m, (2 ^ Z.pos e)%Z)
  | _ => None
  end.

(** [===] on numbers: NaN is equal to nothing, itself included. *)
Definition number_eqb (a b : number) : bool :=
  match a, b with
  | Int x, Int y => (x =? y)%Z
  | Frac m e, Frac m' e' => (m =? m')%Z && (Z.pos e =? Z.pos e')%Z
  | Infinity s, Infinity s' => Bool.eqb s s'
  | _, _ => false
  end.

(** [isNaN] *)
Definition isNaN (n : number) : bool :=
  match n with NaN => true | _ => false end.

(** ** Number::toString *)

(** Whether [p / q < 10^n]. *)
Definition below_power_of_ten (p q n : Z) : bool :=
  if (0 <=? n)%Z then (p <? q * 10 ^ n)%Z else (p * 10 ^ (- n) <? q)%Z.

(** The [n] with [10^(n-1) <= p / q < 10^n] ([p, q > 0]), looked for
    around the estimate that the binary exponent gives. *)
Definition decimal_exponent (p q : Z) : Z :=
  let estimate := ((Z.log2 p - Z.log2 q) * 30103 / 100000)%Z in
  default (estimate + 3)%Z
    (find (below_power_of_ten p q)
       (map (fun i => (estimate - 2 + i)%Z) [0; 1; 2; 3; 4]%Z)).

(** Whether the decimal [s * 10^x] denotes the double [p / q], that is,
    whether [p / q] is the double nearest to it. *)
Definition denotes (p q s x : Z) : bool :=
  match fraction_of (of_decimal false s x) with
  | Some (p', q') => (p * q' =? p' * q)%Z
  | None => false
  end.

(** The decimal of [k] digits for [p / q], whose decimal exponent is
    [n]: of the two [k]-digit decimals around [p / q], the nearer one
    that denotes [p / q] (the even one of two equally near), if any.
    The result is the digits [s] and the [n'] of [0.s * 10^n']. *)
Definition digits_of_length (p q n k : Z) : option (Z * Z) :=
  let x := (n - k)%Z in
  let '(a, b) :=
    if (0 <=? x)%Z then (p, q * 10 ^ x)%Z else (p * 10 ^ (- x), q)%Z in
  let lo := (a / b)%Z in
  let hi := (lo + 1)%Z in
  let r := (a mod b)%Z in
  let lo_first :=
    if (2 * r <? b)%Z then true
    else if (b <? 2 * r)%Z then false else Z.even lo in
  let pick (s : Z) :=
    if (s =? 10 ^ k)%Z then (10 ^ (k - 1), n + 1)%Z else (s, n) in
  let first := if lo_first then lo else hi in
  let second := if lo_first then hi else lo in
  if denotes p q first x then Some (pick first)
  else if denotes p q second x then Some (pick second)
  else None.

(** The shortest decimal that denotes [p / q]: its digits [s], their
    number [k] and the exponent [n].  Seventeen digits tell any two
    doubles apart. *)
Definition shortest (p q : Z) : Z * Z * Z :=
  let n := decimal_exponent p q in
  default (0, 1, 0)%Z
    (head (omap (fun k => match digits_of_length p q n k with
                          | Some (s, n') => Some (s, k, n')
                          | None => None
                          end)
             [1; 2; 3; 4; 5; 6; 7; 8; 9; 10; 11; 12; 13; 14; 15; 16; 17]%Z)).

(** The decimal digits of an integer, with a minus sign in front of a
    negative one. *)
Definition digits_of_Z (n : Z) : string :=
  NilZero.string_of_int (Z.to_int n).

Fixpoint zeros (n : nat) : string :=
  match n with
  | O => EmptyString
  | S n' => String "0" (zeros n')
  end.

(** The text of the positive double [p / q]: the digits alone or with a
    decimal point where the exponent is between -5 and 21, and the
    exponent form otherwise. *)
Definition positive_toString (p q : Z) : string :=
  let '(s, k, n) := shortest p q in
  let d := digits_of_Z s in
  if (k <=? n)%Z && (n <=? 21)%Z then cat d (zeros (Z.to_nat (n - k)))
  else if (0 <? n)%Z && (n <=? 21)%Z then
    cat (Str.prefix (Z.to_nat n) d) (String "." (Str.drop (Z.to_nat n) d))
  else if (-6 <? n)%Z && (n <=? 0)%Z then
    cat "0." (cat (zeros (Z.to_nat (- n))) d)
  else
    let e := (n - 1)%Z in
    let exponent := cat (if (e <? 0)%Z then "-" else "+") (digits_of_Z (Z.abs e)) in
    if (k =? 1)%Z then cat d (String "e" exponent)
    else cat (Str.prefix 1 d) (String "." (cat (Str.drop 1 d) (String "e" exponent))).

(** Number::toString in radix 10.  A safe integer is written with all
    its digits. *)
Definition number_toString (n : number) : string :=
  match n with
  | NaN => "NaN"
  | Infinity false => "Infinity"
  | Infinity true => "-Infinity"
  | Int z =>
      if is_safe_integer z then digits_of_Z z
      else cat (if (z <? 0)%Z then "-" else "") (positive_toString (Z.abs z) 1)
  | Frac m e =>
      cat (if (m <? 0)%Z then "-" else "")
        (positive_toString (Z.abs m) (2 ^ Z.pos e))
  end.

(** The text of the integer [n]: [`${n}`] and [n.toString()]. *)
Definition string_of_Z (n : Z) : string := number_toString (Int n).

(** ** Values

    The values that tasks, comments, attachments and parsed metadata are
    made of.  The properties of an object are listed in enumeration
    order; the engine's reordering of integer-like keys is not modelled
    (nothing in the embedded code enumerates an object it did not
    build). *)
Inductive value : Type :=
| VUndefined
| VNull
| VBool (b : bool)
| VNum (n : number)
| VStr (s : string)
| VArr (xs : list value)
| VObj (props : list (string * value)).

(** What a [throw] carries: an [Error] object, its [name] and its
    [message]. *)
Record exn := Exn { exn_name : string; exn_message : string }.

Definition Error (msg : string) : exn := Exn "Error" msg.
Definition TypeError (msg : string) : exn := Exn "TypeError" msg.
Definition SyntaxError (msg : string) : exn := Exn "SyntaxError" msg.

(** The outcome of evaluating an expression or calling a function. *)
Inductive completion (A : Type) : Type :=
| Return (a : A)
| Throw (e : exn).
Arguments Return {A} a.
Arguments Throw {A} e.

Definition cbind {A B} (c : completion A) (f : A -> completion B)
    : completion B :=
  match c with
  | Return a => f a
  | Throw e => Throw e
  end.

(** ToBoolean *)
Definition truthy (v : value) : bool :=
  match v with
  | VUndefined | VNull => false
  | VBool b => b
  | VNum (Int n) => negb (n =? 0)%Z
  | VNum NaN => false
  | VNum _ => true
  | VStr s => negb (String.eqb s "")
  | VArr _ | VObj _ => true
  end.

(** [a || b] *)
Definition or_else (a b : value) : value := if truthy a then a else b.

(** [a !== b] against a string literal [b] *)
Definition strict_neq_str (a : value) (b : string) : bool :=
  match a with
  | VStr s => negb (String.eqb s b)
  | _ => true
  end.

(** ToString, as applied by [+] on a string and by template literals.
    An array is joined with commas, [null] and [undefined] elements
    giving the empty string. *)
Fixpoint toString (v : value) : string :=
  match v with
  | VUndefined => "undefined"
  | VNull => "null"
  | VBool true => "true"
  | VBool false => "false"
  | VNum n => number_toString n
  | VStr s => s
  | VArr xs =>
      (fix join (first : bool) (l : list value) : string :=
         match l with
         | [] => ""
         | x :: l' =>
             cat (if first then "" else ",")
               (cat match x with
                    | VUndefined | VNull => ""
                    | _ => toString x
                    end
                    (join false l'))
         end) true xs
  | VObj _ => "[object Object]"
  end.

(** The members of [Object.prototype], which an object literal
    inherits. *)
Definition Object_prototype : list string :=
  ["constructor"; "__defineGetter__"; "__defineSetter__"; "hasOwnProperty";
   "__lookupGetter__"; "__lookupSetter__"; "isPrototypeOf";
   "propertyIsEnumerable"; "toString"; "valueOf"; "__proto__";
   "toLocaleString"].

(** The read [o.k] for the keys the adapter reads ([description],
    [priority], [dueDate], [comments], [attachments], [message]): none
    of them is a member of a built-in prototype, so a primitive, an
    array or an object without the key gives [undefined], and reading
    from [null] or [undefined] throws. *)
Fixpoint assoc (k : string) (props : list (string * value)) : value :=
  match props with
  | [] => VUndefined
  | (k', v) :: props' => if String.eqb k k' then v else assoc k props'
  end.

Definition get (o : value) (k : string) : completion value :=
  match o with
  | VUndefined =>
      Throw (TypeError ("Cannot read properties of undefined (reading '" +:+ k +:+ "')"))
  | VNull =>
      Throw (TypeError ("Cannot read properties of null (reading '" +:+ k +:+ "')"))
  | VObj props => Return (assoc k props)
  | _ => Return VUndefined
  end.

(** [o[k] = v] on an object under construction: an existing key keeps
    its place and takes the new value, a new key goes last. *)
Fixpoint set_prop (k : string) (v : value) (props : list (string * value))
    : list (string * value) :=
  match props with
  | [] => [(k, v)]
  | (k', v') :: props' =>
      if String.eqb k k' then (k', v) :: props'
      else (k', v') :: set_prop k v props'
  end.

(** ** JSON.stringify

    The serializer writes in front of a continuation [k], so that
    [write v ""] is the JSON text of [v].  No white space is produced
    (the source passes no indent argument). *)

(** A finite number is written as Number::toString writes it, and any
    other as [null]. *)
Definition write_number (n : number) : string :=
  match n with
  | Int _ | Frac _ _ => number_toString n
  | Infinity _ | NaN => "null"
  end.

Definition hex_digit (n : nat) : ascii :=
  match n with
  | 0 => "0" | 1 => "1" | 2 => "2" | 3 => "3" | 4 => "4" | 5 => "5"
  | 6 => "6" | 7 => "7" | 8 => "8" | 9 => "9" | 10 => "a" | 11 => "b"
  | 12 => "c" | 13 => "d" | 14 => "e" | _ => "f"
  end%char.

(** QuoteJSONString, one code unit. *)
Definition write_char (c : ascii) (k : string) : string :=
  if Ascii.eqb c dquote then String backslash (String dquote k)
  else if Ascii.eqb c backslash then String backslash (String backslash k)
  else if Str.code c =? 8 then String backslash (String "b" k)
  else if Str.code c =? 12 then String backslash (String "f" k)
  else if Str.code c =? 10 then String backslash (String "n" k)
  else if Str.code c =? 13 then String backslash (String "r" k)
  else if Str.code c =? 9 then String backslash (String "t" k)
  else if Str.code c <? 32 then
    String backslash (String "u" (String "0" (String "0"
      (String (hex_digit (Str.code c / 16))
         (String (hex_digit (Str.code c mod 16)) k)))))
  else String c k.

Fixpoint write_chars (s : string) (k : string) : string :=
  match s with
  | EmptyString => k
  | String c s' => write_char c (write_chars s' k)
  end.

Definition write_string (s : string) (k : string) : string :=
  String dquote (write_chars s (String dquote k)).

Fixpoint write (v : value) (k : string) : string :=
  match v with
  | VUndefined | VNull => cat "null" k
  | VBool true => cat "true" k
  | VBool false => cat "false" k
  | VNum n => cat (write_number n) k
  | VStr s => write_string s k
  | VArr xs =>
      String "["
        ((fix elements (first : bool) (l : list value) (k : string) : string :=
            match l with
            | [] => k
            | x :: l' =>
                cat (if first then "" else ",")
                  (write x (elements false l' k))
            end) true xs (String "]" k))
  | VObj props =>
      String "{"
        ((fix members (first : bool) (l : list (string * value)) (k : string)
            : string :=
            match l with
            | [] => k
            | (_, VUndefined) :: l' => members first l' k
            | (key, x) :: l' =>
                cat (if first then "" else ",")
                  (write_string key (String ":" (write x (members false l' k))))
            end) true props (String "}" k))
  end.

(** [JSON.stringify(v)]: [undefined] at top level gives [undefined],
    here [None]. *)
Definition JSON_stringify (v : value) : option string :=
  match v with
  | VUndefined => None
  | _ => Some (write v "")
  end.

(** ** JSON.parse *)

Definition is_json_space (c : ascii) : bool :=
  (Str.code c =? 32) || (Str.code c =? 9) || (Str.code c =? 10)
  || (Str.code c =? 13).

Definition skip_ws (s : string) : string := Str.drop_while is_json_space s.

Definition hex_value (c : ascii) : option nat :=
  if Str.is_digit c then Some (Str.code c - 48)
  else if Str.between 97 102 c then Some (Str.code c - 87)
  else if Str.between 65 70 c then Some (Str.code c - 55)
  else None.

(** The code unit of [\uXXXX], [None] when a digit is not hexadecimal.
    Of a code unit above 255 the low byte is kept. *)
Definition unicode_escape (h1 h2 h3 h4 : ascii) : option ascii :=
  match hex_value h1, hex_value h2, hex_value h3, hex_value h4 with
  | Some _, Some _, Some a, Some b => Some (ascii_of_nat (16 * a + b))
  | _, _, _, _ => None
  end.

Definition simple_escape (e : ascii) : option ascii :=
  if Ascii.eqb e dquote then Some dquote
  else if Ascii.eqb e backslash then Some backslash
  else if Ascii.eqb e "/" then Some "/"%char
  else if Ascii.eqb e "b" then Some "008"%char
  else if Ascii.eqb e "f" then Some "012"%char
  else if Ascii.eqb e "n" then Some "010"%char
  else if Ascii.eqb e "r" then Some "013"%char
  else if Ascii.eqb e "t" then Some "009"%char
  else None.

(** The characters of a string literal after its opening quote, up to
    and including the closing quote. *)
Fixpoint read_chars (s : string) : option (string * string) :=
  match s with
  | EmptyString => None
  | String c r =>
      if Ascii.eqb c dquote then Some (EmptyString, r)
      else if Ascii.eqb c backslash then
        match r with
        | String e r1 =>
            if Ascii.eqb e "u" then
              match r1 with
              | String h1 (String h2 (String h3 (String h4 r2))) =>
                  match unicode_escape h1 h2 h3 h4, read_chars r2 with
                  | Some a, Some (str, rest) => Some (String a str, rest)
                  | _, _ => None
                  end
              | _ => None
              end
            else
              match simple_escape e, read_chars r1 with
              | Some a, Some (str, rest) => Some (String a str, rest)
              | _, _ => None
              end
        | EmptyString => None
        end
      else if Str.code c <? 32 then None
      else
        match read_chars r with
        | Some (str, rest) => Some (String c str, rest)
        | None => None
        end
  end.

(** The longest run of digits of the radix at the head of [s], read as
    a number in front of which [acc] stands. *)
Definition digit_value (radix : nat) (c : ascii) : option nat :=
  match hex_value c with
  | Some d => if d <? radix then Some d else None
  | None => None
  end.

Fixpoint read_digits (radix : nat) (acc : Z) (s : string) : Z :=
  match s with
  | EmptyString => acc
  | String c s' =>
      match digit_value radix c with
      | Some d => read_digits radix (acc * Z.of_nat radix + Z.of_nat d)%Z s'
      | None => acc
      end
  end.

(** A fraction, if there is one: [.] and at least one digit.  The
    result is the digits. *)
Definition read_fraction (s : string) : option (string * string) :=
  match s with
  | String c r =>
      if Ascii.eqb c "." then
        match Str.take_while Str.is_digit r with
        | EmptyString => None
        | digits => Some (digits, Str.drop_while Str.is_digit r)
        end
      else Some (EmptyString, s)
  | EmptyString => Some (EmptyString, s)
  end.

(** The sign of an exponent, if there is one. *)
Definition read_sign (s : string) : bool * string :=
  match s with
  | String c r =>
      if Ascii.eqb c "-" then (true, r)
      else if Ascii.eqb c "+" then (false, r)
      else (false, s)
  | EmptyString => (false, s)
  end.

(** An exponent, if there is one: [e] or [E], a sign or none, and at
    least one digit. *)
Definition read_exponent (s : string) : option (Z * string) :=
  match s with
  | String c r =>
      if Ascii.eqb c "e" || Ascii.eqb c "E" then
        let '(negative, r) := read_sign r in
        match Str.take_while Str.is_digit r with
        | EmptyString => None
        | digits =>
            let x := read_digits 10 0 digits in
            Some (if negative then (- x)%Z else x, Str.drop_while Str.is_digit r)
        end
      else Some (0%Z, s)
  | EmptyString => Some (0%Z, s)
  end.

(** A number after its sign: 0, or a digit 1-9 followed by digits; then
    a fraction and an exponent, if any.  Its value is the double nearest
    to the decimal. *)
Definition read_magnitude (negative : bool) (s : string)
    : option (number * string) :=
  let digits := Str.take_while Str.is_digit s in
  let rest := Str.drop_while Str.is_digit s in
  match digits with
  | EmptyString => None
  | String d ds =>
      if Ascii.eqb d "0" && negb (String.eqb ds "") then None
      else
        match read_fraction rest with
        | Some (fraction, rest) =>
            match read_exponent rest with
            | Some (x, rest) =>
                Some (of_decimal negative
                        (read_digits 10 0 (cat digits fraction))
                        (x - Z.of_nat (String.length fraction)),
                      rest)
            | None => None
            end
        | None => None
        end
  end.

(** A number: an optional minus sign, then the magnitude. *)
Definition read_number (s : string) : option (number * string) :=
  match s with
  | String c r =>
      if Ascii.eqb c "-" then read_magnitude true r else read_magnitude false s
  | EmptyString => None
  end.

Definition expect (lit : string) (v : value) (s : string)
    : option (value * string) :=
  if Str.starts_with lit s then Some (v, Str.drop (String.length lit) s)
  else None.

(** Recursive descent, with [fuel] bounding the nesting depth and the
    number of elements; [JSON_parse] supplies more than any text of the
    given length can use. *)
Fixpoint read_value (fuel : nat) (s : string) {struct fuel}
    : option (value * string) :=
  match fuel with
  | 0 => None
  | S fuel =>
      match skip_ws s with
      | EmptyString => None
      | String c r =>
          if Ascii.eqb c "n" then expect "ull" VNull r
          else if Ascii.eqb c "t" then expect "rue" (VBool true) r
          else if Ascii.eqb c "f" then expect "alse" (VBool false) r
          else if Ascii.eqb c dquote then
            match read_chars r with
            | Some (str, rest) => Some (VStr str, rest)
            | None => None
            end
          else if Ascii.eqb c "[" then
            match skip_ws r with
            | EmptyString => None
            | String c' r' =>
                if Ascii.eqb c' "]" then Some (VArr [], r')
                else
                  match read_elements fuel (String c' r') with
                  | Some (xs, rest) => Some (VArr xs, rest)
                  | None => None
                  end
            end
          else if Ascii.eqb c "{" then
            match skip_ws r with
            | EmptyString => None
            | String c' r' =>
                if Ascii.eqb c' "}" then Some (VObj [], r')
                else
                  match read_members fuel (String c' r') with
                  | Some (ps, rest) =>
                      Some (VObj (fold_left (fun o '(k, v) => set_prop k v o) ps []),
                            rest)
                  | None => None
                  end
            end
          else if Ascii.eqb c "-" || Str.is_digit c then
            match read_number (String c r) with
            | Some (n, rest) => Some (VNum n, rest)
            | None => None
            end
          else None
      end
  end
with read_elements (fuel : nat) (s : string) {struct fuel}
    : option (list value * string) :=
  match fuel with
  | 0 => None
  | S fuel =>
      match read_value fuel s with
      | Some (x, r) =>
          match skip_ws r with
          | EmptyString => None
          | String c r' =>
              if Ascii.eqb c "," then
                match read_elements fuel r' with
                | Some (xs, rest) => Some (x :: xs, rest)
                | None => None
                end
              else if Ascii.eqb c "]" then Some ([x], r')
              else None
          end
      | None => None
      end
  end
with read_members (fuel : nat) (s : string) {struct fuel}
    : option (list (string * value) * string) :=
  match fuel with
  | 0 => None
  | S fuel =>
      match skip_ws s with
      | EmptyString => None
      | String q r =>
          if Ascii.eqb q dquote then
            match read_chars r with
            | Some (key, r1) =>
                match skip_ws r1 with
                | EmptyString => None
                | String colon r2 =>
                    if Ascii.eqb colon ":" then
                      match read_value fuel r2 with
                      | Some (x, r3) =>
                          match skip_ws r3 with
                          | EmptyString => None
                          | String c r4 =>
                              if Ascii.eqb c "," then
                                match read_members fuel r4 with
                                | Some (ps, rest) => Some ((key, x) :: ps, rest)
                                | None => None
                                end
                              else if Ascii.eqb c "}" then Some ([(key, x)], r4)
                              else None
                          end
                      | None => None
                      end
                    else None
                end
            | None => None
            end
          else None
      end
  end.

(** The value a JSON text denotes, [None] when the text is not JSON. *)
Definition parse_text (text : string) : option value :=
  match read_value (2 * String.length text + 2) text with
  | Some (v, rest) =>
      match skip_ws rest with
      | EmptyString => Some v
      | String _ _ => None
      end
  | None => None
  end.

(** [JSON.parse(text)].  The message of the [SyntaxError] is the
    engine's own; the embedded code does no more than log it. *)
Definition JSON_parse (text : string) : completion value :=
  match parse_text text with
  | Some v => Return v
  | None => Throw (SyntaxError "JSON.parse: unexpected token")
  end.

(** ** parseInt

    [parseInt(s)] with no radix: leading white space, a sign, an
    optional [0x] prefix, then the longest run of digits of the radix.
    The result is the double nearest to the integer read, and NaN when
    there is no digit. *)

Definition has_digit (radix : nat) (s : string) : bool :=
  match s with
  | String c _ => match digit_value radix c with Some _ => true | None => false end
  | EmptyString => false
  end.

Definition parseInt (s : string) : number :=
  let s0 := Str.drop_while Str.is_space s in
  let '(sign, s1) :=
    match s0 with
    | String c r =>
        if Ascii.eqb c "-" then ((-1)%Z, r)
        else if Ascii.eqb c "+" then (1%Z, r)
        else (1%Z, s0)
    | EmptyString => (1%Z, s0)
    end in
  let '(radix, s2) :=
    if Str.starts_with "0x" s1 || Str.starts_with "0X" s1
    then (16, Str.drop 2 s1) else (10, s1) in
  if has_digit radix s2 then of_Z (sign * read_digits radix 0 s2)
  else NaN.

(** ** ToNumber on a string

    White space around the text is dropped.  The empty text is 0; then
    come [Infinity] with a sign or none, the decimal literals (digits
    with a point or none, at least one digit, an exponent or none, a
    sign or none in front), and the literals of radix 16, 8 and 2 with
    their prefix and no sign.  Any other text is NaN. *)

(** The text after a prefix of two characters, the second in either
    case, when all of it is digits of the radix. *)
Definition prefixed (lower upper : string) (radix : nat) (s : string)
    : option number :=
  if Str.starts_with lower s || Str.starts_with upper s then
    let digits := Str.drop 2 s in
    if negb (String.eqb digits "")
       && Str.all (fun c => match digit_value radix c with
                            | Some _ => true
                            | None => false
                            end) digits
    then Some (of_Z (read_digits radix 0 digits))
    else Some NaN
  else None.

Definition unsigned_decimal (negative : bool) (s : string) : number :=
  if String.eqb s "Infinity" then Infinity negative
  else
    let digits := Str.take_while Str.is_digit s in
    let rest := Str.drop_while Str.is_digit s in
    let '(fraction, rest) :=
      match rest with
      | String c r =>
          if Ascii.eqb c "."
          then (Str.take_while Str.is_digit r, Str.drop_while Str.is_digit r)
          else (EmptyString, rest)
      | EmptyString => (EmptyString, rest)
      end in
    if String.eqb (cat digits fraction) "" then NaN
    else
      match read_exponent rest with
      | Some (x, EmptyString) =>
          of_decimal negative (read_digits 10 0 (cat digits fraction))
            (x - Z.of_nat (String.length fraction))
      | _ => NaN
      end.

Definition ToNumber (s : string) : number :=
  let s := Str.trim s in
  if String.eqb s "" then Int 0
  else
    match prefixed "0x" "0X" 16 s, prefixed "0o" "0O" 8 s, prefixed "0b" "0B" 2 s with
    | Some n, _, _ | None, Some n, _ | None, None, Some n => n
    | None, None, None =>
        match s with
        | String c r =>
            if Ascii.eqb c "-" then unsigned_decimal true r
            else if Ascii.eqb c "+" then unsigned_decimal false r
            else unsigned_decimal false s
        | EmptyString => Int 0
        end
    end.

End Js.

Notation "'let?' x ':=' c 'in' k" := (Js.cbind c (fun x => k))
  (at level 10, x name, c at level 100, k at level 200).


(* ===================================================================== *)
(** * The data model *)
(* ===================================================================== *)

Import Js.

(** What the tracker returns for a label ([GET .../labels], and the
    [labels] of an issue). *)
Module Label.
Record t := make { name : string; color : string }.
End Label.

(** An account of the tracker, as listed in an issue's [assignees]. *)
Module Account.
Record t := make { login : string }.
End Account.

(** An issue as [GET .../issues] returns it; [body] is [null] for an
    issue without text, [pull_request] tells an entry that is a pull
    request. *)
Module Issue.
Record t := make {
  number : Z;
  title : string;
  body : option string;
  labels : list Label.t;
  assignees : list Account.t;
  pull_request : bool;
  created_at : string;
  updated_at : string;
  html_url : string
}.
End Issue.

(** A reference to a user as the [assignee] of a task holds it: a string
    (the value of the form's select, a tracker login after a pull, or the
    empty string for nobody) or a number. *)
Inductive ref : Type :=
| RefStr (s : string)
| RefNum (n : Z).

Module Task.
Record t := make {
  id : Z;
  title : string;
  description : value;
  status : string;
  priority : value;
  assignee : ref;
  dueDate : value;
  comments : value;
  attachments : value;
  createdAt : string;
  updatedAt : string;
  githubIssueNumber : option Z;
  githubUrl : option string
}.
End Task.

(** The [id] of a user is the number that [createUser] gives, or the
    text of a cell for a user loaded from a sheet. *)
Module User.
Record t := make {
  id : ref;
  name : string;
  email : string;
  role : string;
  githubUsername : option string
}.
End User.

(** [js/config.js]: [githubConfig.labelColors]. *)
Definition githubConfig_labelColors : list (string * string) :=
  [("backlog", "6e7681"); ("todo", "0e7a86"); ("inProgress", "a371f7");
   ("done", "3fb950")].

(* ===================================================================== *)
(** * [GitHubBoards]: the functions without effects *)
(* ===================================================================== *)

Module GitHubBoards.

(** [Array.prototype.includes] on an array of strings *)
Definition includes (l : list string) (x : string) : bool :=
  existsb (String.eqb x) l.

(** [getStatusLabel(status)]: [mapping[status] || 'backlog'].  For a
    status that names a member of [Object.prototype], [mapping[status]]
    is that member, which is truthy and not a string: the result is
    [None] then, and the label name otherwise. *)
Definition getStatusLabel (status : string) : option string :=
  if String.eqb status "backlog" then Some "backlog"
  else if String.eqb status "todo" then Some "to do"
  else if String.eqb status "in-progress" then Some "in progress"
  else if String.eqb status "done" then Some "done"
  else if includes Object_prototype status then None
  else Some "backlog".

(** [getKanbanStatus(labels)] *)
Definition getKanbanStatus (labels : list Label.t) : string :=
  let labelNames := map (fun l => Str.toLowerCase (Label.name l)) labels in
  if includes labelNames "done" then "done"
  else if includes labelNames "in progress" then "in-progress"
  else if includes labelNames "to do" then "todo"
  else "backlog".

Definition nl : string := String LF EmptyString.

(** The two delimiters of the metadata block, as [formatTaskBody]
    writes them and as the regular expression of [parseTaskBody] reads
    them. *)
Definition metadata_open : string := cat "<!-- pixelKanban metadata:" nl.
Definition metadata_close : string := cat nl "-->".

(** The object literal [metadata] of [formatTaskBody]. *)
Definition metadata (task : Task.t) : value :=
  VObj [("_pixelKanban", VBool true);
        ("priority", Task.priority task);
        ("dueDate", Task.dueDate task);
        ("description", Task.description task);
        ("comments", or_else (Task.comments task) (VArr []));
        ("attachments", or_else (Task.attachments task) (VArr []))].

(** What [formatTaskBody] has put in [body] before it appends the
    metadata block. *)
Definition visible_text (task : Task.t) : string :=
  let body := toString (or_else (Task.description task) (VStr "")) in
  let body :=
    if truthy (Task.priority task) && strict_neq_str (Task.priority task) "medium"
    then cat body (cat nl (cat nl (cat "**Priority:** " (toString (Task.priority task)))))
    else body in
  if truthy (Task.dueDate task)
  then cat body (cat nl (cat nl (cat "**Due Date:** " (toString (Task.dueDate task)))))
  else body.

(** [formatTaskBody(task)] *)
Definition formatTaskBody (task : Task.t) : string :=
  cat (visible_text task)
    (cat nl (cat nl (cat metadata_open
       (cat match JSON_stringify (metadata task) with
            | Some text => text
            | None => "undefined"
            end
            metadata_close)))).

(** [/\*\*.*?\*\*/] tried at the start of [s]: the length of the match.
    The lazy [.*?] stops at the first [**] and cannot cross a line
    terminator. *)
Fixpoint lazy_dots_then (close : string) (s : string) : option nat :=
  if Str.starts_with close s then Some (String.length close)
  else match s with
       | EmptyString => None
       | String c s' =>
           if Str.is_line_terminator c then None
           else match lazy_dots_then close s' with
                | Some n => Some (S n)
                | None => None
                end
       end.

Definition bold_span (s : string) : option nat :=
  if Str.starts_with "**" s then
    match lazy_dots_then "**" (Str.drop 2 s) with
    | Some n => Some (2 + n)
    | None => None
    end
  else None.

(** [s.replace(re, '')] for a global [re] whose match at a position is
    given by [m] (its length): scanning from the left, a match is
    dropped and the scan goes on after it; [skip] counts the characters
    of the current match still to drop. *)
Fixpoint remove_all (m : string -> option nat) (skip : nat) (s : string)
    : string :=
  match s with
  | EmptyString => EmptyString
  | String c s' =>
      match skip with
      | S n => remove_all m n s'
      | 0 =>
          match m s with
          | Some (S n) => remove_all m n s'
          | Some 0 | None => String c (remove_all m 0 s')
          end
      end
  end.

(** [body.replace(/<!--[\s\S]*?-->/, '')]: the first comment only. *)
Definition remove_first_comment (body : string) : string :=
  match Str.lazy_between "<!--" "-->" body with
  | Some (before, _, after) => cat before after
  | None => body
  end.

(** The object [parseTaskBody] builds from the text when it has no
    metadata to return. *)
Definition parse_basic_info (body : string) : value :=
  let priorityMatch :=
    Str.search (Str.literal_then_class "**Priority:** " Str.is_word) body in
  let dueDateMatch :=
    Str.search (Str.literal_then_class "**Due Date:** " Str.is_digit_or_dash) body in
  VObj [("priority", VStr (default "medium" priorityMatch));
        ("dueDate", VStr (default "" dueDateMatch));
        ("description",
          VStr (Str.trim (remove_all bold_span 0 (remove_first_comment body))))].

(** [body.match(/<!-- pixelKanban metadata:\n([\s\S]*?)\n-->/)]: the
    captured group. *)
Definition metadata_match (body : string) : option string :=
  match Str.lazy_between metadata_open metadata_close body with
  | Some (_, group, _) => Some group
  | None => None
  end.

(** The [try] block of [parseTaskBody]: [Return (Some v)] when it
    executes [return v], [Return None] when it completes normally. *)
Definition parseTaskBody_try (body : string) : completion (option value) :=
  match metadata_match body with
  | Some text =>
      match JSON_parse text with
      | Return v => Return (Some v)
      | Throw e => Throw e
      end
  | None => Return None
  end.

(** [try { ... } catch (e) { console.warn(...) }]: the handler swallows
    the exception and control continues after the statement. *)
Definition catch_and_warn {A} (c : completion (option A))
    : completion (option A) :=
  match c with
  | Return r => Return r
  | Throw _ => Return None
  end.

(** [parseTaskBody(body)]; [body] is [None] for [null]. *)
Definition parseTaskBody (body : option string) : completion value :=
  match body with
  | None => Return (VObj [])
  | Some body =>
      if String.eqb body "" then Return (VObj [])
      else
        match catch_and_warn (parseTaskBody_try body) with
        | Return (Some v) => Return v
        | Return None => Return (parse_basic_info body)
        | Throw e => Throw e
        end
  end.

End GitHubBoards.

(* ===================================================================== *)
(** * The stores of the page *)
(* ===================================================================== *)

(** [window.kanbanBoard] *)
Module KanbanBoard.
Record t := make { tasks : list Task.t; nextTaskId : Z }.
End KanbanBoard.

(** [window.userManager] *)
Module UserManager.
Record t := make { users : list User.t; nextUserId : Z }.
End UserManager.

(** The repository chosen for the sync ([api.selectedRepo]): the fields
    the adapter reads, [repo.owner.login] and [repo.name]. *)
Module Repo.
Record t := make { owner_login : string; name : string }.
End Repo.

(* ===================================================================== *)
(** * The remote interface *)
(* ===================================================================== *)

(** The object [updates] that [pushBoard] sends with [PATCH]: [assignees]
    is a key of it only when an assignee was resolved. *)
Module Updates.
Record t := make {
  body : string;
  labels : list string;
  assignees : option (list string)
}.
End Updates.

(** The REST calls of [GitHubAPI] that push and pull make, indexed by the
    shape of the JSON a successful response carries. *)
Inductive request : Type -> Type :=
| GET_issues (owner repo state : string) (per_page : nat)
    : request (list Issue.t)
| GET_labels (owner repo : string) (per_page : nat)
    : request (list Label.t)
| POST_label (owner repo name color : string)
    : request Label.t
| POST_issue (owner repo title body : string) (labels assignees : list string)
    : request Issue.t
| PATCH_issue (owner repo : string) (number : Z) (updates : Updates.t)
    : request Issue.t.

(** What [fetch] gives back. *)
Inductive response (T : Type) : Type :=
| Ok (json : T)
    (** [response.ok], and the body read by [response.json()] *)
| Failed (status : Z) (body : option value)
    (** not [response.ok]: the status, and the JSON of the body, [None]
        when the body is not JSON *)
| Rejected (e : exn)
    (** the promise of [fetch] or of [response.json()] rejects *).
Arguments Ok {T} json.
Arguments Failed {T} status body.
Arguments Rejected {T} e.

(** How a request ended. *)
Inductive outcome : Type :=
| Answered
| Refused (status : Z) (body : option value)
| Broken (e : exn).

Definition outcome_of {T} (r : response T) : outcome :=
  match r with
  | Ok _ => Answered
  | Failed status body => Refused status body
  | Rejected e => Broken e
  end.

(** A request as the log keeps it, with how it ended. *)
Record sent : Type := Sent {
  sent_type : Type;
  sent_request : request sent_type;
  sent_outcome : outcome
}.

Definition answered (s : sent) : bool :=
  match sent_outcome s with Answered => true | _ => false end.

Definition is_POST_issue (s : sent) : bool :=
  match sent_request s with POST_issue _ _ _ _ _ _ => true | _ => false end.

Definition is_POST_label (s : sent) : bool :=
  match sent_request s with POST_label _ _ _ _ => true | _ => false end.

Definition is_PATCH_issue (s : sent) : bool :=
  match sent_request s with PATCH_issue _ _ _ _ => true | _ => false end.

(* ===================================================================== *)
(** * The page: state, exceptions, and the adapter's effects *)
(* ===================================================================== *)

Section State.

(** The state of the remote service. *)
Context {R : Type}.

Record World := mkWorld {
  remote : R;
  requests : list sent;                 (** requests sent, oldest first *)
  accessToken : option string;          (** [api.accessToken] *)
  selectedRepo : option Repo.t;         (** [api.selectedRepo] *)
  syncStatus : string;
  lastSync : option string;
  github_last_sync : option string;     (** the [localStorage] item *)
  notifications : list (string * string);
  status_line : list (string * string); (** [GitHubBoardsUI.showStatus] *)
  clock : nat;
  kanbanBoard : option KanbanBoard.t;   (** [window.kanbanBoard] *)
  userManager : option UserManager.t;   (** [window.userManager] *)
  saved_tasks : option (list Task.t * Z);
    (** the [localStorage] items [kanban-tasks] and [kanban-next-id] *)
  saved_users : option (list User.t * Z)
    (** the [localStorage] items [kanban-users] and [kanban-next-user-id] *)
}.

(** ** The monad *)

Definition M (A : Type) : Type := World -> World * completion A.

Definition ret {A} (a : A) : M A := fun w => (w, Return a).

Definition throw {A} (e : exn) : M A := fun w => (w, Throw e).

Definition bind {A B} (m : M A) (f : A -> M B) : M B :=
  fun w =>
    match m w with
    | (w', Return a) => f a w'
    | (w', Throw e) => (w', Throw e)
    end.

Definition try_catch {A} (m : M A) (handler : exn -> M A) : M A :=
  fun w =>
    match m w with
    | (w', Return a) => (w', Return a)
    | (w', Throw e) => handler e w'
    end.

Definition read {A} (f : World -> A) : M A := fun w => (w, Return (f w)).

Definition update (f : World -> World) : M unit := fun w => (f w, Return tt).

(** A pure computation that may throw, run inside the monad. *)
Definition lift {A} (c : completion A) : M A := fun w => (w, c).

(** [for (const x of l) { body }] *)
Fixpoint for_of {A} (l : list A) (body : A -> M unit) : M unit :=
  match l with
  | [] => ret tt
  | x :: l' => bind (body x) (fun _ => for_of l' body)
  end.

(** ** Setters for the fields the code assigns *)

Definition set_remote_log (r : R) (s : sent) (w : World) : World :=
  mkWorld r (requests w ++ [s]) (accessToken w) (selectedRepo w)
    (syncStatus w) (lastSync w) (github_last_sync w) (notifications w)
    (status_line w) (clock w) (kanbanBoard w) (userManager w)
    (saved_tasks w) (saved_users w).

Definition set_syncStatus (s : string) (w : World) : World :=
  mkWorld (remote w) (requests w) (accessToken w) (selectedRepo w)
    s (lastSync w) (github_last_sync w) (notifications w)
    (status_line w) (clock w) (kanbanBoard w) (userManager w)
    (saved_tasks w) (saved_users w).

Definition set_lastSync (s : string) (w : World) : World :=
  mkWorld (remote w) (requests w) (accessToken w) (selectedRepo w)
    (syncStatus w) (Some s) (github_last_sync w) (notifications w)
    (status_line w) (clock w) (kanbanBoard w) (userManager w)
    (saved_tasks w) (saved_users w).

Definition set_github_last_sync (s : option string) (w : World) : World :=
  mkWorld (remote w) (requests w) (accessToken w) (selectedRepo w)
    (syncStatus w) (lastSync w) s (notifications w)
    (status_line w) (clock w) (kanbanBoard w) (userManager w)
    (saved_tasks w) (saved_users w).

Definition add_notification (n : string * string) (w : World) : World :=
  mkWorld (remote w) (requests w) (accessToken w) (selectedRepo w)
    (syncStatus w) (lastSync w) (github_last_sync w) (notifications w ++ [n])
    (status_line w) (clock w) (kanbanBoard w) (userManager w)
    (saved_tasks w) (saved_users w).

Definition add_status_line (n : string * string) (w : World) : World :=
  mkWorld (remote w) (requests w) (accessToken w) (selectedRepo w)
    (syncStatus w) (lastSync w) (github_last_sync w) (notifications w)
    (status_line w ++ [n]) (clock w) (kanbanBoard w) (userManager w)
    (saved_tasks w) (saved_users w).

Definition tick (w : World) : World :=
  mkWorld (remote w) (requests w) (accessToken w) (selectedRepo w)
    (syncStatus w) (lastSync w) (github_last_sync w) (notifications w)
    (status_line w) (S (clock w)) (kanbanBoard w) (userManager w)
    (saved_tasks w) (saved_users w).

Definition set_kanbanBoard (b : option KanbanBoard.t) (w : World) : World :=
  mkWorld (remote w) (requests w) (accessToken w) (selectedRepo w)
    (syncStatus w) (lastSync w) (github_last_sync w) (notifications w)
    (status_line w) (clock w) b (userManager w)
    (saved_tasks w) (saved_users w).

Definition set_userManager (u : option UserManager.t) (w : World) : World :=
  mkWorld (remote w) (requests w) (accessToken w) (selectedRepo w)
    (syncStatus w) (lastSync w) (github_last_sync w) (notifications w)
    (status_line w) (clock w) (kanbanBoard w) u
    (saved_tasks w) (saved_users w).

Definition set_saved_tasks (s : option (list Task.t * Z)) (w : World) : World :=
  mkWorld (remote w) (requests w) (accessToken w) (selectedRepo w)
    (syncStatus w) (lastSync w) (github_last_sync w) (notifications w)
    (status_line w) (clock w) (kanbanBoard w) (userManager w)
    s (saved_users w).

Definition set_saved_users (s : option (list User.t * Z)) (w : World) : World :=
  mkWorld (remote w) (requests w) (accessToken w) (selectedRepo w)
    (syncStatus w) (lastSync w) (github_last_sync w) (notifications w)
    (status_line w) (clock w) (kanbanBoard w) (userManager w)
    (saved_tasks w) s.

End State.

Arguments World R : clear implicits.
Arguments M R A : clear implicits.

Notation "'let*' x ':=' m 'in' k" := (bind m (fun x => k))
  (at level 10, x name, m at level 100, k at level 200).

Notation "m ';;' k" := (bind m (fun _ => k))
  (at level 100, k at level 200, right associativity).

Section Page.

(** The remote service: a state of its own, and for each request the
    response and the state after it.  Everything below holds for any
    such service, unless a theorem fixes one. *)
Context {R : Type} (server : forall T, R -> request T -> R * response T).

(** [new Date().toISOString()] at the [n]-th reading of the clock. *)
Context (toISOString : nat -> string).

(** The answer of the user to a [confirm] dialog with the given text. *)
Context (confirm : string -> bool).

(** [new Date().toISOString()] *)
Definition now : M R string :=
  fun w => (tick w, Return (toISOString (clock w))).

(** ** [GitHubAPI] *)

(** [!!this.accessToken]: [null] and the empty string are no token. *)
Definition has_token (w : World R) : bool :=
  match accessToken w with
  | Some t => negb (String.eqb t "")
  | None => false
  end.

(** [isAuthenticated()] *)
Definition isAuthenticated : M R bool := read has_token.

(** What [request] throws for a response that is not ok.  [error] is
    the JSON of the body, or [{}] when the body is not JSON;
    [error.message] throws for a body that is [null], and otherwise
    [new Error(error.message || `GitHub API error: ${response.status}`)]
    is thrown, whose message is the argument as a string. *)
Definition failure (status : Z) (body : option value) : exn :=
  let error := default (VObj []) body in
  match get error "message" with
  | Return message =>
      Error (toString
               (or_else message
                  (VStr (cat "GitHub API error: " (string_of_Z status)))))
  | Throw e => e
  end.

(** [request(endpoint, options)]: the guard, then [fetch]; the headers
    (the bearer token among them) are not part of the model. *)
Definition send {T} (req : request T) : M R T :=
  let* authenticated := isAuthenticated in
  if negb authenticated then throw (Error "Not authenticated with GitHub")
  else
    fun w =>
      let '(r, resp) := server T (remote w) req in
      let w' := set_remote_log r (Sent T req (outcome_of resp)) w in
      match resp with
      | Ok json => (w', Return json)
      | Failed status body => (w', Throw (failure status body))
      | Rejected e => (w', Throw e)
      end.

(** [getRepoIssues(owner, repo, state)]: pull requests are filtered out. *)
Definition getRepoIssues (owner repo state : string) : M R (list Issue.t) :=
  let* issues := send (GET_issues owner repo state 100) in
  ret (filter (fun issue => negb (Issue.pull_request issue)) issues).

Definition getRepoLabels (owner repo : string) : M R (list Label.t) :=
  send (GET_labels owner repo 100).

Definition createLabel (owner repo name color : string) : M R Label.t :=
  send (POST_label owner repo name color).

Definition createIssue (owner repo title body : string)
    (labels assignees : list string) : M R Issue.t :=
  send (POST_issue owner repo title body labels assignees).

Definition updateIssue (owner repo : string) (issueNumber : Z)
    (updates : Updates.t) : M R Issue.t :=
  send (PATCH_issue owner repo issueNumber updates).

(** ** [UserManager.getUser] *)

(** [typeof id === 'string' ? parseInt(id) : id] *)
Definition id_number (id : ref) : number :=
  match id with
  | RefStr s => parseInt s
  | RefNum n => Int n
  end.

(** [id == n] for a number [n]: a string is compared by the number it
    converts to. *)
Definition loosely_equal (id : ref) (n : number) : bool :=
  match id with
  | RefStr s => number_eqb (ToNumber s) n
  | RefNum m => number_eqb (Int m) n
  end.

(** [id === id'] *)
Definition strictly_equal (id id' : ref) : bool :=
  match id, id' with
  | RefStr s, RefStr s' => String.eqb s s'
  | RefNum n, RefNum n' => (n =? n')%Z
  | _, _ => false
  end.

(** [getUser(id)]: [this.users.find(u => u.id == idNum)] *)
Definition getUser (users : list User.t) (id : ref) : option User.t :=
  let idNum := id_number id in
  find (fun u => loosely_equal (User.id u) idNum) users.

(** ** [GitHubBoards] *)

Definition isConnected : M R bool := isAuthenticated.

Definition showNotification (message type : string) : M R unit :=
  update (add_notification (message, type)).

Definition ref_truthy (a : ref) : bool :=
  match a with
  | RefStr s => negb (String.eqb s "")
  | RefNum n => negb (n =? 0)%Z
  end.

(** [/^\d+$/] *)
Definition all_digits (s : string) : bool :=
  negb (String.eqb s "") && Str.all Str.is_digit s.

(** [typeof assigneeId === 'string' && !assigneeId.match(/^\d+$/)] *)
Definition as_username (assigneeId : ref) : option string :=
  match assigneeId with
  | RefStr s => if all_digits s then None else Some s
  | RefNum _ => None
  end.

(** [user && user.githubUsername], [None] when falsy. *)
Definition githubUsername_of (user : option User.t) : option string :=
  match user with
  | Some u =>
      match User.githubUsername u with
      | Some login => if String.eqb login "" then None else Some login
      | None => None
      end
  | None => None
  end.

(** [getAssigneeLogin(assigneeId)]; [None] is [null]. *)
Definition getAssigneeLogin (assigneeId : ref) : M R (option string) :=
  if negb (ref_truthy assigneeId) then ret None
  else
    match as_username assigneeId with
    | Some login => ret (Some login)
    | None =>
        let* manager := read userManager in
        match manager with
        | Some um =>
            match githubUsername_of (getUser (UserManager.users um) assigneeId) with
            | Some login => ret (Some login)
            | None => ret None
            end
        | None => ret None
        end
    end.

(** [[x].filter(Boolean)] and the like on strings that may be
    [undefined] or [null]: the truthy ones. *)
Definition truthy_strings (l : list (option string)) : list string :=
  omap (fun x => match x with
                 | Some s => if String.eqb s "" then None else Some s
                 | None => None
                 end) l.

(** [colors[status] || 'ffffff'], with [colors] the configured
    [githubConfig.labelColors]. *)
Definition label_color (status : string) : string :=
  match find (fun kv => String.eqb (fst kv) status) githubConfig_labelColors with
  | Some (_, c) => if String.eqb c "" then "ffffff" else c
  | None => "ffffff"
  end.

Definition statusLabels : list string :=
  ["backlog"; "to do"; "in progress"; "done"].

(** [labelMap]: lower-cased name to label. *)
Definition labelMap_of (labels : list Label.t) : gmap string Label.t :=
  fold_left (fun m label => <[Str.toLowerCase (Label.name label) := label]> m)
    labels ∅.

(** [newLabelMap]: lower-cased name to name. *)
Definition newLabelMap_of (labels : list Label.t) : gmap string string :=
  fold_left (fun m label => <[Str.toLowerCase (Label.name label) := Label.name label]> m)
    labels ∅.

Record PushResult := mkPushResult { push_success : bool; taskCount : nat }.

Record PullResult := mkPullResult {
  pull_success : bool;
  pulled_tasks : list Task.t;
  pulled_nextTaskId : Z
}.

(** [kanbanBoard.tasks], for the board handed to [pushBoard]. *)
Definition board_tasks : M R (list Task.t) :=
  let* board := read kanbanBoard in
  match board with
  | Some b => ret (KanbanBoard.tasks b)
  | None => throw (TypeError "Cannot read properties of undefined (reading 'tasks')")
  end.

(** [[newLabelMap[statusLabel]].filter(Boolean)].  A member of
    [Object.prototype] used as the key is converted to a string, which
    has a capital letter in it ([function Object() ...], [[object
    Object]]) and so is no key of [newLabelMap], whose keys are in lower
    case. *)
Definition status_labels (newLabelMap : gmap string string)
    (statusLabel : option string) : list string :=
  match statusLabel with
  | Some name => truthy_strings [newLabelMap !! name]
  | None => []
  end.

(** The body of the loop [for (const task of kanbanBoard.tasks)]. *)
Definition pushTask (repo : Repo.t) (existingIssues : list Issue.t)
    (newLabelMap : gmap string string) (task : Task.t) : M R unit :=
  let statusLabel := GitHubBoards.getStatusLabel (Task.status task) in
  let existingIssue :=
    find (fun i => String.eqb (Issue.title i) (Task.title task)) existingIssues in
  match existingIssue with
  | Some issue =>
      let body := GitHubBoards.formatTaskBody task in
      let labels := status_labels newLabelMap statusLabel in
      let* assignees :=
        if ref_truthy (Task.assignee task) then
          let* user := getAssigneeLogin (Task.assignee task) in
          match truthy_strings [user] with
          | [] => ret None
          | users => ret (Some users)
          end
        else ret None in
      updateIssue (Repo.owner_login repo) (Repo.name repo) (Issue.number issue)
        (Updates.make body labels assignees) ;;
      ret tt
  | None =>
      let labels := status_labels newLabelMap statusLabel in
      let body := GitHubBoards.formatTaskBody task in
      let* assignees :=
        if ref_truthy (Task.assignee task) then
          let* login := getAssigneeLogin (Task.assignee task) in
          ret (truthy_strings [login])
        else ret [] in
      createIssue (Repo.owner_login repo) (Repo.name repo) (Task.title task)
        body labels assignees ;;
      ret tt
  end.

(** The [try] block of [pushBoard]. *)
Definition pushBoard_try (repo : Repo.t) : M R PushResult :=
  let owner := Repo.owner_login repo in
  let name := Repo.name repo in
  let* existingIssues := getRepoIssues owner name "all" in
  let* existingLabels := getRepoLabels owner name in
  let labelMap := labelMap_of existingLabels in
  for_of statusLabels (fun status =>
    match labelMap !! status with
    | None => createLabel owner name status (label_color status) ;; ret tt
    | Some _ => ret tt
    end) ;;
  let* updatedLabels := getRepoLabels owner name in
  let newLabelMap := newLabelMap_of updatedLabels in
  let* tasks := board_tasks in
  for_of tasks (pushTask repo existingIssues newLabelMap) ;;
  update (set_syncStatus "success") ;;
  let* stamp := now in
  update (set_lastSync stamp) ;;
  update (set_github_last_sync (Some stamp)) ;;
  let* tasks := board_tasks in
  showNotification
    (cat "Pushed " (cat (string_of_Z (Z.of_nat (length tasks))) " tasks to GitHub"))
    "success" ;;
  ret (mkPushResult true (length tasks)).

(** [pushBoard(kanbanBoard)], called with [window.kanbanBoard]. *)
Definition pushBoard : M R PushResult :=
  let* connected := isConnected in
  if negb connected then throw (Error "Not connected to GitHub")
  else
    let* repo := read selectedRepo in
    match repo with
    | None => throw (Error "No repository selected")
    | Some repo =>
        update (set_syncStatus "syncing") ;;
        try_catch (pushBoard_try repo)
          (fun error =>
             update (set_syncStatus "error") ;;
             showNotification (cat "Push failed: " (exn_message error)) "error" ;;
             throw error)
    end.

(** The object literal that [pullBoard] pushes for an issue. *)
Definition task_of_issue (issue : Issue.t) (id : Z) : completion Task.t :=
  let status := GitHubBoards.getKanbanStatus (Issue.labels issue) in
  let assignee :=
    match Issue.assignees issue with
    | a :: _ => Account.login a
    | [] => ""
    end in
  let? taskData := GitHubBoards.parseTaskBody (Issue.body issue) in
  let? description := get taskData "description" in
  let? priority := get taskData "priority" in
  let? dueDate := get taskData "dueDate" in
  let? comments := get taskData "comments" in
  let? attachments := get taskData "attachments" in
  Return
    (Task.make id (Issue.title issue)
       (or_else description (VStr ""))
       status
       (or_else priority (VStr "medium"))
       (RefStr assignee)
       (or_else dueDate (VStr ""))
       (or_else comments (VArr []))
       (or_else attachments (VArr []))
       (Issue.created_at issue)
       (Issue.updated_at issue)
       (Some (Issue.number issue))
       (Some (Issue.html_url issue))).

(** The loop of [pullBoard], with its two local variables. *)
Fixpoint pull_loop (issues : list Issue.t) (tasks : list Task.t)
    (nextTaskId : Z) : completion (list Task.t * Z) :=
  match issues with
  | [] => Return (tasks, nextTaskId)
  | issue :: issues' =>
      let? task := task_of_issue issue nextTaskId in
      pull_loop issues' (tasks ++ [task]) (increment nextTaskId)
  end.

(** The [try] block of [pullBoard]. *)
Definition pullBoard_try (repo : Repo.t) : M R PullResult :=
  let* issues := getRepoIssues (Repo.owner_login repo) (Repo.name repo) "all" in
  let* mapped := lift (pull_loop issues [] 1%Z) in
  let '(tasks, nextTaskId) := mapped in
  update (set_syncStatus "success") ;;
  let* stamp := now in
  update (set_lastSync stamp) ;;
  update (set_github_last_sync (Some stamp)) ;;
  showNotification
    (cat "Pulled " (cat (string_of_Z (Z.of_nat (length tasks))) " tasks from GitHub"))
    "success" ;;
  ret (mkPullResult true tasks nextTaskId).

(** [pullBoard()] *)
Definition pullBoard : M R PullResult :=
  let* connected := isConnected in
  if negb connected then throw (Error "Not connected to GitHub")
  else
    let* repo := read selectedRepo in
    match repo with
    | None => throw (Error "No repository selected")
    | Some repo =>
        update (set_syncStatus "syncing") ;;
        try_catch (pullBoard_try repo)
          (fun error =>
             update (set_syncStatus "error") ;;
             showNotification (cat "Pull failed: " (exn_message error)) "error" ;;
             throw error)
    end.

(** [syncBoard(kanbanBoard)] *)
Definition syncBoard : M R PullResult :=
  pushBoard ;;
  let* result := pullBoard in
  ret result.

(** ** [KanbanBoard] *)

(** [saveTasks()]; the stored text is kept as the values it encodes. *)
Definition saveTasks : M R unit :=
  let* board := read kanbanBoard in
  match board with
  | Some b =>
      update (set_saved_tasks (Some (KanbanBoard.tasks b, KanbanBoard.nextTaskId b)))
  | None => throw (TypeError "Cannot read properties of undefined (reading 'saveTasks')")
  end.

(** [renderBoard()] only writes to the document, which is not part of
    the state. *)
Definition renderBoard : M R unit := ret tt.

(** [Object.assign(task, updates, { updatedAt })] on the first task
    [t] with [t.id === id], in place. *)
Fixpoint assign_first (id : Z) (f : Task.t -> Task.t) (tasks : list Task.t)
    : list Task.t :=
  match tasks with
  | [] => []
  | t :: tasks' =>
      if (Task.id t =? id)%Z then f t :: tasks'
      else t :: assign_first id f tasks'
  end.

Definition set_updatedAt (stamp : string) (t : Task.t) : Task.t :=
  Task.make (Task.id t) (Task.title t) (Task.description t) (Task.status t)
    (Task.priority t) (Task.assignee t) (Task.dueDate t) (Task.comments t)
    (Task.attachments t) (Task.createdAt t) stamp
    (Task.githubIssueNumber t) (Task.githubUrl t).

(** The [updates] object [{ assignee: a }]. *)
Definition set_assignee (a : ref) (t : Task.t) : Task.t :=
  Task.make (Task.id t) (Task.title t) (Task.description t) (Task.status t)
    (Task.priority t) a (Task.dueDate t) (Task.comments t)
    (Task.attachments t) (Task.createdAt t) (Task.updatedAt t)
    (Task.githubIssueNumber t) (Task.githubUrl t).

(** [updateTask(id, updates)], [updates] given by the fields it
    assigns. *)
Definition updateTask (id : Z) (updates : Task.t -> Task.t) : M R unit :=
  let* board := read kanbanBoard in
  match board with
  | Some b =>
      match find (fun t => (Task.id t =? id)%Z) (KanbanBoard.tasks b) with
      | Some _ =>
          let* stamp := now in
          update (set_kanbanBoard
                    (Some (KanbanBoard.make
                             (assign_first id (fun t => set_updatedAt stamp (updates t))
                                (KanbanBoard.tasks b))
                             (KanbanBoard.nextTaskId b)))) ;;
          saveTasks ;;
          renderBoard
      | None => ret tt
      end
  | None => throw (TypeError "Cannot read properties of undefined (reading 'updateTask')")
  end.

(** ** [GitHubBoardsUI]: the click handler of the pull button *)

Definition showStatus (message type : string) : M R unit :=
  update (add_status_line (message, type)).

(** [updateSyncStatus()] only writes to the document. *)
Definition updateSyncStatus : M R unit := ret tt.

Definition pull_click : M R unit :=
  try_catch
    (let* result := pullBoard in
     let* board := read kanbanBoard in
     match pull_success result, board with
     | true, Some _ =>
         update (set_kanbanBoard
                   (Some (KanbanBoard.make (pulled_tasks result)
                            (pulled_nextTaskId result)))) ;;
         saveTasks ;;
         renderBoard
     | _, _ => ret tt
     end ;;
     updateSyncStatus)
    (fun error => showStatus (cat "Pull failed: " (exn_message error)) "error").

(** ** [UserManager] *)

(** [saveUsers()] *)
Definition saveUsers : M R unit :=
  let* manager := read userManager in
  match manager with
  | Some um =>
      update (set_saved_users (Some (UserManager.users um, UserManager.nextUserId um)))
  | None => throw (TypeError "Cannot read properties of undefined (reading 'saveUsers')")
  end.

(** [taskAssigneeNum === userIdNum]; NaN is equal to nothing. *)
Definition same_number (a b : number) : bool := number_eqb a b.

(** [getUserAssignedTasks(userId)] *)
Definition getUserAssignedTasks (userId : ref) : M R (list Task.t) :=
  let* board := read kanbanBoard in
  match board with
  | None => ret []
  | Some b =>
      let userIdNum := id_number userId in
      ret (filter (fun task => same_number (id_number (Task.assignee task)) userIdNum)
             (KanbanBoard.tasks b))
  end.

(** The text of the dialog that [deleteUser] opens. *)
Definition deletion_prompt (n : nat) : string :=
  cat "This user is assigned to "
    (cat (string_of_Z (Z.of_nat n))
       " task(s). Remove assignment and delete user?").

(** [deleteUser(id)], a method of [window.userManager]. *)
Definition deleteUser (id : ref) : M R bool :=
  let* assignedTasks := getUserAssignedTasks id in
  let* goes_on :=
    if (0 <? length assignedTasks)%nat then
      if negb (confirm (deletion_prompt (length assignedTasks)))
      then ret false
      else
        for_of assignedTasks (fun task =>
          let* board := read kanbanBoard in
          match board with
          | Some _ => updateTask (Task.id task) (set_assignee (RefStr ""))
          | None => ret tt
          end) ;;
        ret true
    else ret true in
  if negb goes_on then ret false
  else
    let* manager := read userManager in
    match manager with
    | Some um =>
        update (set_userManager
                  (Some (UserManager.make
                           (filter (fun u => negb (strictly_equal (User.id u) id))
                              (UserManager.users um))
                           (UserManager.nextUserId um)))) ;;
        saveUsers ;;
        ret true
    | None => throw (TypeError "Cannot read properties of undefined (reading 'users')")
    end.

End Page.

(* ===================================================================== *)
(** * A remote issue tracker *)
(* ===================================================================== *)

(** Modelled from the spec: the remote issue-tracking service is a
    collaborator and no code of it is in the repository.  This is the
    service of section 6 of the specification reduced to one repository:
    it keeps the issues and the labels, lists all of them on [GET],
    appends on [POST] and rewrites body, labels and assignees on [PATCH].
    It refuses a label whose name exists already (compared without case)
    and a [PATCH] of an issue number it does not have.  A listing is one
    page of at most [per_page] entries, as the requests of the adapter
    ask for one page only: of the issues those created last, the last
    one first, and of the labels those created first. *)
Module Tracker.

Record t := make {
  issues : list Issue.t;
  labels : list Label.t;
  next_number : Z
}.

Definition has_label (name : string) (s : t) : bool :=
  existsb (fun l => String.eqb (Str.toLowerCase (Label.name l)) (Str.toLowerCase name))
    (labels s).

(** The label objects an issue shows for the given names. *)
Definition label_objects (s : t) (names : list string) : list Label.t :=
  map (fun n =>
         match find (fun l => String.eqb (Label.name l) n) (labels s) with
         | Some l => l
         | None => Label.make n "ededed"
         end) names.

Definition patch (s : t) (u : Updates.t) (i : Issue.t) : Issue.t :=
  Issue.make (Issue.number i) (Issue.title i) (Some (Updates.body u))
    (label_objects s (Updates.labels u))
    (match Updates.assignees u with
     | Some logins => map Account.make logins
     | None => Issue.assignees i
     end)
    (Issue.pull_request i) (Issue.created_at i) (Issue.updated_at i)
    (Issue.html_url i).

Fixpoint patch_first (number : Z) (f : Issue.t -> Issue.t) (l : list Issue.t)
    : list Issue.t :=
  match l with
  | [] => []
  | i :: l' =>
      if (Issue.number i =? number)%Z then f i :: l'
      else i :: patch_first number f l'
  end.

(** The body of a refusal. *)
Definition refusal (message : string) : value :=
  VObj [("message", VStr message)].

Definition handle (T : Type) (s : t) (req : request T) : t * response T :=
  match req in request T return t * response T with
  | GET_issues _ _ _ per_page => (s, Ok (take per_page (reverse (issues s))))
  | GET_labels _ _ per_page => (s, Ok (take per_page (labels s)))
  | POST_label _ _ name color =>
      if has_label name s then (s, Failed 422 (Some (refusal "Validation Failed")))
      else
        let l := Label.make name color in
        (make (issues s) (labels s ++ [l]) (next_number s), Ok l)
  | POST_issue _ _ title body names logins =>
      let i := Issue.make (next_number s) title (Some body)
                 (label_objects s names) (map Account.make logins)
                 false "" "" "" in
      (make (issues s ++ [i]) (labels s) (next_number s + 1)%Z, Ok i)
  | PATCH_issue _ _ number u =>
      match find (fun i => (Issue.number i =? number)%Z) (issues s) with
      | Some i =>
          (make (patch_first number (patch s u) (issues s)) (labels s)
             (next_number s),
           Ok (patch s u i))
      | None => (s, Failed 404 (Some (refusal "Not Found")))
      end
  end.

End Tracker.
(* ===================================================================== *)
(** * The rest of the board, the roles, and the buttons of the sync dialog *)
(* ===================================================================== *)

(** The object [data] handed to [createTask]: the values of the task
    form, a row of a sheet, or the fields of the inline creator.  A field
    that is absent is [undefined]; for [status] and [assignee], which are
    typed here, the empty string stands for it (an absent field and the
    empty string both give the default). *)
Module NewTask.
Record t := make {
  title : string;
  description : value;
  assignee : ref;
  priority : value;
  status : string;
  dueDate : value;
  attachments : value;
  comments : value
}.
End NewTask.

(** [this.roles] of the user manager and the [localStorage] item
    [kanban-roles], kept as the list it encodes. *)
Module Roles.
Record t := make { roles : list string; saved : option (list string) }.
End Roles.

(** An entry of [currentAttachments]. *)
Module Attachment.
Record t := make { type : string; url : string; name : string }.
End Attachment.

(** ** [js/kanban.js]: functions on strings and on the attachments *)

(** [s.split(sep)] for a separator of one character. *)
Fixpoint split_char (sep : ascii) (s : string) : list string :=
  match s with
  | EmptyString => [EmptyString]
  | String c s' =>
      if Ascii.eqb c sep then EmptyString :: split_char sep s'
      else
        match split_char sep s' with
        | piece :: pieces => String c piece :: pieces
        | [] => [String c EmptyString]
        end
  end.

(** [url.split('/').pop().split('?')[0] || 'Untitled'] *)
Definition attachment_name (url : string) : string :=
  let file := List.last (split_char "/" url) EmptyString in
  let name := List.hd EmptyString (split_char "?" file) in
  if String.eqb name "" then "Untitled" else name.

(** [addAttachment(type, url)], on [this.currentAttachments]. *)
Definition addAttachment (type url : string) (attachments : list Attachment.t)
    : list Attachment.t :=
  let attType := if String.eqb type "doc" then "document" else type in
  attachments ++ [Attachment.make attType url (attachment_name url)].

(** [removeAttachment(index)]: [attachments.splice(index, 1)], for the
    indices that [renderAttachmentsList] writes on the buttons, which are
    not negative. *)
Definition removeAttachment (index : nat) (attachments : list Attachment.t)
    : list Attachment.t :=
  take index attachments ++ drop (S index) attachments.

Definition videoExtensions : list string :=
  [".mp4"; ".webm"; ".ogg"; ".mov"; ".avi"; ".mkv"].

(** [isVideoUrl(url)] *)
Definition isVideoUrl (url : string) : bool :=
  existsb (fun ext => Str.contains ext (Str.toLowerCase url)) videoExtensions
  || Str.contains "youtube.com" url
  || Str.contains "youtu.be" url
  || Str.contains "vimeo.com" url.

(** [user.name || user.email || 'Unnamed User'] *)
Definition display_name (u : User.t) : string :=
  if negb (String.eqb (User.name u) "") then User.name u
  else if negb (String.eqb (User.email u) "") then User.email u
  else "Unnamed User".

(** [getUserName(userId)], given [window.userManager]. *)
Definition getUserName (manager : option UserManager.t) (userId : ref) : string :=
  if negb (ref_truthy userId) then "Unassigned"
  else
    let userIdNum := id_number userId in
    let user :=
      match manager with
      | Some um =>
          find (fun u => loosely_equal (User.id u) userIdNum) (UserManager.users um)
      | None => None
      end in
    match user with
    | Some u => display_name u
    | None =>
        if negb (isNaN userIdNum) then cat "User " (number_toString userIdNum)
        else "Unassigned"
    end.

Section Board.

Context {R : Type} (server : forall T, R -> request T -> R * response T).
Context (toISOString : nat -> string).
Context (confirm : string -> bool).

(** ** [KanbanBoard] *)

(** The object literal of [createTask]; [userId] and [backgroundColor],
    which the object also gets, are not among the fields that [Task.t]
    keeps, and what [createTask] creates has no [githubIssueNumber] and
    no [githubUrl]. *)
Definition new_task (id : Z) (data : NewTask.t) (createdAt updatedAt : string)
    : Task.t :=
  Task.make id (NewTask.title data)
    (or_else (NewTask.description data) (VStr ""))
    (if String.eqb (NewTask.status data) "" then "backlog" else NewTask.status data)
    (or_else (NewTask.priority data) (VStr "medium"))
    (if ref_truthy (NewTask.assignee data) then NewTask.assignee data else RefStr "")
    (or_else (NewTask.dueDate data) (VStr ""))
    (or_else (NewTask.comments data) (VArr []))
    (or_else (NewTask.attachments data) (VArr []))
    createdAt updatedAt None None.

(** [createTask(data)] *)
Definition createTask (data : NewTask.t) : M R Task.t :=
  let* board := read kanbanBoard in
  match board with
  | Some b =>
      let id := KanbanBoard.nextTaskId b in
      let* createdAt := now toISOString in
      let* updatedAt := now toISOString in
      let task := new_task id data createdAt updatedAt in
      update (set_kanbanBoard
                (Some (KanbanBoard.make (KanbanBoard.tasks b ++ [task]) (increment id)))) ;;
      saveTasks ;;
      ret task
  | None => throw (TypeError "Cannot read properties of undefined (reading 'createTask')")
  end.

(** [deleteTask(id)] *)
Definition deleteTask (id : Z) : M R unit :=
  let* board := read kanbanBoard in
  match board with
  | Some b =>
      update (set_kanbanBoard
                (Some (KanbanBoard.make
                         (filter (fun t => negb (Task.id t =? id)%Z) (KanbanBoard.tasks b))
                         (KanbanBoard.nextTaskId b)))) ;;
      saveTasks ;;
      renderBoard
  | None => throw (TypeError "Cannot read properties of undefined (reading 'deleteTask')")
  end.

(** The [updates] object [{ status: s }]. *)
Definition set_status (s : string) (t : Task.t) : Task.t :=
  Task.make (Task.id t) (Task.title t) (Task.description t) s
    (Task.priority t) (Task.assignee t) (Task.dueDate t) (Task.comments t)
    (Task.attachments t) (Task.createdAt t) (Task.updatedAt t)
    (Task.githubIssueNumber t) (Task.githubUrl t).

(** [moveTask(taskId, newStatus)] *)
Definition moveTask (taskId : Z) (newStatus : string) : M R unit :=
  updateTask toISOString taskId (set_status newStatus).

(** The text of the dialog that [deleteTaskWithConfirmation] opens. *)
Definition delete_task_prompt (title : string) : string :=
  cat "Are you sure you want to delete "
    (String dquote (cat title (String dquote "?"))).

(** [deleteTaskWithConfirmation(taskId)] *)
Definition deleteTaskWithConfirmation (taskId : Z) : M R unit :=
  let* board := read kanbanBoard in
  match board with
  | Some b =>
      match find (fun t => (Task.id t =? taskId)%Z) (KanbanBoard.tasks b) with
      | Some task =>
          if confirm (delete_task_prompt (Task.title task)) then deleteTask taskId
          else ret tt
      | None => ret tt
      end
  | None =>
      throw (TypeError "Cannot read properties of undefined (reading 'deleteTaskWithConfirmation')")
  end.

(** [importFromSheets(tasks)] *)
Definition importFromSheets (tasks : list NewTask.t) : M R unit :=
  for_of tasks (fun taskData => createTask taskData ;; ret tt) ;;
  renderBoard ;;
  showNotification
    (cat "Imported "
       (cat (string_of_Z (Z.of_nat (length tasks))) " tasks from Google Sheets"))
    "success".

(** ** [UserManager]: tasks and roles *)

(** [assignTaskToUser(taskId, userId)] *)
Definition assignTaskToUser (taskId : Z) (userId : ref) : M R unit :=
  let* board := read kanbanBoard in
  match board with
  | Some _ => updateTask toISOString taskId (set_assignee userId)
  | None => ret tt
  end.

(** [unassignTask(taskId)] *)
Definition unassignTask (taskId : Z) : M R unit :=
  let* board := read kanbanBoard in
  match board with
  | Some _ => updateTask toISOString taskId (set_assignee (RefStr ""))
  | None => ret tt
  end.

(** [saveRoles()] *)
Definition saveRoles (s : Roles.t) : Roles.t :=
  Roles.make (Roles.roles s) (Some (Roles.roles s)).

(** [createRole(name)]: the roles after the call, and what it returns. *)
Definition createRole (name : string) (s : Roles.t) : M R (Roles.t * bool) :=
  if GitHubBoards.includes (Roles.roles s) name then
    showNotification "Role already exists" "error" ;;
    ret (s, false)
  else
    let s := Roles.make (Roles.roles s ++ [name]) (Roles.saved s) in
    let s := saveRoles s in
    showNotification "Role created successfully" "success" ;;
    ret (s, true).

(** [roles.indexOf(name)], [None] for -1. *)
Fixpoint indexOf (roles : list string) (name : string) : option nat :=
  match roles with
  | [] => None
  | r :: roles' =>
      if String.eqb r name then Some 0
      else
        match indexOf roles' name with
        | Some i => Some (S i)
        | None => None
        end
  end.

(** [updateRole(oldName, newName)] *)
Definition updateRole (oldName newName : string) (s : Roles.t)
    : M R (Roles.t * bool) :=
  match indexOf (Roles.roles s) oldName with
  | None =>
      showNotification "Role not found" "error" ;;
      ret (s, false)
  | Some index =>
      if GitHubBoards.includes (Roles.roles s) newName
         && negb (String.eqb newName oldName)
      then
        showNotification "Role name already exists" "error" ;;
        ret (s, false)
      else
        let s := Roles.make (<[index := newName]> (Roles.roles s)) (Roles.saved s) in
        let s := saveRoles s in
        showNotification "Role updated successfully" "success" ;;
        ret (s, true)
  end.

(** The text of the dialog that [deleteRole] opens. *)
Definition delete_role_prompt (n : nat) : string :=
  cat (string_of_Z (Z.of_nat n))
    " user(s) have this role. Are you sure you want to delete it? These users will need their roles reassigned.".

(** [user.role = newRole] *)
Definition set_role (role : string) (u : User.t) : User.t :=
  User.make (User.id u) (User.name u) (User.email u) role (User.githubUsername u).

(** [this.roles.find(r => r !== name) || ''] *)
Definition replacement_role (roles : list string) (name : string) : string :=
  match find (fun r => negb (String.eqb r name)) roles with
  | Some r => r
  | None => ""
  end.

(** [deleteRole(name)], a method of [window.userManager]. *)
Definition deleteRole (name : string) (s : Roles.t) : M R (Roles.t * bool) :=
  let* manager := read userManager in
  match manager with
  | Some um =>
      let usersWithRole :=
        filter (fun u => String.eqb (User.role u) name) (UserManager.users um) in
      let* goes_on :=
        if (0 <? length usersWithRole)%nat then
          if negb (confirm (delete_role_prompt (length usersWithRole)))
          then ret false
          else
            let newRole := replacement_role (Roles.roles s) name in
            update (set_userManager
                      (Some (UserManager.make
                               (map (fun u => if String.eqb (User.role u) name
                                              then set_role newRole u else u)
                                  (UserManager.users um))
                               (UserManager.nextUserId um)))) ;;
            saveUsers ;;
            ret true
        else ret true in
      if negb goes_on then ret (s, false)
      else
        let s :=
          Roles.make (filter (fun r => negb (String.eqb r name)) (Roles.roles s))
            (Roles.saved s) in
        let s := saveRoles s in
        showNotification "Role deleted successfully" "success" ;;
        ret (s, true)
  | None => throw (TypeError "Cannot read properties of undefined (reading 'users')")
  end.

(** ** [GitHubBoardsUI]: the click handlers of the push and sync buttons *)

Definition push_click : M R unit :=
  let* board := read kanbanBoard in
  match board with
  | Some _ =>
      try_catch
        (pushBoard server toISOString ;;
         updateSyncStatus)
        (fun error => showStatus (cat "Push failed: " (exn_message error)) "error")
  | None => ret tt
  end.

Definition sync_click : M R unit :=
  let* board := read kanbanBoard in
  match board with
  | Some _ =>
      try_catch
        (let* result := syncBoard server toISOString in
         let* board := read kanbanBoard in
         match pull_success result, board with
         | true, Some _ =>
             update (set_kanbanBoard
                       (Some (KanbanBoard.make (pulled_tasks result)
                                (pulled_nextTaskId result)))) ;;
             saveTasks ;;
             renderBoard
         | _, _ => ret tt
         end ;;
         updateSyncStatus)
        (fun error => showStatus (cat "Sync failed: " (exn_message error)) "error")
  | None => ret tt
  end.

End Board.

(* ===================================================================== *)
(** * Lemmas on strings and on the regular expressions *)
(* ===================================================================== *)

Section StringLemmas.

Import Str.

Lemma cat_app a b : cat a b = a +:+ b.
Proof. induction a as [|c a IH]; simpl; [done | by rewrite IH]. Qed.

Lemma cat_empty_r a : cat a "" = a.
Proof. induction a as [|c a IH]; simpl; [done | by rewrite IH]. Qed.

Lemma cat_assoc a b c : cat (cat a b) c = cat a (cat b c).
Proof. induction a as [|x a IH]; simpl; [done | by rewrite IH]. Qed.

Lemma length_cat a b : String.length (cat a b) = String.length a + String.length b.
Proof. induction a as [|x a IH]; simpl; [done | by rewrite IH]. Qed.

Lemma starts_with_cat p s : starts_with p (cat p s) = true.
Proof.
  induction p as [|c p IH]; simpl; [done |].
  by rewrite Ascii.eqb_refl, IH.
Qed.

Lemma drop_cat p s : drop (String.length p) (cat p s) = s.
Proof. induction p as [|c p IH]; simpl; [by destruct s | done]. Qed.

Lemma starts_with_spec p s : starts_with p s = true <-> exists r, s = cat p r.
Proof.
  revert s. induction p as [|c p IH]; intros s; simpl.
  - split; [intros _; by exists s | done].
  - destruct s as [|d s]; [split; [done | by intros (r & ?)] |].
    rewrite andb_true_iff, Ascii.eqb_eq, IH. split.
    + intros (-> & r & ->). by exists r.
    + intros (r & Heq). injection Heq as -> ->. eauto.
Qed.

(** A string that starts with [cat a b] starts with [a]. *)
Lemma starts_with_cat_l a b s :
  starts_with (cat a b) s = true -> starts_with a s = true.
Proof.
  rewrite !starts_with_spec. intros (r & ->). exists (cat b r).
  by rewrite cat_assoc.
Qed.

Lemma split_at_None p s :
  split_at p s = None ->
  starts_with p s = false
  /\ match s with String _ s' => split_at p s' = None | EmptyString => True end.
Proof.
  destruct s as [|c s]; simpl.
  - by destruct (starts_with p "").
  - destruct (starts_with p (String c s)); [done |].
    by destruct (split_at p s) as [[? ?]|].
Qed.

Lemma contains_false_tail p c s :
  contains p (String c s) = false -> contains p s = false.
Proof.
  unfold contains. destruct (split_at p (String c s)) eqn:E; [done |].
  apply split_at_None in E as [_ E]. by rewrite E.
Qed.

Lemma contains_false_head p s :
  contains p s = false -> starts_with p s = false.
Proof.
  unfold contains. destruct (split_at p s) eqn:E; [done |].
  by apply split_at_None in E as [E _].
Qed.

(** [split_at] cuts its argument at an occurrence of the pattern. *)
Lemma split_at_Some p s before after :
  split_at p s = Some (before, after) -> s = cat before (cat p after).
Proof.
  revert before. induction s as [|c s IH]; intros before; simpl.
  - destruct (starts_with p "") eqn:E; [| done].
    intros [= <- <-]. apply starts_with_spec in E as (r & E).
    rewrite E at 1. simpl. by rewrite E, drop_cat.
  - destruct (starts_with p (String c s)) eqn:E.
    + intros [= <- <-]. apply starts_with_spec in E as (r & E).
      rewrite E. simpl. by rewrite drop_cat.
    + destruct (split_at p s) as [[b a]|]; [| done].
      intros [= <- <-]. simpl. f_equal. by apply IH.
Qed.

(** [p] occurs in [s]. *)
Definition occurs (p s : string) : Prop :=
  exists before after, s = cat before (cat p after).

Lemma contains_true_occurs p s : contains p s = true -> occurs p s.
Proof.
  unfold contains. destruct (split_at p s) as [[b a]|] eqn:E; [| done].
  intros _. exists b, a. by apply split_at_Some.
Qed.

Lemma occurs_contains p s : occurs p s -> contains p s = true.
Proof.
  intros (before & after & ->). unfold contains.
  induction before as [|c before IH]; simpl.
  - destruct (cat p after) eqn:E; simpl; rewrite <- ?E, starts_with_cat; done.
  - destruct (starts_with p _); [done |].
    by destruct (split_at p (cat before (cat p after))) as [[? ?]|].
Qed.

Lemma contains_false_iff p s : contains p s = false <-> ~ occurs p s.
Proof.
  split.
  - intros H Ho. apply occurs_contains in Ho. congruence.
  - intros H. destruct (contains p s) eqn:E; [| done].
    by apply contains_true_occurs in E.
Qed.

(** A pattern that occurs nowhere in [s] is found at no position. *)
Lemma search_literal_None lit cls s :
  contains lit s = false -> search (literal_then_class lit cls) s = None.
Proof.
  induction s as [|c s IH]; intros H; simpl.
  - unfold literal_then_class. by rewrite (contains_false_head _ _ H).
  - unfold literal_then_class at 1. rewrite (contains_false_head _ _ H).
    apply IH. by eapply contains_false_tail.
Qed.

Lemma literal_then_class_nonempty lit cls s w :
  literal_then_class lit cls s = Some w -> w <> "".
Proof.
  unfold literal_then_class. destruct (starts_with lit s); [| done].
  destruct (take_while _ _); [done |]. by intros [= <-].
Qed.

Lemma search_literal_nonempty lit cls s w :
  search (literal_then_class lit cls) s = Some w -> w <> "".
Proof.
  induction s as [|c s IH]; simpl.
  - destruct (literal_then_class lit cls "") eqn:E; [| done].
    intros [= <-]. by eapply literal_then_class_nonempty.
  - destruct (literal_then_class lit cls (String c s)) eqn:E.
    + intros [= <-]. by eapply literal_then_class_nonempty.
    + apply IH.
Qed.

(** ** [trim] *)

Lemma rev_append_cat s acc : rev_append s acc = cat (rev s) acc.
Proof.
  unfold rev. revert acc. induction s as [|c s IH]; intros acc; simpl; [done |].
  rewrite IH, (IH (String c "")), cat_assoc. done.
Qed.

Lemma rev_cat a b : rev (cat a b) = cat (rev b) (rev a).
Proof.
  induction a as [|c a IH]; simpl.
  - by rewrite cat_empty_r.
  - unfold rev at 1 3. simpl. rewrite !rev_append_cat, IH, cat_assoc. done.
Qed.

Lemma rev_involutive s : rev (rev s) = s.
Proof.
  induction s as [|c s IH]; [done |].
  unfold rev at 2. simpl. rewrite rev_append_cat, rev_cat, IH. done.
Qed.

(** The first and the last character of a string. *)
Definition first_char (s : string) : option ascii :=
  match s with String c _ => Some c | EmptyString => None end.

Definition last_char (s : string) : option ascii := first_char (rev s).

(** [s] has no white space at either end. *)
Definition unpadded (s : string) : Prop :=
  (forall c, first_char s = Some c -> is_space c = false)
  /\ (forall c, last_char s = Some c -> is_space c = false).

Lemma drop_while_first f s :
  (forall c, first_char s = Some c -> f c = false) -> drop_while f s = s.
Proof.
  destruct s as [|c s]; simpl; [done |]. intros H. by rewrite (H c eq_refl).
Qed.

Lemma trim_unpadded s : unpadded s -> trim s = s.
Proof.
  intros [Hf Hl]. unfold trim.
  rewrite (drop_while_first _ s Hf), (drop_while_first _ (rev s) Hl).
  apply rev_involutive.
Qed.

(** ** A delimiter that ends a line, after text that does not hold it *)

Definition not_LF (c : ascii) : bool := negb (Ascii.eqb c LF).

Lemma all_cat f a b : all f (cat a b) = all f a && all f b.
Proof.
  induction a as [|c a IH]; simpl; [done |]. by rewrite IH, andb_assoc.
Qed.

Lemma all_impl (f g : ascii -> bool) s :
  (forall c, f c = true -> g c = true) -> all f s = true -> all g s = true.
Proof.
  intros Hfg. induction s as [|c s IH]; simpl; [done |].
  rewrite !andb_true_iff. intros [Hc Hs]. auto.
Qed.

Lemma split_at_head p s :
  starts_with p s = true -> split_at p s = Some ("", drop (String.length p) s).
Proof. destruct s; simpl; by intros ->. Qed.

Lemma split_at_skip p c s :
  starts_with p (String c s) = false ->
  split_at p (String c s)
  = match split_at p s with
    | Some (before, after) => Some (String c before, after)
    | None => None
    end.
Proof. simpl. by intros ->. Qed.

(** A delimiter [q] followed by a line feed, where [q] is on one line:
    if it does not start [x] followed by a line feed, it does not start
    that followed by anything. *)
Lemma starts_with_line q :
  all not_LF q = true ->
  forall x y,
    starts_with (cat q (String LF "")) (cat x (String LF "")) = false ->
    starts_with (cat q (String LF "")) (cat x (cat (String LF "") y)) = false.
Proof.
  intros Hq. induction q as [|d q IH]; intros x y.
  - destruct x as [|c x]; simpl; [done |]. by destruct (Ascii.eqb LF c).
  - simpl in Hq. apply andb_true_iff in Hq as [Hd Hq].
    destruct x as [|c x]; simpl.
    + intros _. unfold not_LF in Hd. apply negb_true_iff in Hd. by rewrite Hd.
    + destruct (Ascii.eqb d c); [| done]. simpl. by apply IH.
Qed.

(** The leftmost occurrence of such a delimiter in [v], two line feeds,
    the delimiter and [r] is the one that is written out, when [v]
    followed by a line feed does not hold it. *)
Lemma split_at_after_lines q v r :
  all not_LF q = true -> q <> "" ->
  contains (cat q (String LF "")) (cat v (String LF "")) = false ->
  split_at (cat q (String LF "")) (cat v (cat (String LF "") (cat (String LF "") (cat (cat q (String LF "")) r))))
  = Some (cat v (cat (String LF "") (String LF "")), r).
Proof.
  intros Hq Hne. induction v as [|c v IH]; intros Hv.
  - destruct q as [|d q]; [done |]. simpl in Hq.
    apply andb_true_iff in Hq as [Hd Hq]. unfold not_LF in Hd.
    apply negb_true_iff in Hd.
    assert (forall s,
              starts_with (cat (String d q) (String LF "")) (String LF s) = false)
      as Hno by (intros s; simpl; by rewrite Hd).
    change (cat "" ?s) with s.
    do 2 change (cat (String LF "") ?s) with (String LF s).
    rewrite !split_at_skip by apply Hno.
    by rewrite split_at_head, drop_cat; [| apply starts_with_cat].
  - pose proof (contains_false_head _ _ Hv) as Hhead.
    apply (starts_with_line q Hq (String c v)
             (cat (String LF "") (cat (cat q (String LF "")) r))) in Hhead.
    change (cat (String c v) ?s) with (String c (cat v s)) in Hhead |- *.
    rewrite (split_at_skip _ _ _ Hhead), IH; [done |].
    by apply (contains_false_tail _ c).
Qed.

(** The nearest occurrence of a delimiter that starts with a line feed,
    after text on one line. *)
Lemma split_at_one_line text p r :
  all not_LF text = true ->
  split_at (String LF p) (cat text (cat (String LF p) r)) = Some (text, r).
Proof.
  induction text as [|c text IH]; intros Htext.
  - change (cat "" ?s) with s.
    by rewrite split_at_head, drop_cat; [| apply starts_with_cat].
  - simpl in Htext. apply andb_true_iff in Htext as [Hc Htext].
    unfold not_LF in Hc. apply negb_true_iff in Hc.
    rewrite Ascii.eqb_sym in Hc.
    change (cat (String c text) ?s) with (String c (cat text s)).
    rewrite split_at_skip, IH; [done | done |]. cbn [starts_with]. by rewrite Hc.
Qed.

End StringLemmas.

(* ===================================================================== *)
(** * Properties of the pure functions *)
(* ===================================================================== *)

Section KanbanStatus.

Import GitHubBoards.

(** [labels] has a label whose name, in lower case, is [n]. *)
Definition has_label (labels : list Label.t) (n : string) : Prop :=
  Exists (fun l => Str.toLowerCase (Label.name l) = n) labels.

#[local] Instance has_label_dec labels n : Decision (has_label labels n).
Proof. unfold has_label. apply _. Defined.

Lemma includes_true l x : includes l x = true <-> x ∈ l.
Proof.
  unfold includes. rewrite existsb_exists. split.
  - intros (y & Hin & Heq). apply String.eqb_eq in Heq. subst.
    by apply list_elem_of_In.
  - intros Hin. exists x. split; [by apply list_elem_of_In | apply String.eqb_refl].
Qed.

Lemma includes_lower labels n :
  includes (map (fun l => Str.toLowerCase (Label.name l)) labels) n = true
  <-> has_label labels n.
Proof.
  rewrite includes_true. unfold has_label. rewrite Exists_exists. split.
  - intros Hin. apply list_elem_of_In, in_map_iff in Hin as (l & Heq & Hin).
    exists l. split; [by apply list_elem_of_In | done].
  - intros (l & Hin & Heq). apply list_elem_of_In, in_map_iff.
    exists l. split; [done | by apply list_elem_of_In].
Qed.

Lemma includes_lower_false labels n :
  includes (map (fun l => Str.toLowerCase (Label.name l)) labels) n = false
  <-> ~ has_label labels n.
Proof.
  rewrite <- includes_lower. destruct (includes _ _); split; congruence.
Qed.

(** C2. [getKanbanStatus] resolves a list of labels by the precedence
    done, in progress, to do, backlog, comparing the names without
    case: the status is done as soon as a label is named done, whatever
    else is there; in-progress when none is done and one is in
    progress; todo when neither and one is to do; and backlog
    otherwise, in particular when none of the four names occurs. *)
Theorem getKanbanStatus_precedence (labels : list Label.t) :
  (has_label labels "done" -> getKanbanStatus labels = "done")
  /\ (~ has_label labels "done" -> has_label labels "in progress" ->
      getKanbanStatus labels = "in-progress")
  /\ (~ has_label labels "done" -> ~ has_label labels "in progress" ->
      has_label labels "to do" -> getKanbanStatus labels = "todo")
  /\ (~ has_label labels "done" -> ~ has_label labels "in progress" ->
      ~ has_label labels "to do" -> getKanbanStatus labels = "backlog").
Proof.
  unfold getKanbanStatus. split; [| split; [| split]].
  - intros Hd. apply includes_lower in Hd. by rewrite Hd.
  - intros Hd Hp. apply includes_lower_false in Hd. apply includes_lower in Hp.
    by rewrite Hd, Hp.
  - intros Hd Hp Ht. apply includes_lower_false in Hd, Hp.
    apply includes_lower in Ht. by rewrite Hd, Hp, Ht.
  - intros Hd Hp Ht. apply includes_lower_false in Hd, Hp, Ht.
    by rewrite Hd, Hp, Ht.
Qed.

Lemma getKanbanStatus_precedence_witness :
  getKanbanStatus [Label.make "In Progress" "a371f7"; Label.make "DONE" "3fb950"]
    = "done"
  /\ getKanbanStatus [Label.make "To Do" "0e7a86"; Label.make "In progress" "a371f7"]
    = "in-progress"
  /\ getKanbanStatus [Label.make "bug" "ff0000"; Label.make "to do" "0e7a86"]
    = "todo"
  /\ getKanbanStatus [Label.make "bug" "ff0000"; Label.make "high-priority" "ff0000"]
    = "backlog".
Proof.
  split; [| split; [| split]].
  - apply (proj1 (getKanbanStatus_precedence _)).
    apply (bool_decide_unpack _). by vm_compute.
  - apply (proj1 (proj2 (getKanbanStatus_precedence _))).
    + apply (bool_decide_eq_false_1 _). by vm_compute.
    + apply (bool_decide_unpack _). by vm_compute.
  - apply (proj1 (proj2 (proj2 (getKanbanStatus_precedence _)))).
    + apply (bool_decide_eq_false_1 _). by vm_compute.
    + apply (bool_decide_eq_false_1 _). by vm_compute.
    + apply (bool_decide_unpack _). by vm_compute.
  - apply (proj2 (proj2 (proj2 (getKanbanStatus_precedence _)))).
    + apply (bool_decide_eq_false_1 _). by vm_compute.
    + apply (bool_decide_eq_false_1 _). by vm_compute.
    + apply (bool_decide_eq_false_1 _). by vm_compute.
Defined.

End KanbanStatus.

Section TaskBody.

Import GitHubBoards.

(** The literal [lit] occurs in [body] followed by a character of the
    class [cls]: what the pattern [lit([cls]+)] needs to match somewhere. *)
Definition occurs_before (lit : string) (cls : ascii -> bool) (body : string)
    : Prop :=
  exists before c after,
    body = cat before (cat lit (String c after)) /\ cls c = true.

Lemma search_None {A} (f : string -> option A) s :
  (forall before s', s = cat before s' -> f s' = None) -> Str.search f s = None.
Proof.
  induction s as [|c s IH]; intros H; simpl.
  - by rewrite (H "" "" eq_refl).
  - rewrite (H "" (String c s) eq_refl). apply IH.
    intros before s' ->. by apply (H (String c before) s').
Qed.

Lemma search_absent lit cls body :
  ~ occurs_before lit cls body ->
  Str.search (Str.literal_then_class lit cls) body = None.
Proof.
  intros Hno. apply search_None. intros before s' ->.
  unfold Str.literal_then_class.
  destruct (Str.starts_with lit s') eqn:E; [| done].
  apply starts_with_spec in E as (r & ->). rewrite drop_cat.
  destruct r as [|c r]; [done |]. simpl.
  destruct (cls c) eqn:Ec; [| done].
  exfalso. apply Hno. by exists before, c, r.
Qed.

Lemma search_found {A} (f : string -> option A) before s x :
  f s = Some x -> exists y, Str.search f (cat before s) = Some y.
Proof.
  intros Hf. induction before as [|c before IH]; simpl.
  - destruct s; simpl; rewrite Hf; eauto.
  - destruct (f (String c (cat before s))); eauto.
Qed.

(** The pattern is found exactly when the literal occurs before a
    character of the class. *)
Lemma search_None_iff lit cls body :
  Str.search (Str.literal_then_class lit cls) body = None
  <-> ~ occurs_before lit cls body.
Proof.
  split; [| apply search_absent].
  intros Hs (before & c & after & -> & Hc).
  destruct (search_found (Str.literal_then_class lit cls) before
              (cat lit (String c after)) (String c (Str.take_while cls after)))
    as (y & Hy); [| congruence].
  unfold Str.literal_then_class. rewrite starts_with_cat, drop_cat.
  simpl. by rewrite Hc.
Qed.

Lemma metadata_match_nonempty body text :
  metadata_match body = Some text -> String.eqb body "" = false.
Proof. destruct body; [by vm_compute | done]. Qed.

(** [parseTaskBody] returns: no input makes it throw. *)
Lemma parseTaskBody_returns (body : option string) :
  exists v, parseTaskBody body = Return v.
Proof.
  destruct body as [body|]; simpl; [| by eexists].
  destruct (String.eqb body ""); [by eexists |].
  unfold parseTaskBody_try.
  destruct (metadata_match body) as [text|]; simpl; [| by eexists].
  destruct (JSON_parse text); simpl; by eexists.
Qed.

(** A comment at the head of [s]: [<!--] and the text up to the nearest
    [-->], with it. *)
Definition comment_span (s : string) : option nat :=
  if Str.starts_with "<!--" s then
    match Str.split_at "-->" (Str.drop 4 s) with
    | Some (inner, _) => Some (4 + String.length inner + 3)
    | None => None
    end
  else None.

(** The body minus its markup, in the words of the specification: every
    comment and every bold span removed, and the white space at the
    ends. *)
Definition minus_markup (body : string) : string :=
  Str.trim (remove_all bold_span 0 (remove_all comment_span 0 body)).

(** The body has one comment: after its first comment no comment
    opens. *)
Definition one_comment (body : string) : Prop :=
  exists before inner after,
    Str.lazy_between "<!--" "-->" body = Some (before, inner, after)
    /\ Str.contains "<!--" after = false.

(** Without [**] there is no bold span to remove. *)
Lemma remove_all_bold_id s :
  Str.contains "**" s = false -> remove_all bold_span 0 s = s.
Proof.
  induction s as [|c s IH]; intros H; [done |].
  cbn [remove_all]. unfold bold_span.
  rewrite (contains_false_head _ _ H). f_equal.
  apply IH. by eapply contains_false_tail.
Qed.

Lemma remove_first_comment_id s :
  Str.contains "<!--" s = false -> remove_first_comment s = s.
Proof.
  unfold remove_first_comment, Str.lazy_between, Str.contains.
  by destruct (Str.split_at "<!--" s) as [[? ?]|].
Qed.

Lemma remove_all_comment_id s :
  Str.contains "<!--" s = false -> remove_all comment_span 0 s = s.
Proof.
  induction s as [|c s IH]; intros H; [done |].
  cbn [remove_all]. unfold comment_span.
  rewrite (contains_false_head _ _ H). f_equal.
  apply IH. by eapply contains_false_tail.
Qed.

(** What is left of a match is dropped without a look at it. *)
Lemma remove_all_skip m x : forall y,
  remove_all m (String.length x) (cat x y) = remove_all m 0 y.
Proof. induction x as [|c x IH]; intros y; [by destruct y | apply IH]. Qed.

(** Up to the first comment opening nothing is removed. *)
Lemma remove_all_comment_before s : forall before rest,
  Str.split_at "<!--" s = Some (before, rest) ->
  remove_all comment_span 0 s
  = cat before (remove_all comment_span 0 (cat "<!--" rest)).
Proof.
  induction s as [|c s IH]; intros before rest; [done |].
  destruct (Str.starts_with "<!--" (String c s)) eqn:E.
  - apply starts_with_spec in E as (r & Hr). rewrite Hr.
    rewrite split_at_head by apply starts_with_cat. rewrite drop_cat.
    by intros [= <- <-].
  - rewrite (split_at_skip _ _ _ E).
    destruct (Str.split_at "<!--" s) as [[b r]|] eqn:Es; [| done].
    intros [= <- <-]. cbn [remove_all]. unfold comment_span at 1. rewrite E.
    cbn [cat]. f_equal. by apply IH.
Qed.

(** A comment is removed whole, and the scan goes on after it. *)
Lemma remove_all_comment_head rest inner after :
  Str.split_at "-->" rest = Some (inner, after) ->
  remove_all comment_span 0 (cat "<!--" rest) = remove_all comment_span 0 after.
Proof.
  intros Er.
  assert (comment_span (cat "<!--" rest) = Some (S (3 + String.length inner + 3)))
    as Hspan.
  { unfold comment_span. rewrite starts_with_cat.
    change 4 with (String.length "<!--"). by rewrite drop_cat, Er. }
  change (cat "<!--" rest) with (String "<" (cat "!--" rest)) in Hspan |- *.
  cbn [remove_all]. rewrite Hspan.
  rewrite (split_at_Some _ _ _ _ Er).
  replace (3 + String.length inner + 3)
    with (String.length (cat "!--" (cat inner "-->")))
    by (rewrite !length_cat; simpl; lia).
  replace (cat "!--" (cat inner (cat "-->" after)))
    with (cat (cat "!--" (cat inner "-->")) after)
    by (by rewrite !cat_assoc).
  apply remove_all_skip.
Qed.

(** Removing the first comment removes every comment, when the body has
    one. *)
Lemma remove_one_comment body :
  one_comment body -> remove_all comment_span 0 body = remove_first_comment body.
Proof.
  intros (before & inner & after & Hl & Hafter).
  unfold remove_first_comment. rewrite Hl.
  unfold Str.lazy_between in Hl.
  destruct (Str.split_at "<!--" body) as [[b rest]|] eqn:Eb; [| done].
  destruct (Str.split_at "-->" rest) as [[i a]|] eqn:Er; [| done].
  injection Hl as -> -> ->.
  rewrite (remove_all_comment_before _ _ _ Eb). f_equal.
  rewrite (remove_all_comment_head _ _ _ Er). by apply remove_all_comment_id.
Qed.

(** When the metadata block of a body holds text that is not JSON,
    [parseTaskBody] does not throw: it returns the object built from the
    text.  Its priority and due date are ['medium'] and [''] when the
    body has no [**Priority:**] followed by a word character and no
    [**Due Date:**] followed by a digit or a dash, and its description
    is the body minus its markup when the body has one comment, which
    then is the block. *)
Lemma parseTaskBody_malformed_metadata (body text : string) (e : exn) :
  metadata_match body = Some text ->
  JSON_parse text = Throw e ->
  parseTaskBody (Some body) = Return (parse_basic_info body)
  /\ (~ occurs_before "**Priority:** " Str.is_word body ->
      get (parse_basic_info body) "priority" = Return (VStr "medium"))
  /\ (~ occurs_before "**Due Date:** " Str.is_digit_or_dash body ->
      get (parse_basic_info body) "dueDate" = Return (VStr ""))
  /\ (one_comment body ->
      get (parse_basic_info body) "description" = Return (VStr (minus_markup body))).
Proof.
  intros Hm Hbad. split; [| split; [| split]].
  - unfold parseTaskBody. rewrite (metadata_match_nonempty _ _ Hm).
    unfold parseTaskBody_try. by rewrite Hm, Hbad.
  - intros Hno. unfold parse_basic_info. by rewrite (search_absent _ _ _ Hno).
  - intros Hno. unfold parse_basic_info.
    by rewrite (search_absent "**Due Date:** " _ _ Hno).
  - intros Hone. unfold minus_markup. by rewrite (remove_one_comment _ Hone).
Qed.

(** A body whose metadata block is not JSON: the key is not quoted. *)
Definition broken_body : string :=
  cat "Login fails on **Safari**"
    (cat nl (cat metadata_open (cat "{priority: high}" metadata_close))).

Example parseTaskBody_malformed_metadata_run :
  metadata_match broken_body = Some "{priority: high}"
  /\ JSON_parse "{priority: high}" = Throw (SyntaxError "JSON.parse: unexpected token")
  /\ one_comment broken_body
  /\ parseTaskBody (Some broken_body)
     = Return (VObj [("priority", VStr "medium"); ("dueDate", VStr "");
                     ("description", VStr "Login fails on")])
  /\ minus_markup broken_body = "Login fails on".
Proof.
  split; [reflexivity | split; [reflexivity | split; [| split; reflexivity]]].
  by eexists _, _, _.
Qed.

(** A body with a comment in its text, in front of a metadata block that
    is not JSON. *)
Definition commented_body : string :=
  cat "Steps: <!-- draft --> open the page"
    (cat nl (cat nl (cat metadata_open (cat "{priority: high}" metadata_close)))).

(** C5, at [commented_body]: the text of the block is not JSON, and
    [parseTaskBody] returns the object built from the text, without
    throwing; but only the first comment is removed from the
    description, which still holds the metadata block, and is not the
    body minus its markup. *)
Theorem parseTaskBody_keeps_metadata_block :
  metadata_match commented_body = Some "{priority: high}"
  /\ JSON_parse "{priority: high}" = Throw (SyntaxError "JSON.parse: unexpected token")
  /\ parseTaskBody (Some commented_body)
     = Return
         (VObj [("priority", VStr "medium"); ("dueDate", VStr "");
                ("description",
                  VStr (cat "Steps:  open the page"
                          (cat nl (cat nl
                             (cat metadata_open
                                (cat "{priority: high}" metadata_close))))))])
  /\ minus_markup commented_body = "Steps:  open the page"
  /\ (let? data := parseTaskBody (Some commented_body) in get data "description")
     <> Return (VStr (minus_markup commented_body)).
Proof. repeat split; by vm_compute. Qed.

Lemma no_bold_no_priority s :
  Str.contains "**" s = false ->
  Str.search (Str.literal_then_class "**Priority:** " Str.is_word) s = None.
Proof.
  intros H. apply search_None. intros before s' ->.
  unfold Str.literal_then_class.
  destruct (Str.starts_with "**Priority:** " s') eqn:E; [| done].
  apply (starts_with_cat_l "**" "Priority:** ") in E.
  assert (occurs "**" (cat before s')) as Ho.
  { apply starts_with_spec in E as (r & ->). by exists before, r. }
  apply occurs_contains in Ho. congruence.
Qed.

(** The issue of the scenario: its title and its two labels; the other
    fields are free. *)
Definition scenario_issue (number : Z) (body : option string)
    (assignees : list Account.t) (created updated url : string) : Issue.t :=
  Issue.make number "Fix login bug" body
    [Label.make "to do" "0e7a86"; Label.make "high-priority" "d73a4a"]
    assignees false created updated url.

(** C6, as the specification states it, fails: a body without a metadata
    block can name a priority in its text, and bold spans are removed
    from the description. *)
Lemma pull_scenario_counterexample :
  metadata_match "**Priority:** high" = None
  /\ exists t,
      task_of_issue (scenario_issue 7 (Some "**Priority:** high") [] "" "" "") 1
      = Return t
      /\ Task.status t = "todo"
      /\ Task.priority t = VStr "high"
      /\ Task.priority t <> VStr "medium"
      /\ Task.description t = VStr "high"
      /\ Task.description t <> VStr "**Priority:** high".
Proof.
  split; [reflexivity |]. eexists. split; [reflexivity |].
  repeat split; discriminate.
Qed.

(** C6, amended. An issue titled "Fix login bug" with the labels "to do"
    and "high-priority" and a body without metadata block is pulled into
    a task with status todo; its priority is the word after the first
    [**Priority:** ] of the body and medium when there is none, the
    labels playing no part; its description is the body without its first
    comment and without bold spans, trimmed, which is the raw body when
    the body has no comment opening, no [**] and no white space at either
    end. *)
Theorem pull_without_metadata (body : string) (id number : Z)
    (assignees : list Account.t) (created updated url : string) :
  metadata_match body = None ->
  exists t,
    task_of_issue (scenario_issue number (Some body) assignees created updated url) id
    = Return t
    /\ Task.title t = "Fix login bug"
    /\ Task.status t = "todo"
    /\ Task.priority t
       = VStr (default "medium"
                 (Str.search (Str.literal_then_class "**Priority:** " Str.is_word) body))
    /\ Task.description t
       = VStr (Str.trim (remove_all bold_span 0 (remove_first_comment body)))
    /\ (~ occurs_before "**Priority:** " Str.is_word body ->
        Task.priority t = VStr "medium")
    /\ (~ occurs "<!--" body -> ~ occurs "**" body -> unpadded body ->
        Task.priority t = VStr "medium" /\ Task.description t = VStr body).
Proof.
  intros Hm. unfold task_of_issue, parseTaskBody, scenario_issue.
  cbn [Issue.body Issue.labels Issue.title Issue.assignees].
  assert (forall w, or_else (VStr w) (VStr "") = VStr w) as Hor.
  { intros [|c w]; done. }
  destruct (String.eqb body "") eqn:Eb.
  - apply String.eqb_eq in Eb. subst body. eexists. split; [reflexivity |].
    cbn. repeat split.
  - unfold parseTaskBody_try. rewrite Hm. cbn.
    eexists. split; [reflexivity |]. cbn [Task.title Task.status Task.priority Task.description].
    rewrite Hor.
    assert (or_else
              (VStr (default "medium"
                 (Str.search (Str.literal_then_class "**Priority:** " Str.is_word) body)))
              (VStr "medium")
            = VStr (default "medium"
                 (Str.search (Str.literal_then_class "**Priority:** " Str.is_word) body)))
      as Hp.
    { destruct (Str.search _ body) as [w|] eqn:Es; [| done].
      apply search_literal_nonempty in Es. by destruct w. }
    rewrite Hp. split; [done | split; [done | split; [done | split; [done |]]]].
    split.
    + intros Hno. by rewrite (search_absent _ _ _ Hno).
    + intros Hc Hb Hu. apply contains_false_iff in Hc, Hb.
      rewrite (no_bold_no_priority _ Hb), (remove_first_comment_id _ Hc),
        (remove_all_bold_id _ Hb), (trim_unpadded _ Hu). done.
Qed.

Lemma pull_without_metadata_witness :
  metadata_match "Login page rejects valid passwords" = None
  /\ exists t,
      task_of_issue
        (scenario_issue 7 (Some "Login page rejects valid passwords") [] "" "" "") 1
      = Return t
      /\ Task.status t = "todo"
      /\ Task.priority t = VStr "medium"
      /\ Task.description t = VStr "Login page rejects valid passwords".
Proof.
  split; [reflexivity |].
  destruct (pull_without_metadata "Login page rejects valid passwords" 1 7 [] "" "" ""
              eq_refl) as (t & Ht & _ & Hs & _ & _ & _ & Hplain).
  exists t. split; [exact Ht | split; [exact Hs |]].
  apply Hplain.
  - apply contains_false_iff. reflexivity.
  - apply contains_false_iff. reflexivity.
  - split; intros c [= <-]; reflexivity.
Defined.

End TaskBody.



(* ===================================================================== *)
(** * JSON: what is written is read back *)
(* ===================================================================== *)

Section Json.

Import Str.

(** Induction on values, with the hypothesis for the elements of an array
    and for the members of an object. *)
Lemma value_ind_nested (P : value -> Prop) :
  P VUndefined -> P VNull -> (forall b, P (VBool b)) -> (forall n, P (VNum n)) ->
  (forall s, P (VStr s)) ->
  (forall xs, Forall P xs -> P (VArr xs)) ->
  (forall props, Forall (fun kv => P kv.2) props -> P (VObj props)) ->
  forall v, P v.
Proof.
  intros Hu Hn Hb Hz Hs Ha Ho.
  fix IH 1. intros [| |b|n|s|xs|props].
  - exact Hu.
  - exact Hn.
  - apply Hb.
  - apply Hz.
  - apply Hs.
  - apply Ha. induction xs as [|x xs IHxs]; constructor; [apply IH | exact IHxs].
  - apply Ho. induction props as [|[k x] props IHp]; constructor;
      [apply IH | exact IHp].
Qed.

(** The values that are shown here to come back from their JSON text:
    no [undefined] inside, no key twice in an object, and of the numbers
    the safe integers. *)
Fixpoint jsonable (v : value) : Prop :=
  match v with
  | VUndefined => False
  | VNum (Int z) => is_safe_integer z = true
  | VNum _ => False
  | VNull | VBool _ | VStr _ => True
  | VArr xs =>
      (fix all (l : list value) : Prop :=
         match l with
         | [] => True
         | x :: l' => jsonable x /\ all l'
         end) xs
  | VObj props =>
      NoDup (map fst props)
      /\ (fix all (l : list (string * value)) : Prop :=
            match l with
            | [] => True
            | (_, x) :: l' => jsonable x /\ all l'
            end) props
  end.

Lemma jsonable_VArr xs : jsonable (VArr xs) <-> Forall jsonable xs.
Proof.
  simpl. induction xs as [|x xs IH]; [by split; [constructor |] |].
  rewrite Forall_cons, <- IH. done.
Qed.

Lemma jsonable_VObj props :
  jsonable (VObj props)
  <-> NoDup (map fst props) /\ Forall (fun kv => jsonable kv.2) props.
Proof.
  simpl. apply and_iff_compat_l.
  induction props as [|[k x] props IH]; [by split; [constructor |] |].
  rewrite Forall_cons, <- IH. done.
Qed.

(** ** Strings *)

Lemma read_write_char c r :
  read_chars (write_char c r)
  = match read_chars r with
    | Some (str, rest) => Some (String c str, rest)
    | None => None
    end.
Proof.
  destruct c as [[] [] [] [] [] [] [] []];
    cbv [write_char Ascii.eqb Bool.eqb dquote backslash code nat_of_ascii];
    simpl; by destruct (read_chars r) as [[? ?]|].
Qed.

Lemma read_write_chars s k :
  read_chars (write_chars s (String dquote k)) = Some (s, k).
Proof.
  induction s as [|c s IH]; simpl.
  - done.
  - by rewrite read_write_char, IH.
Qed.

(** ** Numbers *)

Ltac each_char c := destruct c as [[] [] [] [] [] [] [] []]; try done.

Lemma digit_not_minus c : is_digit c = true -> Ascii.eqb c "-" = false.
Proof. each_char c. Qed.

Lemma digit_not_point c :
  is_digit c = true ->
  Ascii.eqb c "." || Ascii.eqb c "e" || Ascii.eqb c "E" = false.
Proof. each_char c. Qed.

(** The text after a value in what [write] produces: nothing, or a comma,
    or a closing bracket or brace. *)
Definition value_end (k : string) : Prop :=
  match k with
  | EmptyString => True
  | String c _ => c = ","%char \/ c = "]"%char \/ c = "}"%char
  end.

Lemma digits_of_uint u :
  all is_digit (NilEmpty.string_of_uint u) = true.
Proof. induction u; simpl; done. Qed.

Lemma take_digits d k :
  all is_digit d = true -> value_end k ->
  take_while is_digit (cat d k) = d /\ drop_while is_digit (cat d k) = k.
Proof.
  intros Hd Hk. induction d as [|c d IH]; simpl.
  - destruct k as [|c k]; [done |]. simpl in Hk.
    destruct Hk as [-> | [-> | ->]]; done.
  - simpl in Hd. apply andb_true_iff in Hd as [Hc Hd]. rewrite Hc.
    destruct (IH Hd) as [-> ->]. done.
Qed.

(** The decimal digits of a positive number do not start with 0. *)
Lemma to_uint_head p :
  exists c r,
    NilEmpty.string_of_uint (Pos.to_uint p) = String c r
    /\ is_digit c = true /\ Ascii.eqb c "0" = false.
Proof.
  assert (Decimal.unorm (Pos.to_uint p) = Pos.to_uint p) as Hnorm.
  { rewrite <- DecimalPos.Unsigned.to_of, DecimalPos.Unsigned.of_to. done. }
  pose proof (DecimalPos.Unsigned.to_uint_nonzero p) as Hnz.
  pose proof (DecimalPos.Unsigned.to_uint_nonnil p) as Hnn.
  assert (Decimal.nzhead (Pos.to_uint p) = Pos.to_uint p) as Hhead.
  { rewrite <- Hnorm at 2. symmetry. apply DecimalFacts.unorm_nzhead.
    intros Hnil. apply Hnz. rewrite <- Hnorm. unfold Decimal.unorm. by rewrite Hnil. }
  destruct (Pos.to_uint p) as [|d|d|d|d|d|d|d|d|d|d] eqn:E; simpl.
  1: by destruct Hnn.
  1: exfalso; by apply (DecimalFacts.nzhead_nonzero (Decimal.D0 d) d).
  all: by eexists _, _.
Qed.

Lemma digits_of_Z_pos p :
  digits_of_Z (Zpos p) = NilEmpty.string_of_uint (Pos.to_uint p).
Proof.
  unfold digits_of_Z. simpl. unfold NilZero.string_of_uint.
  pose proof (DecimalPos.Unsigned.to_uint_nonnil p).
  by destruct (Pos.to_uint p).
Qed.

Lemma digits_of_Z_neg p :
  digits_of_Z (Zneg p) = String "-" (NilEmpty.string_of_uint (Pos.to_uint p)).
Proof.
  unfold digits_of_Z. simpl. unfold NilZero.string_of_uint.
  pose proof (DecimalPos.Unsigned.to_uint_nonnil p).
  by destruct (Pos.to_uint p).
Qed.

(** A safe integer is written with its digits. *)
Lemma string_of_Z_safe n : is_safe_integer n = true -> string_of_Z n = digits_of_Z n.
Proof. unfold string_of_Z, number_toString. by intros ->. Qed.

Lemma of_Z_safe n : is_safe_integer n = true -> of_Z n = Int n.
Proof. unfold of_Z. by intros ->. Qed.

Lemma is_safe_integer_spec n :
  is_safe_integer n = true <-> (- 2 ^ 53 < n < 2 ^ 53)%Z.
Proof. unfold is_safe_integer. rewrite Z.ltb_lt. lia. Qed.

(** The number that a run of decimal digits stands for, read from the
    left with [acc] for what was read before. *)
Fixpoint uint_value (d : Decimal.uint) (acc : Z) : Z :=
  match d with
  | Decimal.Nil => acc
  | Decimal.D0 d => uint_value d (acc * 10 + 0)
  | Decimal.D1 d => uint_value d (acc * 10 + 1)
  | Decimal.D2 d => uint_value d (acc * 10 + 2)
  | Decimal.D3 d => uint_value d (acc * 10 + 3)
  | Decimal.D4 d => uint_value d (acc * 10 + 4)
  | Decimal.D5 d => uint_value d (acc * 10 + 5)
  | Decimal.D6 d => uint_value d (acc * 10 + 6)
  | Decimal.D7 d => uint_value d (acc * 10 + 7)
  | Decimal.D8 d => uint_value d (acc * 10 + 8)
  | Decimal.D9 d => uint_value d (acc * 10 + 9)
  end%Z.

Lemma read_digits_uint d : forall acc,
  read_digits 10 acc (NilEmpty.string_of_uint d) = uint_value d acc.
Proof.
  induction d; intros acc; simpl; [done | ..]; apply IHd.
Qed.

Lemma uint_value_acc d : forall acc : positive,
  uint_value d (Zpos acc) = Zpos (Pos.of_uint_acc d acc).
Proof.
  induction d; intros acc; simpl; [done | ..]; rewrite <- IHd; f_equal; lia.
Qed.

Lemma uint_value_0 d : uint_value d 0 = Z.of_N (Pos.of_uint d).
Proof.
  induction d; simpl; [done | exact IHd | ..]; apply uint_value_acc.
Qed.

Lemma read_digits_of_pos p :
  read_digits 10 0 (NilEmpty.string_of_uint (Pos.to_uint p)) = Zpos p.
Proof.
  rewrite read_digits_uint, uint_value_0. by rewrite DecimalPos.Unsigned.of_to.
Qed.

(** After the digits of a written number comes no fraction and no
    exponent. *)
Lemma read_fraction_end k : value_end k -> read_fraction k = Some (EmptyString, k).
Proof.
  destruct k as [|c k]; [done |]. intros [-> | [-> | ->]]; done.
Qed.

Lemma read_exponent_end k : value_end k -> read_exponent k = Some (0%Z, k).
Proof.
  destruct k as [|c k]; [done |]. intros [-> | [-> | ->]]; done.
Qed.

Lemma of_decimal_safe negative p :
  is_safe_integer (Zpos p) = true ->
  of_decimal negative (Zpos p) 0 = Int (if negative then Zneg p else Zpos p).
Proof.
  intros Hp. unfold of_decimal. cbn [Z.leb Z.compare Z.pow Z.pow_pos].
  change (0 <=? 0)%Z with true. cbv iota.
  replace (Z.pos p * 10 ^ 0)%Z with (Zpos p) by (rewrite Z.pow_0_r; lia).
  apply is_safe_integer_spec in Hp.
  destruct (Z.ltb_spec (Zpos p) (2 ^ 53)); [by destruct negative | lia].
Qed.

Lemma read_magnitude_written negative p k :
  value_end k -> is_safe_integer (Zpos p) = true ->
  read_magnitude negative (cat (NilEmpty.string_of_uint (Pos.to_uint p)) k)
  = Some (Int (if negative then Zneg p else Zpos p), k).
Proof.
  intros Hk Hp. destruct (to_uint_head p) as (c & r & Hs & Hc & H0).
  destruct (take_digits _ k (digits_of_uint (Pos.to_uint p)) Hk) as [Ht Hd].
  unfold read_magnitude. rewrite Ht, Hd, Hs, H0. cbn [andb].
  rewrite (read_fraction_end k Hk), (read_exponent_end k Hk).
  rewrite cat_empty_r, <- Hs, read_digits_of_pos.
  change (0 - Z.of_nat (String.length ""))%Z with 0%Z.
  by rewrite (of_decimal_safe negative p Hp).
Qed.

Lemma read_number_written n k :
  value_end k -> is_safe_integer n = true ->
  read_number (cat (digits_of_Z n) k) = Some (Int n, k).
Proof.
  intros Hk Hn. destruct n as [|p|p].
  - destruct (take_digits "0" k eq_refl Hk) as [Ht Hd].
    change (cat "0" k) with (String "0" k) in Ht, Hd.
    unfold read_number, read_magnitude.
    change (cat (digits_of_Z 0) k) with (String "0" k).
    cbn [Ascii.eqb Bool.eqb]. rewrite Ht, Hd.
    cbn [Ascii.eqb Bool.eqb andb negb String.eqb].
    by rewrite (read_fraction_end k Hk), (read_exponent_end k Hk).
  - rewrite digits_of_Z_pos.
    destruct (to_uint_head p) as (c & r & Hs & Hc & H0).
    pose proof (read_magnitude_written false p k Hk Hn) as Hread.
    unfold read_number. rewrite Hs in Hread |- *. cbn [cat] in Hread |- *.
    by rewrite (digit_not_minus _ Hc), Hread.
  - rewrite digits_of_Z_neg. unfold read_number. cbn [cat Ascii.eqb Bool.eqb].
    by rewrite (read_magnitude_written true p k Hk).
Qed.

(** ** The text of a number

    The characters of a written number are digits, signs, the point and
    the letter of the exponent, or it is [null]; it is never empty. *)
Definition numeric (c : ascii) : bool :=
  is_digit c || Ascii.eqb c "-" || Ascii.eqb c "+" || Ascii.eqb c "."
  || Ascii.eqb c "e".

Lemma all_prefix f n : forall s, all f s = true -> all f (prefix n s) = true.
Proof.
  induction n as [|n IH]; intros [|c s]; simpl; try done.
  intros [Hc Hs]%andb_true_iff. by rewrite Hc, IH.
Qed.

Lemma all_drop f n : forall s, all f s = true -> all f (drop n s) = true.
Proof.
  induction n as [|n IH]; intros [|c s]; simpl; try done.
  intros [Hc Hs]%andb_true_iff. by apply IH.
Qed.

Lemma all_zeros n : all numeric (zeros n) = true.
Proof. induction n; simpl; done. Qed.

Lemma digits_of_Z_numeric z : all numeric (digits_of_Z z) = true.
Proof.
  destruct z as [|p|p]; [done | |].
  - rewrite digits_of_Z_pos.
    apply (all_impl is_digit); [| apply digits_of_uint].
    intros c Hc. unfold numeric. by rewrite Hc.
  - rewrite digits_of_Z_neg. simpl.
    apply (all_impl is_digit); [| apply digits_of_uint].
    intros c Hc. unfold numeric. by rewrite Hc.
Qed.

Lemma digits_of_Z_nonempty z : digits_of_Z z <> "".
Proof.
  destruct z as [|p|p]; [done | |].
  - rewrite digits_of_Z_pos. by destruct (to_uint_head p) as (c & r & -> & _).
  - by rewrite digits_of_Z_neg.
Qed.

Lemma positive_toString_numeric p q :
  all numeric (positive_toString p q) = true /\ positive_toString p q <> "".
Proof.
  unfold positive_toString. destruct (shortest p q) as [[s k] n].
  pose proof (digits_of_Z_numeric s) as Hd.
  pose proof (digits_of_Z_nonempty s) as Hne.
  destruct ((k <=? n)%Z && (n <=? 21)%Z).
  { rewrite all_cat, Hd, all_zeros. split; [done |]. by destruct (digits_of_Z s). }
  destruct ((0 <? n)%Z && (n <=? 21)%Z).
  { rewrite all_cat. cbn [all]. rewrite (all_prefix _ _ _ Hd), (all_drop _ _ _ Hd).
    split; [done |]. by destruct (prefix _ _). }
  destruct ((-6 <? n)%Z && (n <=? 0)%Z).
  { cbn [cat all]. rewrite all_cat, all_zeros, Hd. by split. }
  assert (all numeric
            (String "e" (cat (if (n - 1 <? 0)%Z then "-" else "+")
                           (digits_of_Z (Z.abs (n - 1))))) = true) as He.
  { cbn [all]. rewrite all_cat, digits_of_Z_numeric. by destruct (n - 1 <? 0)%Z. }
  destruct (k =? 1)%Z.
  - rewrite all_cat, Hd, He. split; [done |]. by destruct (digits_of_Z s).
  - rewrite all_cat. cbn [all]. rewrite (all_prefix _ _ _ Hd), all_cat,
      (all_drop _ _ _ Hd), He. split; [done |]. by destruct (prefix _ _).
Qed.

Lemma number_toString_numeric n :
  match n with Int _ | Frac _ _ => True | _ => False end ->
  all numeric (number_toString n) = true /\ number_toString n <> "".
Proof.
  destruct n as [z|m e| |]; try done; intros _; simpl.
  - destruct (is_safe_integer z).
    + split; [apply digits_of_Z_numeric | apply digits_of_Z_nonempty].
    + destruct (positive_toString_numeric (Z.abs z) 1) as [Ha Hne].
      rewrite all_cat, Ha. split; [by destruct (z <? 0)%Z |].
      destruct (z <? 0)%Z; [done |]. by destruct (positive_toString _ _).
  - destruct (positive_toString_numeric (Z.abs m) (2 ^ Z.pos e)) as [Ha Hne].
    rewrite all_cat, Ha. split; [by destruct (m <? 0)%Z |].
    destruct (m <? 0)%Z; [done |]. by destruct (positive_toString _ _).
Qed.

(** The characters of [null] and of a number. *)
Definition numeric_or_null (c : ascii) : bool :=
  numeric c || Ascii.eqb c "n" || Ascii.eqb c "u" || Ascii.eqb c "l".

Lemma write_number_plain n :
  all numeric_or_null (write_number n) = true /\ write_number n <> "".
Proof.
  destruct n as [z|m e|b|]; try done.
  - destruct (number_toString_numeric (Int z) I) as [Ha Hne]. split; [| done].
    apply (all_impl numeric); [| done]. intros c Hc. unfold numeric_or_null.
    by rewrite Hc.
  - destruct (number_toString_numeric (Frac m e) I) as [Ha Hne]. split; [| done].
    apply (all_impl numeric); [| done]. intros c Hc. unfold numeric_or_null.
    by rewrite Hc.
Qed.

(** ** Values *)

(** The two loops of [write], by name. *)
Fixpoint write_elements (first : bool) (l : list value) (k : string) : string :=
  match l with
  | [] => k
  | x :: l' =>
      cat (if first then "" else ",") (write x (write_elements false l' k))
  end.

Fixpoint write_members (first : bool) (l : list (string * value)) (k : string)
    : string :=
  match l with
  | [] => k
  | (_, VUndefined) :: l' => write_members first l' k
  | (key, x) :: l' =>
      cat (if first then "" else ",")
        (write_string key (String ":" (write x (write_members false l' k))))
  end.

Lemma write_VArr xs k :
  write (VArr xs) k = String "[" (write_elements true xs (String "]" k)).
Proof. reflexivity. Qed.

Lemma write_VObj props k :
  write (VObj props) k = String "{" (write_members true props (String "}" k)).
Proof. reflexivity. Qed.

Lemma write_members_cons first key x l k :
  x <> VUndefined ->
  write_members first ((key, x) :: l) k
  = cat (if first then "" else ",")
      (write_string key (String ":" (write x (write_members false l k)))).
Proof. by destruct x. Qed.

Lemma write_chars_length s k : String.length k <= String.length (write_chars s k).
Proof.
  induction s as [|c s IH]; simpl; [done |].
  etransitivity; [exact IH |]. generalize (write_chars s k). intros r.
  unfold write_char. repeat case_match; simpl; lia.
Qed.

Lemma write_length v : forall k, String.length k < String.length (write v k).
Proof.
  induction v as [| |b|n|s|xs IH|props IH] using value_ind_nested; intros k.
  - simpl. lia.
  - simpl. lia.
  - destruct b; simpl; lia.
  - simpl. rewrite length_cat.
    destruct (write_number_plain n) as [_ Hne].
    destruct (write_number n); [done | simpl; lia].
  - simpl. pose proof (write_chars_length s (String dquote k)). simpl in *. lia.
  - rewrite write_VArr. simpl.
    assert (forall first K,
              String.length K <= String.length (write_elements first xs K)) as H.
    { induction IH as [|x xs Hx Hxs IHxs]; intros first K; simpl; [done |].
      rewrite length_cat. specialize (Hx (write_elements false xs K)).
      specialize (IHxs false K). lia. }
    specialize (H true (String "]" k)). simpl in H. lia.
  - rewrite write_VObj. simpl.
    assert (forall first K,
              String.length K <= String.length (write_members first props K)) as H.
    { induction IH as [|[key x] props Hx Hprops IHp]; intros first K; [done |].
      simpl in Hx.
      assert (x = VUndefined \/ x <> VUndefined) as [-> | Hne]
        by (destruct x; (by left) || (by right)).
      - simpl. apply IHp.
      - rewrite write_members_cons by done. rewrite length_cat.
        unfold write_string. simpl.
        pose proof (write_chars_length key
                      (String dquote (String ":" (write x (write_members false props K))))).
        specialize (Hx (write_members false props K)).
        specialize (IHp false K). simpl in *. lia. }
    specialize (H true (String "}" k)). simpl in H. lia.
Qed.

(** The first character of a written value: not white space, and not a
    closing bracket. *)
Lemma digit_head c :
  is_digit c = true -> is_json_space c = false /\ Ascii.eqb c "]" = false.
Proof. each_char c. Qed.

Lemma number_head n :
  exists c r, digits_of_Z n = String c r
              /\ Ascii.eqb c "-" || is_digit c = true.
Proof.
  destruct n as [|p|p].
  - by exists "0"%char, EmptyString.
  - rewrite digits_of_Z_pos. destruct (to_uint_head p) as (c & r & -> & Hc & _).
    exists c, r. by rewrite Hc, orb_true_r.
  - rewrite digits_of_Z_neg. by eexists _, _.
Qed.

Lemma numeric_or_null_plain c :
  numeric_or_null c = true ->
  is_json_space c = false /\ Ascii.eqb c "]" = false /\ not_LF c = true.
Proof. each_char c. Qed.

Lemma write_head v k :
  exists c r, write v k = String c r
              /\ is_json_space c = false /\ Ascii.eqb c "]" = false.
Proof.
  destruct v as [| |[]|n|s|xs|props]; try by eexists _, _.
  destruct (write_number_plain n) as [Ha Hne]. simpl.
  destruct (write_number n) as [|c r]; [done |].
  exists c, (cat r k). split; [done |].
  simpl in Ha. apply andb_true_iff in Ha as [Hc _].
  by destruct (numeric_or_null_plain c Hc) as (? & ? & _).
Qed.

Lemma skip_ws_head c r :
  is_json_space c = false -> skip_ws (String c r) = String c r.
Proof. intros H. unfold skip_ws. simpl. by rewrite H. Qed.

Lemma skip_ws_end k : value_end k -> skip_ws k = k.
Proof.
  destruct k as [|c k]; [done |]. intros [-> | [-> | ->]]; done.
Qed.

(** One step of each reader. *)
Lemma read_value_number fuel c r :
  Ascii.eqb c "-" || is_digit c = true ->
  read_value (S fuel) (String c r)
  = match read_number (String c r) with
    | Some (n, rest) => Some (VNum n, rest)
    | None => None
    end.
Proof. each_char c. Qed.

Lemma read_value_string fuel r :
  read_value (S fuel) (String dquote r)
  = match read_chars r with
    | Some (str, rest) => Some (VStr str, rest)
    | None => None
    end.
Proof. reflexivity. Qed.

Lemma read_value_array fuel c r :
  is_json_space c = false -> Ascii.eqb c "]" = false ->
  read_value (S fuel) (String "[" (String c r))
  = match read_elements fuel (String c r) with
    | Some (xs, rest) => Some (VArr xs, rest)
    | None => None
    end.
Proof.
  intros Hc Hb.
  change (read_value (S fuel) (String "[" (String c r)))
    with (match skip_ws (String c r) with
          | EmptyString => None
          | String c' r' =>
              if Ascii.eqb c' "]" then Some (VArr [], r')
              else
                match read_elements fuel (String c' r') with
                | Some (xs, rest) => Some (VArr xs, rest)
                | None => None
                end
          end).
  by rewrite (skip_ws_head c r Hc), Hb.
Qed.

Lemma read_value_object fuel r :
  read_value (S fuel) (String "{" (String dquote r))
  = match read_members fuel (String dquote r) with
    | Some (ps, rest) =>
        Some (VObj (fold_left (fun o '(k, v) => set_prop k v o) ps []), rest)
    | None => None
    end.
Proof. reflexivity. Qed.

Lemma read_elements_S fuel s :
  read_elements (S fuel) s
  = match read_value fuel s with
    | Some (x, r) =>
        match skip_ws r with
        | EmptyString => None
        | String c r' =>
            if Ascii.eqb c "," then
              match read_elements fuel r' with
              | Some (xs, rest) => Some (x :: xs, rest)
              | None => None
              end
            else if Ascii.eqb c "]" then Some ([x], r')
            else None
        end
    | None => None
    end.
Proof. reflexivity. Qed.

Lemma read_members_S fuel key r :
  read_members (S fuel) (write_string key (String ":" r))
  = match read_value fuel r with
    | Some (x, r3) =>
        match skip_ws r3 with
        | EmptyString => None
        | String c r4 =>
            if Ascii.eqb c "," then
              match read_members fuel r4 with
              | Some (ps, rest) => Some ((key, x) :: ps, rest)
              | None => None
              end
            else if Ascii.eqb c "}" then Some ([(key, x)], r4)
            else None
        end
    | None => None
    end.
Proof.
  unfold write_string.
  change (read_members (S fuel) (String dquote ?s))
    with (match read_chars s with
          | Some (key, r1) =>
              match skip_ws r1 with
              | EmptyString => None
              | String colon r2 =>
                  if Ascii.eqb colon ":" then
                    match read_value fuel r2 with
                    | Some (x, r3) =>
                        match skip_ws r3 with
                        | EmptyString => None
                        | String c r4 =>
                            if Ascii.eqb c "," then
                              match read_members fuel r4 with
                              | Some (ps, rest) => Some ((key, x) :: ps, rest)
                              | None => None
                              end
                            else if Ascii.eqb c "}" then Some ([(key, x)], r4)
                            else None
                        end
                    | None => None
                    end
                  else None
              end
          | None => None
          end).
  rewrite read_write_chars. done.
Qed.

(** [v] is read back from what [write] produces for it, whatever follows,
    with fuel for twice the length of the text. *)
Definition reads_back (v : value) : Prop :=
  forall k fuel,
    value_end k -> 2 * String.length (write v k) + 1 <= fuel ->
    read_value fuel (write v k) = Some (v, k).

Lemma read_elements_written xs :
  Forall reads_back xs ->
  forall x k fuel,
    reads_back x -> value_end k ->
    2 * String.length (write x (write_elements false xs (String "]" k))) + 2
    <= fuel ->
    read_elements fuel (write x (write_elements false xs (String "]" k)))
    = Some (x :: xs, k).
Proof.
  induction 1 as [|y ys Hy Hys IH]; intros x k fuel Hx Hk Hfuel;
    (destruct fuel as [|fuel]; [lia |]); rewrite read_elements_S.
  - simpl in *. rewrite Hx; [done | by right; left | lia].
  - cbn [write_elements] in *. change (cat "," ?s) with (String "," s) in *.
    rewrite Hx; [| by left | lia].
    change (skip_ws (String "," ?s)) with (String "," s). cbv iota beta.
    change (Ascii.eqb "," ",") with true. cbv iota.
    rewrite IH; [done | done | done |].
    pose proof (write_length x
                  (String "," (write y (write_elements false ys (String "]" k))))).
    simpl in *. lia.
Qed.

Lemma read_members_written props :
  Forall (fun kv => reads_back kv.2 /\ kv.2 <> VUndefined) props ->
  forall key x k fuel,
    reads_back x -> x <> VUndefined -> value_end k ->
    2 * String.length
          (write_string key
             (String ":" (write x (write_members false props (String "}" k)))))
    + 2 <= fuel ->
    read_members fuel
      (write_string key
         (String ":" (write x (write_members false props (String "}" k)))))
    = Some ((key, x) :: props, k).
Proof.
  induction 1 as [|[key' y] ps [Hy Hne] Hps IH];
    intros key x k fuel Hx Hxne Hk Hfuel;
    (destruct fuel as [|fuel]; [lia |]); rewrite read_members_S.
  - pose proof (write_chars_length key
                  (String dquote (String ":" (write x (String "}" k))))).
    simpl in *. rewrite Hx; [done | by right; right | lia].
  - simpl in Hy, Hne. rewrite write_members_cons in * by done.
    change (cat "," ?s) with (String "," s) in *.
    set (W := write_string key'
                (String ":" (write y (write_members false ps (String "}" k))))) in *.
    pose proof (write_chars_length key
                  (String dquote (String ":" (write x (String "," W)))))
      as Hkey.
    pose proof (write_length x (String "," W)) as Hlen.
    unfold write_string in Hfuel. simpl in Hfuel, Hkey, Hlen.
    rewrite Hx; [| by left | lia].
    change (skip_ws (String "," ?s)) with (String "," s). cbv iota beta.
    change (Ascii.eqb "," ",") with true. cbv iota.
    unfold W. rewrite IH; [done | done | done | done |].
    unfold W, write_string in *. simpl in *. lia.
Qed.

Lemma set_prop_fresh key v acc :
  key ∉ map fst acc -> set_prop key v acc = acc ++ [(key, v)].
Proof.
  induction acc as [|[key' v'] acc IH]; simpl; intros Hkey; [done |].
  apply not_elem_of_cons in Hkey as [Hne Hkey].
  apply String.eqb_neq in Hne. rewrite Hne, IH; done.
Qed.

Lemma set_props_fresh props :
  forall acc,
    NoDup (map fst (acc ++ props)) ->
    fold_left (fun o '(k, v) => set_prop k v o) props acc = acc ++ props.
Proof.
  induction props as [|[key v] props IH]; intros acc Hnd; simpl.
  - by rewrite app_nil_r.
  - rewrite set_prop_fresh.
    + rewrite IH; rewrite <- app_assoc; done.
    + rewrite map_app in Hnd. apply NoDup_app in Hnd as (_ & Hnot & _).
      intros Hin. apply (Hnot key Hin). simpl. apply elem_of_cons. by left.
Qed.

(** Every value that [JSON.stringify] writes in full is read back. *)
Lemma read_written v : jsonable v -> reads_back v.
Proof.
  induction v as [| |b|n|s|xs IH|props IH] using value_ind_nested;
    intros Hv k fuel Hk Hfuel;
    (destruct fuel as [|fuel]; [lia |]).
  - destruct Hv.
  - reflexivity.
  - destruct b; reflexivity.
  - destruct n as [z|m e|b|]; try done. simpl in Hv.
    change (write (VNum (Int z)) k) with (cat (number_toString (Int z)) k).
    fold (string_of_Z z). rewrite (string_of_Z_safe z Hv).
    destruct (number_head z) as (c & r & Hs & Hc).
    pose proof (read_number_written z k Hk Hv) as Hread.
    rewrite Hs in Hread |- *. cbn [cat] in Hread |- *.
    by rewrite (read_value_number _ _ _ Hc), Hread.
  - change (write (VStr s) k) with (write_string s k). unfold write_string.
    by rewrite read_value_string, read_write_chars.
  - apply jsonable_VArr in Hv.
    assert (Forall reads_back xs) as Hxs.
    { rewrite Forall_forall in *. eauto. }
    rewrite write_VArr in *. destruct Hxs as [|x xs Hx Hxs]; [reflexivity |].
    cbn [write_elements] in *. change (cat EmptyString ?s) with s in *.
    destruct (write_head x (write_elements false xs (String "]" k)))
      as (c & r & Hw & Hc & Hb).
    pose proof (read_elements_written xs Hxs x k fuel Hx Hk) as Hread.
    rewrite Hw in *. rewrite (read_value_array _ _ _ Hc Hb), Hread; [done |].
    cbn [String.length] in *. lia.
  - apply jsonable_VObj in Hv as [Hnd Hv].
    assert (Forall (fun kv => reads_back kv.2 /\ kv.2 <> VUndefined) props)
      as Hps.
    { rewrite Forall_forall in *. intros kv Hin. split; [by eauto |].
      intros Hu. specialize (Hv kv Hin). by rewrite Hu in Hv. }
    rewrite write_VObj in *.
    destruct Hps as [|[key x] ps [Hx Hne] Hps]; [reflexivity |].
    simpl in Hx, Hne. rewrite write_members_cons in * by done.
    change (cat EmptyString ?s) with s in *.
    pose proof (read_members_written ps Hps key x k fuel Hx Hne Hk) as Hread.
    unfold write_string at 1. rewrite read_value_object.
    fold (write_string key
            (String ":" (write x (write_members false ps (String "}" k))))).
    rewrite Hread.
    + by rewrite (set_props_fresh _ []).
    + unfold write_string in *. cbn [String.length] in *. lia.
Qed.

(** [JSON.parse(JSON.stringify(v))] is [v]. *)
Lemma parse_stringify v : jsonable v -> JSON_parse (write v "") = Return v.
Proof.
  intros Hv. unfold JSON_parse, parse_text.
  rewrite (read_written v Hv); [done | done | lia].
Qed.

(** ** The text is on one line *)

Lemma write_char_one_line c k : all not_LF (write_char c k) = all not_LF k.
Proof. destruct c as [[] [] [] [] [] [] [] []]; reflexivity. Qed.

Lemma write_chars_one_line s k : all not_LF (write_chars s k) = all not_LF k.
Proof.
  induction s as [|c s IH]; simpl; [done |]. by rewrite write_char_one_line.
Qed.

Lemma write_string_one_line s k : all not_LF (write_string s k) = all not_LF k.
Proof. unfold write_string. simpl. by rewrite write_chars_one_line. Qed.

Lemma digit_not_LF c : is_digit c = true -> not_LF c = true.
Proof. each_char c. Qed.

Lemma write_number_one_line n : all not_LF (write_number n) = true.
Proof.
  destruct (write_number_plain n) as [Ha _].
  apply (all_impl numeric_or_null); [| done].
  intros c Hc. by destruct (numeric_or_null_plain c Hc) as (_ & _ & ?).
Qed.

Lemma write_one_line v : forall k, all not_LF (write v k) = all not_LF k.
Proof.
  induction v as [| |b|n|s|xs IH|props IH] using value_ind_nested; intros k.
  - done.
  - done.
  - by destruct b.
  - simpl. by rewrite all_cat, write_number_one_line.
  - apply write_string_one_line.
  - rewrite write_VArr.
    assert (forall first K,
              all not_LF (write_elements first xs K) = all not_LF K) as H.
    { induction IH as [|x xs Hx Hxs IHxs]; intros first K; simpl; [done |].
      rewrite all_cat, Hx, IHxs. by destruct first. }
    simpl. by rewrite H.
  - rewrite write_VObj.
    assert (forall first K,
              all not_LF (write_members first props K) = all not_LF K) as H.
    { induction IH as [|[key x] props Hx Hprops IHp]; intros first K; [done |].
      simpl in Hx.
      assert (x = VUndefined \/ x <> VUndefined) as [-> | Hne]
        by (destruct x; (by left) || (by right)).
      - simpl. apply IHp.
      - rewrite write_members_cons by done.
        rewrite all_cat, write_string_one_line. simpl. rewrite Hx, IHp.
        by destruct first. }
    simpl. by rewrite H.
Qed.

End Json.



(* ===================================================================== *)
(** * Runs of the adapter: what any computation of it does to the page *)
(* ===================================================================== *)

Section Runs.

Context {R : Type} (server : forall T, R -> request T -> R * response T).
Context (toISOString : nat -> string).

(** The two stores, in memory and as saved. *)
Definition stores (w : World R)
    : option KanbanBoard.t * option UserManager.t
      * option (list Task.t * Z) * option (list User.t * Z) :=
  (kanbanBoard w, userManager w, saved_tasks w, saved_users w).

(** The configuration of the adapter. *)
Definition settings (w : World R) : option string * option Repo.t :=
  (accessToken w, selectedRepo w).

(** The exception a request that did not succeed makes [send] throw. *)
Definition error_of (o : outcome) : option exn :=
  match o with
  | Answered => None
  | Refused status body => Some (failure status body)
  | Broken e => Some e
  end.

(** [served r log r']: from the state [r], the service received the
    requests of [log] in order, answered each as the log says, and ended
    in [r']. *)
Inductive served : R -> list sent -> R -> Prop :=
| served_nil r : served r [] r
| served_cons T r (req : request T) log r' :
    served (server T r req).1 log r' ->
    served r (Sent T req (outcome_of (server T r req).2) :: log) r'.

(** A log of a run that stopped at the first request that failed, with
    [res] what the run gave. *)
Definition stops_at_failure {A} (log : list sent) (res : completion A) : Prop :=
  match res with
  | Return _ => Forall (fun s => answered s = true) log
  | Throw e =>
      Forall (fun s => answered s = true) log
      \/ exists init last,
           log = init ++ [last]
           /\ Forall (fun s => answered s = true) init
           /\ error_of (sent_outcome last) = Some e
  end.

(** What holds of every run of the adapter: the stores and the settings
    are those of the start, the log grows by the requests sent, the
    service has received exactly these, and the run went on only as long
    as requests were answered. *)
Definition disciplined_run {A} (w : World R) (out : World R * completion A)
    : Prop :=
  stores out.1 = stores w
  /\ settings out.1 = settings w
  /\ exists log,
       requests out.1 = requests w ++ log
       /\ served (remote w) log (remote out.1)
       /\ stops_at_failure log out.2.

Definition disciplined {A} (m : M R A) : Prop :=
  forall w, disciplined_run w (m w).

Lemma served_app r1 l1 r2 l2 r3 :
  served r1 l1 r2 -> served r2 l2 r3 -> served r1 (l1 ++ l2) r3.
Proof.
  induction 1; intros H2; simpl; [done |]. constructor. by apply IHserved.
Qed.

Lemma disciplined_ret {A} (a : A) : disciplined (ret a).
Proof.
  intros w. repeat split. exists []. rewrite app_nil_r.
  repeat split; constructor.
Qed.

Lemma disciplined_throw {A} (e : exn) : disciplined (@throw R A e).
Proof.
  intros w. repeat split. exists []. rewrite app_nil_r.
  repeat split; [constructor | left; constructor].
Qed.

Lemma disciplined_lift {A} (c : completion A) : disciplined (@lift R A c).
Proof.
  intros w. repeat split. exists []. rewrite app_nil_r.
  repeat split; [constructor |]. destruct c; simpl; [constructor | left; constructor].
Qed.

Lemma disciplined_read {A} (f : World R -> A) : disciplined (read f).
Proof.
  intros w. repeat split. exists []. rewrite app_nil_r.
  repeat split; constructor.
Qed.

(** An assignment to a field that is neither a store, nor a setting, nor
    the remote side. *)
Definition private_update (f : World R -> World R) : Prop :=
  forall w, stores (f w) = stores w /\ settings (f w) = settings w
            /\ requests (f w) = requests w /\ remote (f w) = remote w.

Lemma disciplined_update f : private_update f -> disciplined (update f).
Proof.
  intros Hf w. destruct (Hf w) as (Hs & Hc & Hr & Hm).
  split; [done | split; [done |]]. exists []. rewrite app_nil_r. simpl.
  rewrite Hm. repeat split; [done | constructor | constructor].
Qed.

Lemma disciplined_bind {A B} (m : M R A) (f : A -> M R B) :
  disciplined m -> (forall a, disciplined (f a)) -> disciplined (bind m f).
Proof.
  intros Hm Hf w. unfold bind. specialize (Hm w).
  destruct (m w) as [w1 [a|e]]; [| exact Hm].
  destruct Hm as (Hs1 & Hc1 & l1 & Hl1 & Hv1 & Ha1). simpl in *.
  specialize (Hf a w1). unfold disciplined_run in *.
  destruct (f a w1) as [w2 res]. destruct Hf as (Hs2 & Hc2 & l2 & Hl2 & Hv2 & Ha2).
  simpl in *. split; [congruence | split; [congruence |]].
  exists (l1 ++ l2). split; [by rewrite Hl2, Hl1, app_assoc |].
  split; [by eapply served_app |].
  destruct res as [b|e]; simpl in *.
  - by apply Forall_app.
  - destruct Ha2 as [Hall | (init & last & -> & Hinit & Herr)].
    + left. by apply Forall_app.
    + right. exists (l1 ++ init), last. rewrite app_assoc.
      repeat split; [by apply Forall_app | done].
Qed.

Lemma disciplined_for_of {A} (l : list A) (body : A -> M R unit) :
  (forall x, disciplined (body x)) -> disciplined (for_of l body).
Proof.
  intros Hb. induction l as [|x l IH]; simpl.
  - apply disciplined_ret.
  - apply disciplined_bind; [apply Hb | intros _; apply IH].
Qed.

(** A handler that sends nothing and throws again what it caught. *)
Definition rethrows {A} (handler : exn -> M R A) : Prop :=
  forall e w,
    (handler e w).2 = Throw e
    /\ stores (handler e w).1 = stores w
    /\ settings (handler e w).1 = settings w
    /\ requests (handler e w).1 = requests w
    /\ remote (handler e w).1 = remote w.

Lemma disciplined_try_catch {A} (m : M R A) handler :
  disciplined m -> rethrows handler -> disciplined (try_catch m handler).
Proof.
  intros Hm Hh w. unfold try_catch, disciplined_run in *. specialize (Hm w).
  destruct (m w) as [w1 [a|e]]; [exact Hm |].
  destruct Hm as (Hs1 & Hc1 & l1 & Hl1 & Hv1 & Ha1). simpl in *.
  destruct (Hh e w1) as (Hres & Hs & Hc & Hr & Hrem).
  destruct (handler e w1) as [w2 res]. simpl in *. subst res.
  split; [congruence | split; [congruence |]].
  exists l1. rewrite Hr, Hrem. done.
Qed.

Lemma disciplined_send {T} (req : request T) : disciplined (send server req).
Proof.
  intros w. unfold send, bind, isAuthenticated, read.
  destruct (has_token w); simpl; [| apply (disciplined_throw _ w)].
  destruct (server T (remote w) req) as [r resp] eqn:E.
  assert (served (remote w) [Sent T req (outcome_of resp)] r) as Hserved.
  { replace resp with (server T (remote w) req).2 by by rewrite E.
    replace r with (server T (remote w) req).1 by by rewrite E.
    repeat constructor. }
  destruct resp as [json|status body|e]; simpl;
    (split; [done | split; [done |]]; eexists; split; [reflexivity |];
     split; [exact Hserved |]).
  - by repeat constructor.
  - right. by exists [], (Sent T req (Refused status body)).
  - right. by exists [], (Sent T req (Broken e)).
Qed.

Lemma disciplined_now : disciplined (now toISOString).
Proof.
  intros w. split; [done | split; [done |]]. exists []. rewrite app_nil_r.
  repeat split; constructor.
Qed.

Lemma private_set_syncStatus s : private_update (set_syncStatus s).
Proof. by intros w. Qed.

Lemma private_set_lastSync s : private_update (set_lastSync s).
Proof. by intros w. Qed.

Lemma private_set_github_last_sync s : private_update (set_github_last_sync s).
Proof. by intros w. Qed.

Lemma private_add_notification n : private_update (add_notification n).
Proof. by intros w. Qed.

Lemma disciplined_showNotification message type :
  disciplined (@showNotification R message type).
Proof. apply disciplined_update, private_add_notification. Qed.

Lemma disciplined_isAuthenticated : disciplined (@isAuthenticated R).
Proof. apply disciplined_read. Qed.

Lemma disciplined_board_tasks : disciplined (@board_tasks R).
Proof.
  apply disciplined_bind; [apply disciplined_read |].
  intros [b|]; [apply disciplined_ret | apply disciplined_throw].
Qed.

Lemma disciplined_getAssigneeLogin a : disciplined (@getAssigneeLogin R a).
Proof.
  unfold getAssigneeLogin.
  destruct (negb (ref_truthy a)); [apply disciplined_ret |].
  destruct (as_username a); [apply disciplined_ret |].
  apply disciplined_bind; [apply disciplined_read |].
  intros [um|]; [| apply disciplined_ret].
  destruct (githubUsername_of _); apply disciplined_ret.
Qed.

Lemma disciplined_getRepoIssues owner repo state :
  disciplined (getRepoIssues server owner repo state).
Proof.
  apply disciplined_bind; [apply disciplined_send | intros; apply disciplined_ret].
Qed.

Lemma disciplined_pushTask repo existing labels task :
  disciplined (pushTask server repo existing labels task).
Proof.
  unfold pushTask. destruct (find _ existing) as [issue|].
  - apply disciplined_bind.
    + destruct (ref_truthy _); [| apply disciplined_ret].
      apply disciplined_bind; [apply disciplined_getAssigneeLogin |].
      intros user. destruct (truthy_strings [user]); apply disciplined_ret.
    + intros assignees. apply disciplined_bind; [apply disciplined_send |].
      intros _. apply disciplined_ret.
  - apply disciplined_bind.
    + destruct (ref_truthy _); [| apply disciplined_ret].
      apply disciplined_bind; [apply disciplined_getAssigneeLogin |].
      intros login. apply disciplined_ret.
    + intros assignees. apply disciplined_bind; [apply disciplined_send |].
      intros _. apply disciplined_ret.
Qed.

Lemma disciplined_pushBoard_try repo :
  disciplined (pushBoard_try server toISOString repo).
Proof.
  unfold pushBoard_try.
  apply disciplined_bind; [apply disciplined_getRepoIssues | intros existingIssues].
  apply disciplined_bind; [apply disciplined_send | intros existingLabels].
  apply disciplined_bind.
  { apply disciplined_for_of. intros status.
    destruct (labelMap_of existingLabels !! status); [apply disciplined_ret |].
    apply disciplined_bind; [apply disciplined_send | intros; apply disciplined_ret]. }
  intros _.
  apply disciplined_bind; [apply disciplined_send | intros updatedLabels].
  apply disciplined_bind; [apply disciplined_board_tasks | intros tasks].
  apply disciplined_bind.
  { apply disciplined_for_of. intros task. apply disciplined_pushTask. }
  intros _.
  apply disciplined_bind; [apply disciplined_update, private_set_syncStatus | intros _].
  apply disciplined_bind; [apply disciplined_now | intros stamp].
  apply disciplined_bind; [apply disciplined_update, private_set_lastSync | intros _].
  apply disciplined_bind;
    [apply disciplined_update, private_set_github_last_sync | intros _].
  apply disciplined_bind; [apply disciplined_board_tasks | intros tasks'].
  apply disciplined_bind; [apply disciplined_showNotification | intros _].
  apply disciplined_ret.
Qed.

Lemma rethrows_handler {A} (what : string) :
  rethrows (fun error : exn =>
              update (set_syncStatus "error") ;;
              showNotification (cat what (exn_message error)) "error" ;;
              @throw R A error).
Proof. by intros e w. Qed.

Lemma disciplined_pushBoard : disciplined (pushBoard server toISOString).
Proof.
  unfold pushBoard, isConnected.
  apply disciplined_bind; [apply disciplined_isAuthenticated | intros connected].
  destruct (negb connected); [apply disciplined_throw |].
  apply disciplined_bind; [apply disciplined_read | intros [repo|]];
    [| apply disciplined_throw].
  apply disciplined_bind; [apply disciplined_update, private_set_syncStatus | intros _].
  apply disciplined_try_catch; [apply disciplined_pushBoard_try |].
  apply rethrows_handler.
Qed.

Lemma disciplined_pullBoard_try repo :
  disciplined (pullBoard_try server toISOString repo).
Proof.
  unfold pullBoard_try.
  apply disciplined_bind; [apply disciplined_getRepoIssues | intros issues].
  apply disciplined_bind; [apply disciplined_lift | intros [tasks nextTaskId]].
  apply disciplined_bind; [apply disciplined_update, private_set_syncStatus | intros _].
  apply disciplined_bind; [apply disciplined_now | intros stamp].
  apply disciplined_bind; [apply disciplined_update, private_set_lastSync | intros _].
  apply disciplined_bind;
    [apply disciplined_update, private_set_github_last_sync | intros _].
  apply disciplined_bind; [apply disciplined_showNotification | intros _].
  apply disciplined_ret.
Qed.

Lemma disciplined_pullBoard : disciplined (pullBoard server toISOString).
Proof.
  unfold pullBoard, isConnected.
  apply disciplined_bind; [apply disciplined_isAuthenticated | intros connected].
  destruct (negb connected); [apply disciplined_throw |].
  apply disciplined_bind; [apply disciplined_read | intros [repo|]];
    [| apply disciplined_throw].
  apply disciplined_bind; [apply disciplined_update, private_set_syncStatus | intros _].
  apply disciplined_try_catch; [apply disciplined_pullBoard_try |].
  apply rethrows_handler.
Qed.

(** In a run that stopped at the first failure, a request that was
    refused is the last one, and the run threw its error. *)
Lemma refused_is_thrown {A} (log : list sent) (res : completion A) s status body :
  stops_at_failure log res ->
  s ∈ log ->
  sent_outcome s = Refused status body ->
  res = Throw (failure status body).
Proof.
  intros Hstop Hin Hout.
  assert (answered s = false) as Hna by (unfold answered; by rewrite Hout).
  assert (forall l, Forall (fun s => answered s = true) l -> s ∉ l) as Hnot.
  { intros l Hall Hl. rewrite Forall_forall in Hall. specialize (Hall s Hl). congruence. }
  destruct res as [a|e]; simpl in Hstop.
  - by destruct (Hnot _ Hstop).
  - destruct Hstop as [Hall | (init & last & -> & Hinit & Herr)].
    + by destruct (Hnot _ Hall).
    + apply elem_of_app in Hin as [Hin | Hin]; [by destruct (Hnot _ Hinit) |].
      apply list_elem_of_singleton in Hin. subst last.
      rewrite Hout in Herr. simpl in Herr. congruence.
Qed.

End Runs.


(* ===================================================================== *)
(** * Runs of a push: what it sends, and how it can fail *)
(* ===================================================================== *)

Section PushRuns.

Context {R : Type} (server : forall T, R -> request T -> R * response T).
Context (toISOString : nat -> string).

(** What [getAssigneeLogin] returns, given [window.userManager]. *)
Definition assignee_login (manager : option UserManager.t) (a : ref)
    : option string :=
  if negb (ref_truthy a) then None
  else
    match as_username a with
    | Some login => Some login
    | None =>
        match manager with
        | Some um => githubUsername_of (getUser (UserManager.users um) a)
        | None => None
        end
    end.

Lemma getAssigneeLogin_run (a : ref) (w : World R) :
  getAssigneeLogin a w = (w, Return (assignee_login (userManager w) a)).
Proof.
  unfold getAssigneeLogin, assignee_login.
  destruct (negb (ref_truthy a)); [done |].
  destruct (as_username a); [done |].
  unfold bind, read. simpl. destruct (userManager w) as [um|]; [| done].
  by destruct (githubUsername_of _).
Qed.

(** The one request that the loop of [pushBoard] sends for a task: the
    update of the first listed issue that has its title, or the creation
    of an issue. *)
Definition task_request (repo : Repo.t) (existingIssues : list Issue.t)
    (newLabelMap : gmap string string) (manager : option UserManager.t)
    (task : Task.t) : request Issue.t :=
  let labels :=
    status_labels newLabelMap (GitHubBoards.getStatusLabel (Task.status task)) in
  let body := GitHubBoards.formatTaskBody task in
  let logins :=
    if ref_truthy (Task.assignee task)
    then truthy_strings [assignee_login manager (Task.assignee task)]
    else [] in
  match find (fun i => String.eqb (Issue.title i) (Task.title task)) existingIssues with
  | Some issue =>
      PATCH_issue (Repo.owner_login repo) (Repo.name repo) (Issue.number issue)
        (Updates.make body labels
           match logins with [] => None | _ => Some logins end)
  | None =>
      POST_issue (Repo.owner_login repo) (Repo.name repo) (Task.title task)
        body labels logins
  end.

Lemma pushTask_run repo existingIssues newLabelMap task (w : World R) :
  pushTask server repo existingIssues newLabelMap task w
  = (send server (task_request repo existingIssues newLabelMap (userManager w) task) ;;
     ret tt) w.
Proof.
  unfold pushTask, task_request.
  destruct (find _ existingIssues) as [issue|].
  - unfold bind at 1. destruct (ref_truthy (Task.assignee task)); [| done].
    unfold bind at 1. rewrite getAssigneeLogin_run.
    by destruct (truthy_strings _).
  - unfold bind at 1. destruct (ref_truthy (Task.assignee task)); [| done].
    unfold bind at 1. by rewrite getAssigneeLogin_run.
Qed.

(** ** Runs that return *)

Lemma bind_inv {A B} (m : M R A) (f : A -> M R B) w w' b :
  bind m f w = (w', Return b) ->
  exists w1 a, m w = (w1, Return a) /\ f a w1 = (w', Return b).
Proof.
  unfold bind. destruct (m w) as [w1 [a|e]]; [| done]. intros H. by exists w1, a.
Qed.

Lemma send_inv {T} (req : request T) (w w' : World R) json :
  send server req w = (w', Return json) ->
  exists r,
    server T (remote w) req = (r, Ok json)
    /\ w' = set_remote_log r (Sent T req Answered) w.
Proof.
  unfold send, bind, isAuthenticated, read. simpl.
  destruct (has_token w); simpl; [| done].
  destruct (server T (remote w) req) as [r [json'|status body|e]]; simpl;
    [| done | done].
  intros [= <- <-]. by exists r.
Qed.

(** The entry of the log for a request that was answered. *)
Definition answered_entry {T} (req : request T) : sent := Sent T req Answered.

(** The state of the service after it has received the requests of a
    log, from the state [r]. *)
Fixpoint received (r : R) (log : list sent) : R :=
  match log with
  | [] => r
  | s :: log' => received (server (sent_type s) r (sent_request s)).1 log'
  end.

Lemma received_app r l1 l2 : received r (l1 ++ l2) = received (received r l1) l2.
Proof. revert r. induction l1 as [|s l1 IH]; intros r; simpl; [done | apply IH]. Qed.

Lemma tasks_loop repo existingIssues newLabelMap (tasks : list Task.t) :
  forall w w' : World R,
    for_of tasks (pushTask server repo existingIssues newLabelMap) w = (w', Return tt) ->
    requests w'
    = requests w
      ++ map (fun task =>
                answered_entry
                  (task_request repo existingIssues newLabelMap (userManager w) task))
           tasks
    /\ userManager w' = userManager w
    /\ kanbanBoard w' = kanbanBoard w.
Proof.
  induction tasks as [|task tasks IH]; intros w w'; cbn [for_of].
  - intros [= <-]. by rewrite app_nil_r.
  - intros (w1 & [] & Hone & Hrest)%bind_inv.
    rewrite pushTask_run in Hone.
    apply bind_inv in Hone as (w2 & json & (r & _ & ->)%send_inv & [= <-]).
    apply IH in Hrest as (-> & -> & ->). cbn [map]. simpl.
    by rewrite <- app_assoc.
Qed.

(** The status labels that the repository lacks. *)
Definition missing_labels (labelMap : gmap string Label.t) : list string :=
  filter (fun status => labelMap !! status = None) statusLabels.

Lemma labels_loop owner name (labelMap : gmap string Label.t) (statuses : list string) :
  forall w w' : World R,
    for_of statuses
      (fun status =>
         match labelMap !! status with
         | None => createLabel server owner name status (label_color status) ;; ret tt
         | Some _ => ret tt
         end) w
    = (w', Return tt) ->
    let creations :=
      map (fun status =>
             answered_entry (POST_label owner name status (label_color status)))
        (filter (fun status => labelMap !! status = None) statuses) in
    requests w' = requests w ++ creations
    /\ remote w' = received (remote w) creations
    /\ userManager w' = userManager w
    /\ kanbanBoard w' = kanbanBoard w.
Proof.
  induction statuses as [|status statuses IH]; intros w w'; cbn [for_of].
  - intros [= <-]. by rewrite app_nil_r.
  - intros (w1 & [] & Hone & Hrest)%bind_inv.
    apply IH in Hrest as (-> & -> & -> & ->).
    destruct (labelMap !! status) as [label|] eqn:El.
    + injection Hone as <-. by rewrite filter_cons_False by (by rewrite El).
    + apply bind_inv in Hone as (w2 & json & (r & Hans & ->)%send_inv & [= <-]).
      rewrite filter_cons_True by done. cbn [map received]. simpl.
      rewrite Hans. by rewrite <- app_assoc.
Qed.

Lemma try_catch_inv {A} (m : M R A) handler w w' a :
  (forall e w0, exists w1 e', handler e w0 = (w1, Throw e')) ->
  try_catch m handler w = (w', Return a) -> m w = (w', Return a).
Proof.
  intros Hh. unfold try_catch. destruct (m w) as [w1 [a'|e]]; [done |].
  destruct (Hh e w1) as (w2 & e' & ->). done.
Qed.

Lemma board_tasks_inv (w w' : World R) tasks :
  board_tasks w = (w', Return tasks) ->
  w' = w /\ exists b, kanbanBoard w = Some b /\ tasks = KanbanBoard.tasks b.
Proof.
  unfold board_tasks, bind, read. simpl. destruct (kanbanBoard w) as [b|]; [| done].
  intros [= <- <-]. split; [done | by exists b].
Qed.

(** The requests of a push that returns, with what the service answered
    to the three listings. *)
Lemma pushBoard_returns (w : World R) (result : PushResult) :
  (pushBoard server toISOString w).2 = Return result ->
  exists repo b issues labels labels' r1 r2 r4,
    selectedRepo w = Some repo
    /\ kanbanBoard w = Some b
    /\ result = mkPushResult true (length (KanbanBoard.tasks b))
    /\ (let owner := Repo.owner_login repo in
        let name := Repo.name repo in
        let existingIssues := filter (fun i => negb (Issue.pull_request i)) issues in
        let creations :=
          map (fun status =>
                 answered_entry (POST_label owner name status (label_color status)))
            (missing_labels (labelMap_of labels)) in
        server _ (remote w) (GET_issues owner name "all" 100) = (r1, Ok issues)
        /\ server _ r1 (GET_labels owner name 100) = (r2, Ok labels)
        /\ server _ (received r2 creations) (GET_labels owner name 100)
           = (r4, Ok labels')
        /\ requests (pushBoard server toISOString w).1
           = requests w
             ++ [answered_entry (GET_issues owner name "all" 100);
                 answered_entry (GET_labels owner name 100)]
             ++ creations
             ++ [answered_entry (GET_labels owner name 100)]
             ++ map (fun task =>
                       answered_entry
                         (task_request repo existingIssues (newLabelMap_of labels')
                            (userManager w) task))
                  (KanbanBoard.tasks b)).
Proof.
  destruct (pushBoard server toISOString w) as [w' res] eqn:E. simpl.
  intros ->. unfold pushBoard in E.
  apply bind_inv in E as (w0 & connected & [= <- <-] & E).
  destruct (negb (has_token w)); [done |].
  apply bind_inv in E as (w0 & repo & [= <- <-] & E).
  destruct (selectedRepo w) as [repo|] eqn:Hrepo; [| done].
  apply bind_inv in E as (w0 & [] & [= <-] & E).
  apply try_catch_inv in E.
  2: { intros e w0. by eexists _, _. }
  unfold pushBoard_try in E.
  apply bind_inv in E as (w1 & existingIssues & Hissues & E).
  apply bind_inv in Hissues as (w1' & issues & (r1 & Hr1 & ->)%send_inv & [= <- <-]).
  apply bind_inv in E as (w2 & labels & (r2 & Hr2 & ->)%send_inv & E).
  apply bind_inv in E as (w3 & [] & Hlabels & E).
  apply labels_loop in Hlabels as (Hlog3 & Hrem3 & Hum3 & Hb3).
  apply bind_inv in E as (w4 & labels' & (r4 & Hr4 & ->)%send_inv & E).
  apply bind_inv in E as (w5 & tasks & [-> (b & Hb & ->)]%board_tasks_inv & E).
  apply bind_inv in E as (w6 & [] & Htasks & E).
  apply tasks_loop in Htasks as (Hlog6 & Hum6 & Hb6).
  apply bind_inv in E as (w7 & [] & [= <-] & E).
  apply bind_inv in E as (w8 & stamp & [= <- <-] & E).
  apply bind_inv in E as (w9 & [] & [= <-] & E).
  apply bind_inv in E as (w10 & [] & [= <-] & E).
  apply bind_inv in E as (w11 & tasks' & [-> (b' & Hb' & ->)]%board_tasks_inv & E).
  apply bind_inv in E as (w12 & [] & [= <-] & [= <- <-]).
  simpl in Hb, Hb', Hb3, Hb6, Hum3, Hum6, Hlog3, Hlog6, Hrem3, Hr1, Hr2, Hr4.
  assert (b' = b) as -> by congruence.
  exists repo, b, issues, labels, labels', r1, r2, r4.
  split; [done |]. split; [congruence |]. split; [done |].
  cbv zeta. split; [exact Hr1 |]. split; [exact Hr2 |].
  split; [unfold missing_labels; by rewrite <- Hrem3 |].
  simpl. rewrite Hlog6, Hlog3, Hum3. simpl.
  unfold missing_labels. by rewrite <- !app_assoc.
Qed.

(** ** Runs that throw

    On a page with a token and a board, the adapter throws only what a
    request throws: the run has sent requests, all answered but the last,
    and the error is the error of the last. *)
Definition fails_by_request {A} (m : M R A) : Prop :=
  forall w e,
    has_token w = true -> is_Some (kanbanBoard w) ->
    (m w).2 = Throw e ->
    exists init last,
      requests (m w).1 = requests w ++ init ++ [last]
      /\ Forall (fun s => answered s = true) init
      /\ error_of (sent_outcome last) = Some e.

Lemma never_throws_fails {A} (m : M R A) :
  (forall w, exists a, (m w).2 = Return a) -> fails_by_request m.
Proof. intros H w e _ _ He. destruct (H w) as (a & Ha). congruence. Qed.

Lemma fails_by_request_bind {A B} (m : M R A) (f : A -> M R B) :
  disciplined server m -> fails_by_request m ->
  (forall a, fails_by_request (f a)) -> fails_by_request (bind m f).
Proof.
  intros Hd Hm Hf w e Htok Hboard. unfold bind.
  specialize (Hd w). specialize (Hm w).
  destruct (m w) as [w1 [a|e']]; simpl in *.
  - destruct Hd as (Hs & Hc & l1 & Hl1 & _ & Hall). simpl in *.
    unfold stores in Hs. unfold settings in Hc.
    injection Hs as Hb _ _ _. injection Hc as Ht _.
    intros He. destruct (Hf a w1 e) as (init & last & Hlog & Hinit & Herr);
      [unfold has_token in *; by rewrite Ht | by rewrite Hb | done |].
    exists (l1 ++ init), last. rewrite Hlog, Hl1, <- !app_assoc.
    split; [done |]. split; [by apply Forall_app | done].
  - intros [= ->]. by apply Hm.
Qed.

Lemma fails_by_request_for_of {A} (l : list A) (body : A -> M R unit) :
  (forall x, disciplined server (body x)) ->
  (forall x, fails_by_request (body x)) -> fails_by_request (for_of l body).
Proof.
  intros Hd Hb. induction l as [|x l IH]; simpl.
  - apply never_throws_fails. intros w. by exists tt.
  - apply fails_by_request_bind; [apply Hd | apply Hb | intros _; apply IH].
Qed.

Lemma fails_by_request_send {T} (req : request T) : fails_by_request (send server req).
Proof.
  intros w e Htok _. unfold send, bind, isAuthenticated, read. rewrite Htok. simpl.
  destruct (server T (remote w) req) as [r [json|status body|e']]; simpl; [done | |].
  - intros [= <-]. by exists [], (Sent T req (Refused status body)).
  - intros [= <-]. by exists [], (Sent T req (Broken e')).
Qed.

Lemma fails_by_request_board_tasks : fails_by_request (@board_tasks R).
Proof.
  intros w e _ [b Hb]. unfold board_tasks, bind, read. simpl. by rewrite Hb.
Qed.

Lemma fails_by_request_pushTask repo existing labels task :
  fails_by_request (pushTask server repo existing labels task).
Proof.
  intros w e Htok Hboard. rewrite pushTask_run.
  apply fails_by_request_bind; [apply disciplined_send | apply fails_by_request_send |
                                | done | done].
  intros _. apply never_throws_fails. intros w0. by exists tt.
Qed.

Lemma fails_by_request_pushBoard_try repo :
  fails_by_request (pushBoard_try server toISOString repo).
Proof.
  unfold pushBoard_try.
  apply fails_by_request_bind; [apply disciplined_getRepoIssues | | intros existingIssues].
  { apply fails_by_request_bind; [apply disciplined_send | apply fails_by_request_send |].
    intros issues. apply never_throws_fails. intros w. by eexists. }
  apply fails_by_request_bind; [apply disciplined_send | apply fails_by_request_send |].
  intros existingLabels.
  apply fails_by_request_bind.
  { apply disciplined_for_of. intros status.
    destruct (labelMap_of existingLabels !! status); [apply disciplined_ret |].
    apply disciplined_bind; [apply disciplined_send | intros; apply disciplined_ret]. }
  { apply fails_by_request_for_of; intros status;
      destruct (labelMap_of existingLabels !! status).
    - apply disciplined_ret.
    - apply disciplined_bind; [apply disciplined_send | intros; apply disciplined_ret].
    - apply never_throws_fails. intros w. by exists tt.
    - apply fails_by_request_bind; [apply disciplined_send | apply fails_by_request_send |].
      intros _. apply never_throws_fails. intros w. by exists tt. }
  intros _.
  apply fails_by_request_bind; [apply disciplined_send | apply fails_by_request_send |].
  intros updatedLabels.
  apply fails_by_request_bind;
    [apply disciplined_board_tasks | apply fails_by_request_board_tasks | intros tasks].
  apply fails_by_request_bind.
  { apply disciplined_for_of. intros task. apply disciplined_pushTask. }
  { apply fails_by_request_for_of; intros task;
      [apply disciplined_pushTask | apply fails_by_request_pushTask]. }
  intros _.
  apply fails_by_request_bind;
    [apply disciplined_update, private_set_syncStatus
    | apply never_throws_fails; intros w; by exists tt | intros _].
  apply fails_by_request_bind;
    [apply disciplined_now | apply never_throws_fails; intros w; by eexists
    | intros stamp].
  apply fails_by_request_bind;
    [apply disciplined_update, private_set_lastSync
    | apply never_throws_fails; intros w; by exists tt | intros _].
  apply fails_by_request_bind;
    [apply disciplined_update, private_set_github_last_sync
    | apply never_throws_fails; intros w; by exists tt | intros _].
  apply fails_by_request_bind;
    [apply disciplined_board_tasks | apply fails_by_request_board_tasks | intros tasks'].
  apply fails_by_request_bind;
    [apply disciplined_showNotification
    | apply never_throws_fails; intros w; by exists tt | intros _].
  apply never_throws_fails. intros w. by eexists.
Qed.

(** A push from a page with a token, a repository and a board throws
    only the error of a request that the service did not answer, the
    last it sent. *)
Lemma pushBoard_connected (w : World R) repo :
  has_token w = true -> selectedRepo w = Some repo ->
  pushBoard server toISOString w
  = try_catch (pushBoard_try server toISOString repo)
      (fun error =>
         update (set_syncStatus "error") ;;
         showNotification (cat "Push failed: " (exn_message error)) "error" ;;
         throw error)
      (set_syncStatus "syncing" w).
Proof.
  intros Htok Hrepo. unfold pushBoard, isConnected, isAuthenticated.
  unfold bind at 1. unfold read at 1. rewrite Htok. cbn [negb].
  unfold bind at 1. unfold read at 1. by rewrite Hrepo.
Qed.

Lemma pushBoard_fails_by_request (w : World R) repo e :
  has_token w = true -> selectedRepo w = Some repo -> is_Some (kanbanBoard w) ->
  (pushBoard server toISOString w).2 = Throw e ->
  exists init last,
    requests (pushBoard server toISOString w).1 = requests w ++ init ++ [last]
    /\ Forall (fun s => answered s = true) init
    /\ error_of (sent_outcome last) = Some e.
Proof.
  intros Htok Hrepo Hboard. rewrite (pushBoard_connected w repo Htok Hrepo).
  unfold try_catch.
  pose proof (fails_by_request_pushBoard_try repo (set_syncStatus "syncing" w)) as Hf.
  destruct (pushBoard_try server toISOString repo (set_syncStatus "syncing" w))
    as [w1 [result|e']] eqn:E; [done |].
  intros [= ->].
  destruct (Hf e Htok Hboard eq_refl) as (init & last & Hlog & Hinit & Herr).
  exists init, last. split; [exact Hlog | done].
Qed.

End PushRuns.

(* ===================================================================== *)
(** * Properties of push and pull *)
(* ===================================================================== *)

(** The errors of the two guards, as the exceptions the code throws for
    them. *)
Definition Unauthenticated : exn := Error "Not connected to GitHub".
Definition RepositoryNotSelected : exn := Error "No repository selected".

(** A service that refuses every request with the given status and
    body. *)
Definition refusing (status : Z) (body : option value)
    (T : Type) (r : unit) (req : request T) : unit * response T :=
  (r, Failed status body).

(** A body with a message, as the tracker sends it with a refusal. *)
Definition with_message (message : string) : option value :=
  Some (VObj [("message", VStr message)]).

(** A page connected to a repository, with a board and no users yet. *)
Definition connected_page {R} (r : R) (tasks : list Task.t) (users : list User.t)
    : World R :=
  mkWorld r [] (Some "ghp_token") (Some (Repo.make "purna" "pixelKanban"))
    "idle" None None [] [] 0
    (Some (KanbanBoard.make tasks (1 + Z.of_nat (length tasks))))
    (Some (UserManager.make users (1 + Z.of_nat (length users))))
    None None.

Definition without_token {R} (w : World R) : World R :=
  mkWorld (remote w) (requests w) None (selectedRepo w) (syncStatus w)
    (lastSync w) (github_last_sync w) (notifications w) (status_line w)
    (clock w) (kanbanBoard w) (userManager w) (saved_tasks w) (saved_users w).

Definition without_repo {R} (w : World R) : World R :=
  mkWorld (remote w) (requests w) (accessToken w) None (syncStatus w)
    (lastSync w) (github_last_sync w) (notifications w) (status_line w)
    (clock w) (kanbanBoard w) (userManager w) (saved_tasks w) (saved_users w).

Section Failures.

Context {R : Type} (server : forall T, R -> request T -> R * response T).
Context (toISOString : nat -> string).

(** What [request] throws for a refusal whose body is not [null]: an
    [Error] with the message of the body as a string when the body has
    a truthy one, and with the status in a fixed text otherwise. *)
Lemma failure_not_null status body :
  body <> Some VNull -> body <> Some VUndefined ->
  exists message,
    get (default (VObj []) body) "message" = Return message
    /\ failure status body
       = Error (if truthy message then toString message
                else cat "GitHub API error: " (string_of_Z status)).
Proof.
  intros Hnull Hundef. unfold failure.
  destruct body as [[| |b|n|str|xs|props]|]; try done; simpl;
    eexists; (split; [reflexivity |]); unfold or_else; by case_match.
Qed.


(** C9. Whatever the service answers, a push leaves the task store and
    the user store, in memory and as saved, as they were.  The requests
    it sent are exactly what the service received; it went on only while
    requests were answered, and when one failed it threw the error of
    that request and sent nothing after it, so what the service had
    already written stays written. *)
Theorem pushBoard_leaves_stores (w : World R) :
  kanbanBoard (pushBoard server toISOString w).1 = kanbanBoard w
  /\ userManager (pushBoard server toISOString w).1 = userManager w
  /\ saved_tasks (pushBoard server toISOString w).1 = saved_tasks w
  /\ saved_users (pushBoard server toISOString w).1 = saved_users w
  /\ exists log,
       requests (pushBoard server toISOString w).1 = requests w ++ log
       /\ served server (remote w) log (remote (pushBoard server toISOString w).1)
       /\ stops_at_failure log (pushBoard server toISOString w).2.
Proof.
  destruct (disciplined_pushBoard server toISOString w) as (Hs & _ & Hlog).
  unfold stores in Hs. injection Hs as -> -> -> ->. done.
Qed.

End Failures.

(** A clock for the examples. *)
Definition fixed_clock (n : nat) : string := "2024-05-01T10:00:00.000Z".



Section Assignees.

Context {R : Type} (server : forall T, R -> request T -> R * response T).
Context (toISOString : nat -> string).

(** The assignee is a numeric id: a number, or a string of digits. *)
Definition numeric_id (a : ref) : Prop :=
  match a with
  | RefNum _ => True
  | RefStr s => all_digits s = true
  end.

(** No user of the page whose id is equal ([==]) to the number that [a]
    stands for has a [githubUsername]. *)
Definition no_login_for (w : World R) (a : ref) : Prop :=
  forall um u,
    userManager w = Some um ->
    u ∈ UserManager.users um ->
    loosely_equal (User.id u) (id_number a) = true ->
    githubUsername_of (Some u) = None.

(** The request that pushes [task] with no assignee: an update of the
    issue that has its title, with no [assignees] key, or a new issue with
    an empty list of assignees. *)
Definition request_without_assignee (repo : Repo.t) (existingIssues : list Issue.t)
    (newLabelMap : gmap string string) (task : Task.t) : request Issue.t :=
  let labels :=
    status_labels newLabelMap (GitHubBoards.getStatusLabel (Task.status task)) in
  let body := GitHubBoards.formatTaskBody task in
  match find (fun i => String.eqb (Issue.title i) (Task.title task)) existingIssues with
  | Some issue =>
      PATCH_issue (Repo.owner_login repo) (Repo.name repo) (Issue.number issue)
        (Updates.make body labels None)
  | None =>
      POST_issue (Repo.owner_login repo) (Repo.name repo) (Task.title task)
        body labels []
  end.

Lemma find_some_elem {A} (f : A -> bool) (l : list A) x :
  find f l = Some x -> x ∈ l /\ f x = true.
Proof.
  intros H. apply find_some in H as [Hin Hf]. split; [by apply list_elem_of_In | done].
Qed.

Lemma assignee_login_unresolved (w : World R) (a : ref) :
  numeric_id a -> no_login_for w a -> assignee_login (userManager w) a = None.
Proof.
  intros Hnum Hno. unfold assignee_login.
  destruct (negb (ref_truthy a)); [done |].
  assert (as_username a = None) as ->.
  { destruct a as [s|n]; simpl in *; [by rewrite Hnum | done]. }
  destruct (userManager w) as [um|] eqn:Eum; [| done].
  unfold getUser. destruct (find _ _) as [u|] eqn:Ef; [| done].
  apply find_some_elem in Ef as [Hin Hid]. by apply (Hno um u).
Qed.

Lemma task_request_unresolved (w : World R) repo existingIssues newLabelMap task :
  numeric_id (Task.assignee task) -> no_login_for w (Task.assignee task) ->
  task_request repo existingIssues newLabelMap (userManager w) task
  = request_without_assignee repo existingIssues newLabelMap task.
Proof.
  intros Hnum Hno. unfold task_request, request_without_assignee.
  rewrite (assignee_login_unresolved w _ Hnum Hno).
  by destruct (ref_truthy _).
Qed.

(** What the log says of a request is what the service answered. *)
Lemma served_outcome r log r' s :
  served server r log r' -> s ∈ log ->
  exists r0, sent_outcome s
             = outcome_of (server (sent_type s) r0 (sent_request s)).2.
Proof.
  induction 1 as [|T r req log r' Hserved IH]; intros Hin.
  - by apply elem_of_nil in Hin.
  - apply elem_of_cons in Hin as [-> | Hin]; [by exists r | by apply IH].
Qed.


End Assignees.

(** A task assigned to the local user 7, who has no tracker account. *)
Definition task_for_ann : Task.t :=
  Task.make 1 "Fix login bug" (VStr "Login fails") "todo" (VStr "high")
    (RefStr "7") (VStr "") (VArr []) (VArr []) "2024-04-30T08:00:00.000Z"
    "2024-04-30T08:00:00.000Z" None None.

Definition ann : User.t :=
  User.make (RefNum 7) "Ann" "ann@example.org" "developer" None.


Section Pull.

Context {R : Type} (server : forall T, R -> request T -> R * response T).
Context (toISOString : nat -> string).

Import GitHubBoards.

Lemma send_answered {T} (req : request T) (w : World R) r json :
  has_token w = true ->
  server T (remote w) req = (r, Ok json) ->
  send server req w = (set_remote_log r (Sent T req Answered) w, Return json).
Proof.
  intros Htok Hans. unfold send, isAuthenticated, bind, read.
  rewrite Htok. simpl. by rewrite Hans.
Qed.

Lemma read_value_defined fuel s v r :
  read_value fuel s = Some (v, r) -> v <> VUndefined.
Proof.
  destruct fuel; simpl; [done |]. unfold expect.
  intros H. repeat case_match; simplify_eq; done.
Qed.

Lemma parseTaskBody_defined body : parseTaskBody body <> Return VUndefined.
Proof.
  destruct body as [body|]; simpl; [| done].
  destruct (String.eqb body ""); [done |].
  unfold parseTaskBody_try. destruct (metadata_match body) as [text|]; simpl; [| done].
  unfold JSON_parse, parse_text.
  destruct (read_value _ text) as [[v r]|] eqn:E; simpl; [| done].
  destruct (skip_ws r); simpl; [| done].
  apply read_value_defined in E. congruence.
Qed.

(** The metadata of the issue does not decode to [null]. *)
Definition decodable (issue : Issue.t) : Prop :=
  parseTaskBody (Issue.body issue) <> Return VNull.

Lemma get_returns v k :
  v <> VNull -> v <> VUndefined -> exists x, get v k = Return x.
Proof. destruct v; simpl; intros; by eauto. Qed.

Lemma task_of_issue_returns issue id :
  decodable issue ->
  exists t, task_of_issue issue id = Return t
            /\ Task.id t = id /\ Task.title t = Issue.title issue.
Proof.
  intros Hd. unfold task_of_issue.
  destruct (parseTaskBody_returns (Issue.body issue)) as (v & Hv).
  pose proof (parseTaskBody_defined (Issue.body issue)) as Hu.
  unfold decodable in Hd. rewrite Hv in *. simpl.
  assert (v <> VNull) as Hn by congruence.
  assert (v <> VUndefined) as Hu' by congruence.
  destruct (get_returns v "description" Hn Hu') as (x1 & ->).
  destruct (get_returns v "priority" Hn Hu') as (x2 & ->).
  destruct (get_returns v "dueDate" Hn Hu') as (x3 & ->).
  destruct (get_returns v "comments" Hn Hu') as (x4 & ->).
  destruct (get_returns v "attachments" Hn Hu') as (x5 & ->).
  simpl. by eexists.
Qed.

(** The integers [n], [n + 1], ..., [n + len - 1]. *)
Fixpoint count_from (n : Z) (len : nat) : list Z :=
  match len with
  | 0 => []
  | S len' => n :: count_from (n + 1)%Z len'
  end.

(** [n++] adds one where the sum is a safe integer. *)
Lemma increment_exact n : is_safe_integer (n + 1) = true -> increment n = (n + 1)%Z.
Proof. intros Hn. unfold increment. by rewrite (of_Z_safe _ Hn). Qed.

Lemma pull_loop_spec issues acc n :
  Forall decodable issues ->
  is_safe_integer n = true ->
  is_safe_integer (n + Z.of_nat (length issues)) = true ->
  exists tasks,
    pull_loop issues acc n = Return (acc ++ tasks, (n + Z.of_nat (length issues))%Z)
    /\ map Task.id tasks = count_from n (length issues)
    /\ map Task.title tasks = map Issue.title issues.
Proof.
  intros Hall. revert acc n.
  induction Hall as [|issue issues Hd Hall IH]; intros acc n Hlo Hhi; simpl.
  - exists []. by rewrite app_nil_r, Z.add_0_r.
  - apply is_safe_integer_spec in Hlo. apply is_safe_integer_spec in Hhi.
    cbn [length] in Hhi.
    destruct (task_of_issue_returns issue n Hd) as (t & -> & Hid & Htitle). simpl.
    rewrite increment_exact by (apply is_safe_integer_spec; lia).
    destruct (IH (acc ++ [t]) (n + 1)%Z) as (tasks & -> & Hids & Htitles);
      [apply is_safe_integer_spec; lia | apply is_safe_integer_spec; lia |].
    exists (t :: tasks). rewrite <- app_assoc. simpl.
    split; [do 2 f_equal; lia |]. by rewrite Hid, Htitle, Hids, Htitles.
Qed.

(** When the listing of the issues is answered and no issue carries
    [null] as metadata, [pullBoard] returns as many tasks as there are
    issues that are not pull requests, in the order of the issues, with
    the ids 1, 2, ..., n and [nextTaskId] n + 1; the tasks are computed
    from the issues alone.  The handler of the pull button then makes
    them the task list of the board, in place of whatever it held, and
    saves them.  The issues are fewer than [2^53 - 1], as the entries of
    an array are, so that [nextTaskId++] adds one each time. *)
Lemma pull_replaces_with_fresh_ids (w : World R) (repo : Repo.t)
    (listing : list Issue.t) (r : R) :
  has_token w = true ->
  selectedRepo w = Some repo ->
  server _ (remote w) (GET_issues (Repo.owner_login repo) (Repo.name repo) "all" 100)
  = (r, Ok listing) ->
  Forall decodable (filter (fun i => negb (Issue.pull_request i)) listing) ->
  is_safe_integer
    (1 + Z.of_nat (length (filter (fun i => negb (Issue.pull_request i)) listing)))
  = true ->
  let issues := filter (fun i => negb (Issue.pull_request i)) listing in
  let n := Z.of_nat (length issues) in
  exists tasks,
    pull_loop issues [] 1 = Return (tasks, (1 + n)%Z)
    /\ (pullBoard server toISOString w).2 = Return (mkPullResult true tasks (1 + n))
    /\ map Task.id tasks = count_from 1 (length issues)
    /\ map Task.title tasks = map Issue.title issues
    /\ (forall board,
          kanbanBoard w = Some board ->
          kanbanBoard (pull_click server toISOString w).1
          = Some (KanbanBoard.make tasks (1 + n))
          /\ saved_tasks (pull_click server toISOString w).1
             = Some (tasks, (1 + n)%Z)).
Proof.
  intros Htok Hrepo Hans Hall Hsafe issues n.
  destruct (pull_loop_spec issues [] 1 Hall eq_refl Hsafe)
    as (tasks & Hloop & Hids & Htitles).
  simpl in Hloop. fold n in Hloop.
  exists tasks. split; [exact Hloop |].
  assert (exists w',
            pullBoard server toISOString w
            = (w', Return (mkPullResult true tasks (1 + n)))
            /\ kanbanBoard w' = kanbanBoard w) as (w' & Hpull & Hboard).
  { unfold pullBoard, isConnected, isAuthenticated.
    unfold bind at 1. unfold read at 1. rewrite Htok. simpl.
    unfold bind at 1. unfold read at 1. rewrite Hrepo.
    unfold bind at 1. unfold update at 1.
    unfold try_catch, pullBoard_try, getRepoIssues.
    unfold bind at 1. unfold bind at 1.
    rewrite (send_answered _ _ r listing); [| exact Htok | exact Hans].
    unfold ret at 1. unfold bind at 1. unfold lift. fold issues. rewrite Hloop.
    eexists. split; [reflexivity | reflexivity]. }
  split; [by rewrite Hpull |]. split; [exact Hids |]. split; [exact Htitles |].
  intros board Hb.
  assert (pull_click server toISOString w
          = (set_saved_tasks (Some (tasks, (1 + n)%Z))
               (set_kanbanBoard (Some (KanbanBoard.make tasks (1 + n))) w'),
             Return tt)) as ->; [| done].
  unfold pull_click, try_catch, bind. rewrite Hpull.
  unfold read. rewrite Hboard, Hb. reflexivity.
Qed.

End Pull.

(** A tracker with two issues and a pull request between them; the board
    of the page holds a task that was never pushed. *)
Definition small_tracker : Tracker.t :=
  Tracker.make
    [Issue.make 12 "Fix login bug" (Some "Login fails")
       [Label.make "to do" "0e7a86"] [] false "" "" "";
     Issue.make 13 "Refactor sync" None [] [] true "" "" "";
     Issue.make 15 "Write docs" None [Label.make "Done" "3fb950"]
       [Account.make "octocat"] false "" "" ""]
    [] 16.

Definition local_only_task : Task.t :=
  Task.make 41 "Never pushed" (VStr "") "backlog" (VStr "low") (RefStr "")
    (VStr "") (VArr []) (VArr []) "" "" None None.

Example pull_replaces_with_fresh_ids_run :
  let w := connected_page small_tracker [local_only_task] [] in
  exists tasks,
    (pullBoard Tracker.handle fixed_clock w).2 = Return (mkPullResult true tasks 3)
    /\ map Task.id tasks = [1; 2]%Z
    /\ map Task.title tasks = ["Write docs"; "Fix login bug"]
    /\ kanbanBoard (pull_click Tracker.handle fixed_clock w).1
       = Some (KanbanBoard.make tasks 3).
Proof.
  intros w.
  destruct (pull_replaces_with_fresh_ids Tracker.handle fixed_clock w
              (Repo.make "purna" "pixelKanban") (reverse (Tracker.issues small_tracker))
              small_tracker eq_refl eq_refl eq_refl)
    as (tasks & _ & Hres & Hids & Htitles & Hboard).
  - repeat constructor; discriminate.
  - reflexivity.
  - exists tasks. split; [exact Hres |]. split; [exact Hids |].
    split; [exact Htitles |].
    exact (proj1 (Hboard _ eq_refl)).
Qed.

(** A tracker with two issues; someone has written [null] where the
    metadata of the second one goes. *)
Definition odd_tracker : Tracker.t :=
  Tracker.make
    [Issue.make 12 "Fix login bug" (Some "Login fails")
       [Label.make "to do" "0e7a86"] [] false "" "" "";
     Issue.make 14 "Write docs"
       (Some (cat GitHubBoards.metadata_open
                (cat "null" GitHubBoards.metadata_close)))
       [Label.make "Done" "3fb950"] [] false "" "" ""]
    [] 16.

(** C3, at [odd_tracker].  The block of the second issue is JSON, so
    [parseTaskBody] returns what it denotes, [null], and
    [pullBoard] throws a [TypeError] where it reads
    [taskData.description]: it returns no task for either issue.  The
    handler of the pull button shows the failure and leaves the board as
    it was. *)
Theorem pull_fails_on_null_metadata :
  let w := connected_page odd_tracker [local_only_task] [] in
  GitHubBoards.parseTaskBody
    (Some (cat GitHubBoards.metadata_open (cat "null" GitHubBoards.metadata_close)))
  = Return VNull
  /\ (pullBoard Tracker.handle fixed_clock w).2
     = Throw (TypeError "Cannot read properties of null (reading 'description')")
  /\ kanbanBoard (pull_click Tracker.handle fixed_clock w).1 = kanbanBoard w
  /\ status_line (pull_click Tracker.handle fixed_clock w).1
     = [("Pull failed: Cannot read properties of null (reading 'description')",
         "error")].
Proof. by vm_compute. Qed.

(* ===================================================================== *)
(** * Deleting a user *)
(* ===================================================================== *)

#[global] Instance ref_eq_dec : EqDecision ref.
Proof. solve_decision. Defined.

(** [===] on ids is equality. *)
Lemma strictly_equal_spec (a b : ref) : strictly_equal a b = true <-> a = b.
Proof.
  destruct a as [s|n], b as [s'|n']; simpl; try done.
  - rewrite String.eqb_eq. split; congruence.
  - rewrite Z.eqb_eq. split; congruence.
Qed.

(** The task is assigned to the user [id], as [getUserAssignedTasks]
    sees it: its [assignee] and [id] read as the same number. *)
Definition assigned_to (id : ref) (t : Task.t) : Prop :=
  same_number (id_number (Task.assignee t)) (id_number id) = true.

#[global] Instance assigned_to_dec id t : Decision (assigned_to id t).
Proof. unfold assigned_to. apply _. Defined.

Section DeleteUser.

Context {R : Type}.
Context (toISOString : nat -> string) (confirm : string -> bool).

(** What [updateTask(id, { assignee: '' })] makes of a task at the time
    [stamp]. *)
Definition unassigned (stamp : string) (t : Task.t) : Task.t :=
  set_updatedAt stamp (set_assignee (RefStr "") t).

Lemma unassigned_twice s1 s2 t : unassigned s2 (unassigned s1 t) = unassigned s2 t.
Proof. done. Qed.

Lemma unassigned_id s t : Task.id (unassigned s t) = Task.id t.
Proof. done. Qed.

(** With unique ids, updating the first task that has the id is updating
    the task that has the id. *)
Lemma assign_first_map id f tasks :
  NoDup (map Task.id tasks) ->
  assign_first id f tasks
  = map (fun t => if (Task.id t =? id)%Z then f t else t) tasks.
Proof.
  induction tasks as [|t tasks IH]; simpl; [done |].
  intros Hnd. apply NoDup_cons in Hnd as [Hnotin Hnd].
  destruct (Task.id t =? id)%Z eqn:E.
  - f_equal. apply Z.eqb_eq in E. subst id.
    rewrite <- (map_id tasks) at 1. apply map_ext_in. intros t' Hin.
    destruct (Task.id t' =? Task.id t)%Z eqn:E'; [| done].
    apply Z.eqb_eq in E'. exfalso. apply Hnotin. rewrite <- E'.
    apply list_elem_of_In, in_map, Hin.
  - f_equal. by apply IH.
Qed.

Lemma find_id_some id tasks :
  id ∈ map Task.id tasks ->
  exists t, find (fun t => (Task.id t =? id)%Z) tasks = Some t.
Proof.
  induction tasks as [|t tasks IH]; simpl.
  - by intros ?%elem_of_nil.
  - intros [-> | Hin]%elem_of_cons.
    + rewrite Z.eqb_refl. eauto.
    + destruct (Task.id t =? id)%Z; eauto.
Qed.

(** The state of the page after the loop of [deleteUser] went through the
    tasks [todo]. *)
Lemma unassign_loop (todo : list Task.t) :
  forall (w : World R) tasks next,
    kanbanBoard w = Some (KanbanBoard.make tasks next) ->
    NoDup (map Task.id tasks) ->
    (forall a, a ∈ todo -> Task.id a ∈ map Task.id tasks) ->
    exists w' tasks',
      for_of todo
        (fun task =>
           let* board := read kanbanBoard in
           match board with
           | Some _ => updateTask toISOString (Task.id task) (set_assignee (RefStr ""))
           | None => ret tt
           end) w
      = (w', Return tt)
      /\ kanbanBoard w' = Some (KanbanBoard.make tasks' next)
      /\ userManager w' = userManager w
      /\ Forall2 (fun t t' =>
                    if bool_decide (Task.id t ∈ map Task.id todo)
                    then exists stamp, t' = unassigned stamp t
                    else t' = t) tasks tasks'.
Proof.
  induction todo as [|a todo IH]; intros w tasks next Hb Hnd Hsub.
  - exists w, tasks. cbn [for_of]. split; [done | split; [done | split; [done |]]].
    apply Forall2_same_length_lookup. split; [done |].
    intros i t t' H1 H2. rewrite bool_decide_eq_false_2; [congruence |].
    by intros ?%elem_of_nil.
  - cbn [for_of].
    destruct (find_id_some (Task.id a) tasks) as (t0 & Hfind).
    { apply Hsub. by left. }
    set (stamp := toISOString (clock w)).
    set (tasks1 := assign_first (Task.id a)
                     (fun t => set_updatedAt stamp (set_assignee (RefStr "") t)) tasks).
    set (w1 := set_saved_tasks (Some (tasks1, next))
                 (set_kanbanBoard (Some (KanbanBoard.make tasks1 next)) (tick w))).
    assert ((let* board := read kanbanBoard in
             match board with
             | Some _ => updateTask toISOString (Task.id a) (set_assignee (RefStr ""))
             | None => ret tt
             end) w = (w1, Return tt)) as Hstep.
    { unfold updateTask, saveTasks, renderBoard, now, update, bind, read, ret.
      do 2 (rewrite Hb; cbn [KanbanBoard.tasks KanbanBoard.nextTaskId]).
      rewrite Hfind. reflexivity. }
    assert (tasks1 = map (fun t => if (Task.id t =? Task.id a)%Z
                                   then unassigned stamp t else t) tasks) as Htasks1.
    { unfold tasks1. by rewrite assign_first_map. }
    assert (map Task.id tasks1 = map Task.id tasks) as Hids.
    { rewrite Htasks1, map_map. apply map_ext. intros t.
      by destruct (Task.id t =? Task.id a)%Z. }
    destruct (IH w1 tasks1 next) as (w' & tasks' & Hrun & Hb' & Hu' & Hrel).
    { done. }
    { by rewrite Hids. }
    { intros b Hin. rewrite Hids. apply Hsub. by right. }
    exists w', tasks'. unfold bind at 1. rewrite Hstep, Hrun.
    split; [done | split; [done | split; [done |]]].
    rewrite Htasks1 in Hrel. apply Forall2_fmap_l in Hrel.
    eapply Forall2_impl; [exact Hrel |]. intros t t' Ht. simpl in Ht.
    cbn [map]. destruct (Task.id t =? Task.id a)%Z eqn:E.
    + rewrite bool_decide_eq_true_2;
        [| apply elem_of_cons; left; by apply Z.eqb_eq].
      rewrite unassigned_id in Ht. case_bool_decide.
      * destruct Ht as (s & ->). by exists s.
      * by exists stamp.
    + apply Z.eqb_neq in E.
      destruct (bool_decide (Task.id t ∈ map Task.id todo)) eqn:Ed.
      * rewrite bool_decide_eq_true_2; [done |]. apply elem_of_cons. right.
        by apply bool_decide_eq_true_1 in Ed.
      * rewrite bool_decide_eq_false_2; [done |].
        apply bool_decide_eq_false_1 in Ed.
        intros [Heq | Hin]%elem_of_cons; [congruence | done].
Qed.

Lemma assignedTasks_filter id (tasks : list Task.t) :
  filter (fun task => same_number (id_number (Task.assignee task)) (id_number id))
    tasks
  = filter (assigned_to id) tasks.
Proof. apply list_filter_iff. intros t. by rewrite Is_true_true. Qed.

Lemma remaining_users_filter id (users : list User.t) :
  filter (fun u => negb (strictly_equal (User.id u) id)) users
  = filter (fun u => User.id u <> id) users.
Proof.
  apply list_filter_iff. intros u. rewrite Is_true_true, negb_true_iff.
  rewrite <- strictly_equal_spec. by destruct (strictly_equal _ _).
Qed.

(** With unique ids, a task of the list has the id of an assigned task
    exactly when it is assigned itself. *)
Lemma id_among_assigned id tasks t :
  NoDup (map Task.id tasks) -> t ∈ tasks ->
  Task.id t ∈ map Task.id (filter (assigned_to id) tasks) <-> assigned_to id t.
Proof.
  intros Hnd Hin. split.
  - intros Hid. apply list_elem_of_In, in_map_iff in Hid as (a & Heq & Ha).
    apply list_elem_of_In, list_elem_of_filter in Ha as [Hass Ha].
    assert (a = t) as <-; [| done].
    clear Hass. induction tasks as [|x tasks IH]; [by apply elem_of_nil in Hin |].
    simpl in Hnd. apply NoDup_cons in Hnd as [Hx Hnd].
    assert (forall y, y ∈ tasks -> Task.id y ∈ map Task.id tasks) as Hmem.
    { intros y Hy. apply list_elem_of_In, in_map. by apply list_elem_of_In. }
    apply elem_of_cons in Hin as [-> | Hin]; apply elem_of_cons in Ha as [-> | Ha].
    + done.
    + exfalso. apply Hx. rewrite <- Heq. by apply Hmem.
    + exfalso. apply Hx. rewrite Heq. by apply Hmem.
    + by apply IH.
  - intros Hass. apply list_elem_of_In, in_map, list_elem_of_In.
    by apply list_elem_of_filter.
Qed.

(** What [deleteUser] does when the ids of the tasks are unique and the
    user confirms: it returns [true]; every task whose assignee reads as
    the same number as [id] is unassigned, its [assignee] the empty
    string and its [updatedAt] the time of the update, and every other
    task is unchanged, the order kept; and the users that are left are
    those whose id is not [id] itself, in type and in value. *)
Lemma user_deletion_cascade (w : World R) (id : ref) (tasks : list Task.t)
    (next : Z) (um : UserManager.t) :
  kanbanBoard w = Some (KanbanBoard.make tasks next) ->
  userManager w = Some um ->
  NoDup (map Task.id tasks) ->
  confirm (deletion_prompt (length (filter (assigned_to id) tasks))) = true ->
  exists w' tasks',
    deleteUser toISOString confirm id w = (w', Return true)
    /\ kanbanBoard w' = Some (KanbanBoard.make tasks' next)
    /\ userManager w'
       = Some (UserManager.make
                 (filter (fun u => User.id u <> id) (UserManager.users um))
                 (UserManager.nextUserId um))
    /\ Forall2 (fun t t' =>
                  if decide (assigned_to id t)
                  then exists stamp, t' = unassigned stamp t
                  else t' = t) tasks tasks'.
Proof.
  intros Hb Hu Hnd Hyes.
  set (assignedTasks := filter (assigned_to id) tasks).
  assert (getUserAssignedTasks id w = (w, Return assignedTasks)) as Hget.
  { unfold getUserAssignedTasks, bind, read, ret. rewrite Hb.
    cbn [KanbanBoard.tasks]. by rewrite assignedTasks_filter. }
  destruct (unassign_loop assignedTasks w tasks next Hb Hnd)
    as (w1 & tasks1 & Hloop & Hb1 & Hu1 & Hrel).
  { intros a [_ Ha]%list_elem_of_filter.
    apply list_elem_of_In, in_map. by apply list_elem_of_In. }
  assert (Forall2 (fun t t' =>
                     if decide (assigned_to id t)
                     then exists stamp, t' = unassigned stamp t
                     else t' = t) tasks tasks1) as Hrel'.
  { apply Forall2_same_length_lookup. split; [by eapply Forall2_length |].
    intros i t t' Ht Ht'.
    pose proof (Forall2_lookup_lr _ _ _ _ _ _ Hrel Ht Ht') as Hi. simpl in Hi.
    pose proof (id_among_assigned id tasks t Hnd (list_elem_of_lookup_2 _ _ _ Ht)) as Hiff.
    fold assignedTasks in Hiff.
    destruct (decide (assigned_to id t)) as [Hass|Hass].
    - rewrite bool_decide_eq_true_2 in Hi; [done | by apply Hiff].
    - rewrite bool_decide_eq_false_2 in Hi; [done | by rewrite Hiff]. }
  unfold deleteUser. unfold bind at 1. rewrite Hget. unfold bind at 1.
  fold assignedTasks in Hyes.
  destruct (0 <? length assignedTasks) eqn:Elen.
  - rewrite Hyes. cbn [negb]. unfold bind at 1. rewrite Hloop.
    exists (set_saved_users
              (Some (filter (fun u => User.id u <> id) (UserManager.users um),
                     UserManager.nextUserId um))
              (set_userManager
                 (Some (UserManager.make
                          (filter (fun u => User.id u <> id) (UserManager.users um))
                          (UserManager.nextUserId um))) w1)), tasks1.
    split; [| done].
    unfold ret, saveUsers, update, bind, read. cbn [negb]. rewrite Hu1, Hu.
    cbn. by rewrite remaining_users_filter.
  - apply Nat.ltb_ge in Elen.
    assert (assignedTasks = []) as Hnil by (destruct assignedTasks; [done | simpl in Elen; lia]).
    rewrite Hnil in Hloop. cbn [for_of] in Hloop. unfold ret in Hloop.
    injection Hloop as <-.
    exists (set_saved_users
              (Some (filter (fun u => User.id u <> id) (UserManager.users um),
                     UserManager.nextUserId um))
              (set_userManager
                 (Some (UserManager.make
                          (filter (fun u => User.id u <> id) (UserManager.users um))
                          (UserManager.nextUserId um))) w)), tasks1.
    split; [| done].
    unfold ret, saveUsers, update, bind, read. cbn [negb]. rewrite Hu.
    cbn. by rewrite remaining_users_filter.
Qed.

End DeleteUser.


(** Three tasks, two of them assigned to the user 7: one by the value of
    the form, one by number. *)
Definition three_tasks : list Task.t :=
  [Task.make 1 "Fix login bug" (VStr "") "todo" (VStr "high") (RefStr "7")
     (VStr "") (VArr []) (VArr []) "" "" None None;
   Task.make 2 "Write docs" (VStr "") "backlog" (VStr "low") (RefStr "octocat")
     (VStr "") (VArr []) (VArr []) "" "" None None;
   Task.make 3 "Ship release" (VStr "") "done" (VStr "medium") (RefNum 7)
     (VStr "") (VArr []) (VArr []) "" "" None None].

Definition two_users : list User.t :=
  [User.make (RefNum 7) "Ann" "ann@example.org" "developer" None;
   User.make (RefNum 8) "Bob" "bob@example.org" "designer" (Some "bob-gh")].

Example user_deletion_cascade_run :
  let w := connected_page tt three_tasks two_users in
  NoDup (map Task.id three_tasks)
  /\ exists w' tasks',
      deleteUser fixed_clock (fun _ => true) (RefNum 7) w = (w', Return true)
      /\ kanbanBoard w' = Some (KanbanBoard.make tasks' 4)
      /\ userManager w'
         = Some (UserManager.make
                   (filter (fun u => User.id u <> RefNum 7) two_users) 3)
      /\ Forall2 (fun t t' =>
                    if decide (assigned_to (RefNum 7) t)
                    then exists stamp, t' = unassigned stamp t
                    else t' = t) three_tasks tasks'.
Proof.
  intros w.
  assert (NoDup (map Task.id three_tasks)) as Hnd.
  { apply (bool_decide_unpack _). by vm_compute. }
  split; [exact Hnd |].
  exact (user_deletion_cascade fixed_clock (fun _ => true) w (RefNum 7) three_tasks 4
           (UserManager.make two_users 3) eq_refl eq_refl Hnd eq_refl).
Qed.

(** The users that [loadFromSheets] builds from the rows of a sheet:
    the id is the text of the cell. *)
Definition sheet_users : list User.t :=
  [User.make (RefStr "7") "Ann" "ann@example.org" "developer" None;
   User.make (RefStr "8") "Bob" "bob@example.org" "designer" None].

(** C7, at [sheet_users].  The users come from a sheet, so that their
    ids are strings; the button of the settings calls
    [deleteUser(7)] with the number.  The dialog is confirmed and [true]
    is returned; the two tasks of user 7 are unassigned, the other task is
    unchanged; but the list of users is as before, the user 7 still in
    it: [u.id !== id] holds of a string and a number.  [getUser(7)], which
    compares with [==], does find the user. *)
Theorem deleteUser_keeps_sheet_user :
  let w := connected_page tt three_tasks sheet_users in
  let out := deleteUser fixed_clock (fun _ => true) (RefNum 7) w in
  out.2 = Return true
  /\ option_map (fun b => map Task.assignee (KanbanBoard.tasks b)) (kanbanBoard out.1)
     = Some [RefStr ""; RefStr "octocat"; RefStr ""]
  /\ option_map UserManager.users (userManager out.1) = Some sheet_users
  /\ option_map User.name (getUser sheet_users (RefNum 7)) = Some "Ann".
Proof. by vm_compute. Qed.

(* ===================================================================== *)
(** * Pushing twice *)
(* ===================================================================== *)

Section PushTwice.

Context (toISOString : nat -> string).

(** A loop whose body returns and keeps an invariant of the elements gone
    through returns, with the invariant of the whole list. *)
Lemma for_of_invariant {A} (I : list A -> World Tracker.t -> Prop) (l : list A)
    (body : A -> M Tracker.t unit) (w : World Tracker.t) :
  I [] w ->
  (forall gone x rest wc,
     l = gone ++ x :: rest -> I gone wc ->
     exists wc', body x wc = (wc', Return tt) /\ I (gone ++ [x]) wc') ->
  exists w', for_of l body w = (w', Return tt) /\ I l w'.
Proof.
  intros H0 Hstep.
  assert (forall rest gone wc,
            l = gone ++ rest -> I gone wc ->
            exists w', for_of rest body wc = (w', Return tt) /\ I l w') as Hgen.
  { induction rest as [|x rest IH]; intros gone wc Hl HI.
    - exists wc. rewrite app_nil_r in Hl. subst gone. done.
    - destruct (Hstep gone x rest wc Hl HI) as (wc' & Hrun & HI').
      destruct (IH (gone ++ [x]) wc') as (w' & Hrest & HIl).
      { by rewrite <- app_assoc. }
      { done. }
      exists w'. cbn [for_of]. unfold bind. by rewrite Hrun. }
  by apply (Hgen l [] w).
Qed.

(** ** The labels *)

Definition lower_names (labels : list Label.t) : list string :=
  map (fun l => Str.toLowerCase (Label.name l)) labels.

(** The four status labels exist. *)
Definition covered (labels : list Label.t) : Prop :=
  forall status, status ∈ statusLabels -> status ∈ lower_names labels.

Lemma labelMap_fold_None labels (m : gmap string Label.t) k :
  fold_left (fun m label => <[Str.toLowerCase (Label.name label) := label]> m) labels m
    !! k = None
  <-> m !! k = None /\ k ∉ lower_names labels.
Proof.
  revert m. induction labels as [|l labels IH]; intros m; simpl.
  - split; [intros H; split; [done | by intros ?%elem_of_nil] | by intros [H _]].
  - rewrite IH, lookup_insert_None. unfold lower_names. cbn [map].
    rewrite not_elem_of_cons. intuition congruence.
Qed.

Lemma labelMap_None labels k :
  labelMap_of labels !! k = None <-> k ∉ lower_names labels.
Proof.
  unfold labelMap_of. rewrite labelMap_fold_None, lookup_empty. tauto.
Qed.

Lemma has_label_true name s :
  Tracker.has_label name s = true
  <-> Str.toLowerCase name ∈ lower_names (Tracker.labels s).
Proof.
  unfold Tracker.has_label, lower_names. rewrite existsb_exists. split.
  - intros (l & Hin & Heq). apply String.eqb_eq in Heq. rewrite <- Heq.
    apply list_elem_of_In, in_map_iff. eauto.
  - intros Hin. apply list_elem_of_In, in_map_iff in Hin as (l & Heq & Hin).
    exists l. split; [done | by apply String.eqb_eq].
Qed.

Lemma status_lower status : status ∈ statusLabels -> Str.toLowerCase status = status.
Proof.
  unfold statusLabels. rewrite !elem_of_cons, elem_of_nil.
  intros [-> | [-> | [-> | [-> | []]]]]; reflexivity.
Qed.

(** ** The requests, as the tracker answers them *)

Lemma send_tracker {T} (req : request T) (w : World Tracker.t) :
  has_token w = true ->
  send Tracker.handle req w
  = (set_remote_log (Tracker.handle T (remote w) req).1
       (Sent T req (outcome_of (Tracker.handle T (remote w) req).2)) w,
     match (Tracker.handle T (remote w) req).2 with
     | Ok json => Return json
     | Failed status body => Throw (failure status body)
     | Rejected e => Throw e
     end).
Proof.
  intros Htok. unfold send, isAuthenticated, bind, read. rewrite Htok. simpl.
  by destruct (Tracker.handle T (remote w) req) as [r [json|status body|e]].
Qed.

(** ** The issues *)

(** Number, title and kind of the issues, in order: what a [PATCH]
    keeps. *)
Definition skeleton (s : Tracker.t) : list (Z * string * bool) :=
  map (fun i => (Issue.number i, Issue.title i, Issue.pull_request i))
    (Tracker.issues s).

(** The tracker has an issue, not a pull request, with this title. *)
Definition titled (title : string) (s : Tracker.t) : Prop :=
  exists n, (n, title, false) ∈ skeleton s.

(** The issues and the labels fit one page of a listing. *)
Definition one_page (s : Tracker.t) : Prop :=
  length (Tracker.issues s) <= 100 /\ length (Tracker.labels s) <= 100.

(** What [getRepoIssues] returns when the issues fit one page. *)
Definition listed (s : Tracker.t) : list Issue.t :=
  filter (fun i => negb (Issue.pull_request i)) (reverse (Tracker.issues s)).

Lemma listed_elem i s :
  i ∈ listed s <-> i ∈ Tracker.issues s /\ Issue.pull_request i = false.
Proof.
  unfold listed.
  rewrite list_elem_of_filter, Is_true_true, negb_true_iff, elem_of_reverse.
  tauto.
Qed.

Lemma take_page {A} (l : list A) : length l <= 100 -> take 100 l = l.
Proof. intros H. by apply take_ge. Qed.

Lemma patch_first_length n f l : length (Tracker.patch_first n f l) = length l.
Proof.
  induction l as [|i l IH]; simpl; [done |].
  destruct (Issue.number i =? n)%Z; simpl; [done | by rewrite IH].
Qed.

Lemma elem_skeleton i s :
  i ∈ Tracker.issues s ->
  (Issue.number i, Issue.title i, Issue.pull_request i) ∈ skeleton s.
Proof.
  intros Hin. apply list_elem_of_In, in_map_iff. exists i.
  split; [done | by apply list_elem_of_In].
Qed.

Lemma skeleton_elem n x pr s :
  (n, x, pr) ∈ skeleton s ->
  exists i, i ∈ Tracker.issues s /\ Issue.number i = n /\ Issue.title i = x
            /\ Issue.pull_request i = pr.
Proof.
  intros Hin. apply list_elem_of_In, in_map_iff in Hin as (i & Heq & Hin).
  injection Heq as <- <- <-. exists i. split; [by apply list_elem_of_In | done].
Qed.

Lemma find_title_Some x s i :
  find (fun i => String.eqb (Issue.title i) x) (listed s) = Some i ->
  (Issue.number i, x, false) ∈ skeleton s.
Proof.
  intros H. apply find_some in H as [Hin Heq]. apply String.eqb_eq in Heq.
  apply list_elem_of_In, listed_elem in Hin as [Hin Hpr].
  rewrite <- Heq, <- Hpr. by apply elem_skeleton.
Qed.

Lemma find_title_None x s :
  find (fun i => String.eqb (Issue.title i) x) (listed s) = None -> ~ titled x s.
Proof.
  intros H (n & Hin). apply skeleton_elem in Hin as (i & Hin & _ & Ht & Hpr).
  assert (In i (listed s)) as Hl by (by apply list_elem_of_In, listed_elem).
  pose proof (find_none _ _ H i Hl) as Hf. simpl in Hf.
  rewrite Ht, String.eqb_refl in Hf. done.
Qed.

Lemma titled_find x s :
  titled x s ->
  exists i, find (fun i => String.eqb (Issue.title i) x) (listed s) = Some i.
Proof.
  intros Ht. destruct (find _ (listed s)) eqn:E; [eauto |].
  by apply find_title_None in E.
Qed.

Lemma find_number n x pr s :
  (n, x, pr) ∈ skeleton s ->
  exists j, find (fun i => (Issue.number i =? n)%Z) (Tracker.issues s) = Some j.
Proof.
  intros Hin. apply skeleton_elem in Hin as (i & Hin & Hn & _).
  destruct (find _ (Tracker.issues s)) eqn:E; [eauto |].
  apply list_elem_of_In in Hin. pose proof (find_none _ _ E i Hin) as Hf.
  simpl in Hf. rewrite Hn, Z.eqb_refl in Hf. done.
Qed.

Lemma patch_first_skeleton n s u l :
  map (fun i => (Issue.number i, Issue.title i, Issue.pull_request i))
    (Tracker.patch_first n (Tracker.patch s u) l)
  = map (fun i => (Issue.number i, Issue.title i, Issue.pull_request i)) l.
Proof.
  induction l as [|i l IH]; simpl; [done |].
  destruct (Issue.number i =? n)%Z; simpl; [done | by rewrite IH].
Qed.

Lemma skeleton_patched n s u labels next :
  skeleton (Tracker.make (Tracker.patch_first n (Tracker.patch s u) (Tracker.issues s))
              labels next)
  = skeleton s.
Proof. apply patch_first_skeleton. Qed.

Lemma skeleton_posted i s labels next :
  skeleton (Tracker.make (Tracker.issues s ++ [i]) labels next)
  = skeleton s ++ [(Issue.number i, Issue.title i, Issue.pull_request i)].
Proof. unfold skeleton. cbn [Tracker.issues]. by rewrite map_app. Qed.

Lemma getAssigneeLogin_pure (a : ref) (w : World Tracker.t) :
  exists login, getAssigneeLogin a w = (w, Return login).
Proof.
  unfold getAssigneeLogin. destruct (negb (ref_truthy a)); [by eexists |].
  destruct (as_username a); [by eexists |].
  unfold bind, read. destruct (userManager w) as [um|]; [| by eexists].
  destruct (githubUsername_of _); by eexists.
Qed.

(** One round of the loop over the tasks, against the tracker. *)
Lemma pushTask_tracker repo (s0 : Tracker.t) newLabelMap task (w : World Tracker.t) :
  has_token w = true ->
  (forall e, e ∈ skeleton s0 -> e ∈ skeleton (remote w)) ->
  exists w' entry,
    pushTask Tracker.handle repo (listed s0) newLabelMap task w = (w', Return tt)
    /\ has_token w' = true
    /\ kanbanBoard w' = kanbanBoard w
    /\ Tracker.labels (remote w') = Tracker.labels (remote w)
    /\ requests w' = requests w ++ [entry]
    /\ is_POST_label entry = false
    /\ is_PATCH_issue entry = negb (is_POST_issue entry)
    /\ (forall e, e ∈ skeleton (remote w) -> e ∈ skeleton (remote w'))
    /\ titled (Task.title task) (remote w')
    /\ (titled (Task.title task) s0 -> is_POST_issue entry = false)
    /\ length (Tracker.issues (remote w')) <= S (length (Tracker.issues (remote w))).
Proof.
  intros Htok Hmono. unfold pushTask.
  destruct (find _ (listed s0)) as [issue|] eqn:Efind.
  - pose proof (find_title_Some _ _ _ Efind) as Hsk.
    destruct (find_number _ _ _ _ (Hmono _ Hsk)) as (j & Hj).
    set (assignees :=
           if ref_truthy (Task.assignee task)
           then (let* user := getAssigneeLogin (Task.assignee task) in
                 match truthy_strings [user] with
                 | [] => ret None
                 | users => ret (Some users)
                 end)
           else ret None).
    assert (exists a, assignees w = (w, Return a)) as (a & Ha).
    { unfold assignees. destruct (ref_truthy _); [| by eexists].
      destruct (getAssigneeLogin_pure (Task.assignee task) w) as (login & Hl).
      unfold bind. rewrite Hl. destruct (truthy_strings [login]); by eexists. }
    unfold bind at 1. rewrite Ha. unfold bind, updateIssue.
    rewrite send_tracker by done. cbn [Tracker.handle]. rewrite Hj.
    do 2 eexists. split; [reflexivity |].
    cbn [fst snd remote requests set_remote_log Tracker.labels Tracker.issues
         kanbanBoard].
    unfold titled. rewrite skeleton_patched, patch_first_length.
    split; [exact Htok |]. split; [done |]. split; [done |]. split; [done |].
    split; [done |]. split; [done |]. split; [done |].
    split; [| split; [done | lia]].
    exists (Issue.number issue). by apply Hmono.
  - set (assignees :=
           if ref_truthy (Task.assignee task)
           then (let* login := getAssigneeLogin (Task.assignee task) in
                 ret (truthy_strings [login]))
           else ret []).
    assert (exists a, assignees w = (w, Return a)) as (a & Ha).
    { unfold assignees. destruct (ref_truthy _); [| by eexists].
      destruct (getAssigneeLogin_pure (Task.assignee task) w) as (login & Hl).
      unfold bind. rewrite Hl. by eexists. }
    unfold bind at 1. rewrite Ha. unfold bind, createIssue.
    rewrite send_tracker by done. cbn [Tracker.handle].
    do 2 eexists. split; [reflexivity |].
    cbn [fst snd remote requests set_remote_log Tracker.labels Tracker.issues
         kanbanBoard].
    unfold titled. rewrite skeleton_posted, length_app.
    cbn [Issue.number Issue.title Issue.pull_request length].
    split; [exact Htok |]. split; [done |]. split; [done |]. split; [done |].
    split; [done |]. split; [done |].
    split; [intros e He; apply elem_of_app; by left |].
    split; [| split; [| lia]].
    + exists (Tracker.next_number (remote w)). apply elem_of_app. right.
      by apply list_elem_of_singleton.
    + intros Ht. by apply find_title_None in Efind.
Qed.

(** ** Computations that return *)

(** [m] returns from [w], with a result and a final state that satisfy
    [Q]. *)
Definition returns {A} (m : M Tracker.t A) (w : World Tracker.t)
    (Q : A -> World Tracker.t -> Prop) : Prop :=
  exists a w', m w = (w', Return a) /\ Q a w'.

Lemma returns_bind {A B} (m : M Tracker.t A) (k : A -> M Tracker.t B) w Q Q' :
  returns m w Q ->
  (forall a w', Q a w' -> returns (k a) w' Q') ->
  returns (bind m k) w Q'.
Proof.
  intros (a & w1 & Hm & HQ) Hk. destruct (Hk a w1 HQ) as (b & w2 & Hk' & HQ').
  exists b, w2. unfold bind. by rewrite Hm.
Qed.

Lemma returns_ret {A} (a : A) w (Q : A -> World Tracker.t -> Prop) :
  Q a w -> returns (ret a) w Q.
Proof. intros HQ. by exists a, w. Qed.

Lemma returns_update f (w : World Tracker.t) :
  returns (update f) w (fun _ w' => w' = f w).
Proof. by exists tt, (f w). Qed.

Lemma returns_now (w : World Tracker.t) :
  returns (now toISOString) w (fun _ w' => w' = tick w).
Proof. by exists (toISOString (clock w)), (tick w). Qed.

Lemma returns_for_of {A} (I : list A -> World Tracker.t -> Prop) l body w :
  I [] w ->
  (forall gone x rest wc,
     l = gone ++ x :: rest -> I gone wc ->
     returns (body x) wc (fun _ wc' => I (gone ++ [x]) wc')) ->
  returns (for_of l body) w (fun _ w' => I l w').
Proof.
  intros H0 Hstep.
  destruct (for_of_invariant I l body w H0) as (w' & Hrun & HI).
  - intros gone x rest wc Hl HIg.
    destruct (Hstep gone x rest wc Hl HIg) as ([] & wc' & Hb & HI').
    by exists wc'.
  - by exists tt, w'.
Qed.

(** A request that the tracker answers. *)
Lemma returns_send {T} (req : request T) w s json :
  has_token w = true ->
  Tracker.handle T (remote w) req = (s, Ok json) ->
  returns (send Tracker.handle req) w
    (fun a w' => a = json /\ w' = set_remote_log s (Sent T req Answered) w).
Proof.
  intros Htok Hans. exists json, (set_remote_log s (Sent T req Answered) w).
  split; [| done]. rewrite send_tracker by done. by rewrite Hans.
Qed.

(** One round of the loop over the status labels. *)
Lemma label_round (labelMap : gmap string Label.t) owner name status
    (w : World Tracker.t) :
  has_token w = true ->
  (labelMap !! status = None ->
   Str.toLowerCase status ∉ lower_names (Tracker.labels (remote w))) ->
  returns
    (match labelMap !! status with
     | None => createLabel Tracker.handle owner name status (label_color status) ;; ret tt
     | Some _ => ret tt
     end) w
    (fun _ w' =>
       has_token w' = true
       /\ kanbanBoard w' = kanbanBoard w
       /\ Tracker.issues (remote w') = Tracker.issues (remote w)
       /\ lower_names (Tracker.labels (remote w'))
          = lower_names (Tracker.labels (remote w))
            ++ (if decide (labelMap !! status = None)
                then [Str.toLowerCase status] else [])
       /\ exists log,
            requests w' = requests w ++ log
            /\ Forall (fun s => is_POST_issue s = false) log
            /\ (labelMap !! status <> None -> log = [])).
Proof.
  intros Htok Hfree. destruct (labelMap !! status) as [l|] eqn:E.
  - apply returns_ret. rewrite decide_False by done.
    rewrite app_nil_r. repeat split; try done.
    exists []. by rewrite app_nil_r.
  - rewrite decide_True by done.
    assert (Tracker.has_label status (remote w) = false) as Hno.
    { destruct (Tracker.has_label status (remote w)) eqn:Eh; [| done].
      apply has_label_true in Eh. by destruct (Hfree eq_refl). }
    eapply returns_bind.
    + apply returns_send; [done |]. cbn [Tracker.handle]. rewrite Hno. reflexivity.
    + intros a w' [-> ->]. apply returns_ret.
      cbn [remote requests set_remote_log Tracker.labels Tracker.issues kanbanBoard].
      split; [exact Htok |]. split; [done |]. split; [done |].
      split; [unfold lower_names; by rewrite map_app |].
      eexists. split; [reflexivity |]. split; [| done].
      by repeat constructor.
Qed.

Lemma returns_getRepoIssues owner name state (w : World Tracker.t) :
  has_token w = true ->
  length (Tracker.issues (remote w)) <= 100 ->
  returns (getRepoIssues Tracker.handle owner name state) w
    (fun issues w' =>
       issues = listed (remote w)
       /\ w' = set_remote_log (remote w)
                 (Sent _ (GET_issues owner name state 100) Answered) w).
Proof.
  intros Htok Hpage. unfold getRepoIssues. eapply returns_bind.
  - apply returns_send; [done | reflexivity].
  - intros a w' [-> ->]. apply returns_ret. split; [| done].
    unfold listed. by rewrite take_page by (by rewrite length_reverse).
Qed.

Lemma returns_getRepoLabels owner name (w : World Tracker.t) :
  has_token w = true ->
  length (Tracker.labels (remote w)) <= 100 ->
  returns (getRepoLabels Tracker.handle owner name) w
    (fun labels w' =>
       labels = Tracker.labels (remote w)
       /\ w' = set_remote_log (remote w)
                 (Sent _ (GET_labels owner name 100) Answered) w).
Proof.
  intros Htok Hpage. exists (Tracker.labels (remote w)). eexists.
  split; [| done]. unfold getRepoLabels. rewrite send_tracker by done.
  cbn [Tracker.handle fst snd]. by rewrite take_page.
Qed.

Lemma covered_missing labels :
  covered labels -> missing_labels (labelMap_of labels) = [].
Proof.
  intros Hcov. unfold missing_labels.
  assert (forall l, (forall st, st ∈ l -> st ∈ statusLabels) ->
            filter (fun status => labelMap_of labels !! status = None) l = []) as H.
  { induction l as [|st l IH]; intros Hl; [done |].
    rewrite filter_cons_False.
    - apply IH. intros st' Hin. apply Hl. by right.
    - intros Hnone. apply labelMap_None in Hnone. apply Hnone, Hcov, Hl. by left. }
  by apply H.
Qed.

Lemma missing_labels_length (m : gmap string Label.t) : length (missing_labels m) <= 4.
Proof. unfold missing_labels. apply (length_filter _ statusLabels). Qed.

Lemma returns_board_tasks (w : World Tracker.t) board :
  kanbanBoard w = Some board ->
  returns board_tasks w (fun tasks w' => tasks = KanbanBoard.tasks board /\ w' = w).
Proof.
  intros Hb. exists (KanbanBoard.tasks board), w. split; [| done].
  unfold board_tasks, bind, read. by rewrite Hb.
Qed.

Lemma NoDup_statusLabels : NoDup statusLabels.
Proof. apply (bool_decide_unpack _). by vm_compute. Qed.

(** After a push the four labels exist and every task has an issue with
    its title; the push creates no label when the four existed, and no
    issue when every task had one. *)
Lemma pushBoard_try_tracker repo (w : World Tracker.t) board :
  has_token w = true ->
  kanbanBoard w = Some board ->
  length (Tracker.issues (remote w)) <= 100 ->
  length (Tracker.labels (remote w))
  + length (missing_labels (labelMap_of (Tracker.labels (remote w)))) <= 100 ->
  returns (pushBoard_try Tracker.handle toISOString repo) w
    (fun result w' =>
       result = mkPushResult true (length (KanbanBoard.tasks board))
       /\ covered (Tracker.labels (remote w'))
       /\ (forall t, t ∈ KanbanBoard.tasks board -> titled (Task.title t) (remote w'))
       /\ length (Tracker.issues (remote w'))
          <= length (Tracker.issues (remote w)) + length (KanbanBoard.tasks board)
       /\ length (Tracker.labels (remote w'))
          = length (Tracker.labels (remote w))
            + length (missing_labels (labelMap_of (Tracker.labels (remote w))))
       /\ exists logA logB,
            requests w'
            = requests w
              ++ [Sent _ (GET_issues (Repo.owner_login repo) (Repo.name repo) "all" 100)
                    Answered;
                  Sent _ (GET_labels (Repo.owner_login repo) (Repo.name repo) 100)
                    Answered]
              ++ logA
              ++ [Sent _ (GET_labels (Repo.owner_login repo) (Repo.name repo) 100)
                    Answered]
              ++ logB
            /\ Forall (fun s => is_POST_issue s = false) logA
            /\ (covered (Tracker.labels (remote w)) -> logA = [])
            /\ length logB = length (KanbanBoard.tasks board)
            /\ Forall (fun s => is_POST_label s = false) logB
            /\ Forall (fun s => is_PATCH_issue s = negb (is_POST_issue s)) logB
            /\ ((forall t, t ∈ KanbanBoard.tasks board ->
                           titled (Task.title t) (remote w)) ->
                Forall (fun s => is_POST_issue s = false) logB)).
Proof.
  intros Htok Hb Hissues Hlabels. unfold pushBoard_try.
  set (s0 := remote w) in *. set (tasks := KanbanBoard.tasks board).
  eapply returns_bind; [by apply returns_getRepoIssues |].
  intros issues w1 [-> Hw1]. fold s0 in Hw1 |- *.
  assert (has_token w1 = true /\ kanbanBoard w1 = Some board /\ remote w1 = s0)
    as (Htok1 & Hb1 & Hr1) by (by subst w1).
  eapply returns_bind; [apply returns_getRepoLabels; [done | rewrite Hr1; lia] |].
  intros labels0 w2 [-> Hw2]. rewrite Hr1 in Hw2 |- *.
  assert (has_token w2 = true /\ kanbanBoard w2 = Some board /\ remote w2 = s0)
    as (Htok2 & Hb2 & Hr2) by (by subst w2).
  set (labelMap := labelMap_of (Tracker.labels s0)).
  (* the loop over the status labels *)
  eapply returns_bind.
  { apply (returns_for_of
             (fun gone wc =>
                has_token wc = true
                /\ kanbanBoard wc = Some board
                /\ Tracker.issues (remote wc) = Tracker.issues s0
                /\ lower_names (Tracker.labels (remote wc))
                   = lower_names (Tracker.labels s0)
                     ++ filter (fun st => labelMap !! st = None) gone
                /\ exists log,
                     requests wc = requests w2 ++ log
                     /\ Forall (fun s => is_POST_issue s = false) log
                     /\ (covered (Tracker.labels s0) -> log = []))).
    - rewrite Hr2, app_nil_r. repeat split; try done.
      exists []. by rewrite app_nil_r.
    - intros gone status rest wc Hsplit (Htokc & Hbc & Hic & Hlc & logc & Hlogc & Hpc & Hcc).
      assert (status ∈ statusLabels) as Hst.
      { rewrite Hsplit. apply elem_of_app. right. by left. }
      assert (status ∉ gone) as Hfresh.
      { pose proof NoDup_statusLabels as Hnd. rewrite Hsplit in Hnd.
        apply NoDup_app in Hnd as (_ & Hdis & _). intros Hin.
        apply (Hdis _ Hin). by left. }
      destruct (label_round labelMap (Repo.owner_login repo) (Repo.name repo) status wc)
        as ([] & wc' & Hrun & Htok' & Hb' & Hi' & Hl' & log' & Hlog' & Hp' & Hc').
      { done. }
      { intros Hnone. rewrite (status_lower _ Hst), Hlc, elem_of_app.
        intros [Hin | Hin].
        - by apply labelMap_None in Hnone.
        - apply list_elem_of_filter in Hin as [_ Hin]. done. }
      exists tt, wc'. split; [exact Hrun |].
      split; [done |]. split; [congruence |]. split; [congruence |].
      split.
      { rewrite Hl', Hlc, filter_app, (status_lower _ Hst), <- app_assoc.
        reflexivity. }
      exists (logc ++ log'). split; [by rewrite Hlog', Hlogc, app_assoc |].
      split; [by apply Forall_app |].
      intros Hcov. rewrite (Hcc Hcov). simpl. apply Hc'.
      intros Hnone. apply labelMap_None in Hnone. apply Hnone. by apply Hcov. }
  intros [] w3 (Htok3 & Hb3 & Hi3 & Hl3 & logA & HlogA & HpA & HcA).
  assert (covered (Tracker.labels (remote w3))) as Hcov3.
  { intros status Hst. rewrite Hl3. apply elem_of_app.
    destruct (labelMap !! status) eqn:E.
    - left. destruct (decide (status ∈ lower_names (Tracker.labels s0))); [done |].
      assert (labelMap !! status = None) by (by apply labelMap_None). congruence.
    - right. by apply list_elem_of_filter. }
  assert (length (Tracker.labels (remote w3))
          = length (Tracker.labels s0)
            + length (missing_labels (labelMap_of (Tracker.labels s0)))) as Hlen3.
  { apply (f_equal length) in Hl3. unfold lower_names in Hl3.
    by rewrite length_app, !length_map in Hl3. }
  eapply returns_bind; [apply returns_getRepoLabels; [done | lia] |].
  intros labels1 w4 [-> Hw4].
  assert (has_token w4 = true /\ kanbanBoard w4 = Some board
          /\ remote w4 = remote w3
          /\ requests w4
             = requests w3
               ++ [Sent _ (GET_labels (Repo.owner_login repo) (Repo.name repo) 100)
                     Answered])
    as (Htok4 & Hb4 & Hr4 & Hq4) by (by subst w4).
  eapply returns_bind; [by apply (returns_board_tasks w4 board) |].
  intros tasks' w4' [-> ->].
  (* the loop over the tasks *)
  eapply returns_bind.
  { apply (returns_for_of
             (fun gone wc =>
                has_token wc = true
                /\ kanbanBoard wc = Some board
                /\ Tracker.labels (remote wc) = Tracker.labels (remote w3)
                /\ (forall e, e ∈ skeleton s0 -> e ∈ skeleton (remote wc))
                /\ (forall t, t ∈ gone -> titled (Task.title t) (remote wc))
                /\ length (Tracker.issues (remote wc))
                   <= length (Tracker.issues s0) + length gone
                /\ exists log,
                     requests wc = requests w4 ++ log
                     /\ length log = length gone
                     /\ Forall (fun s => is_POST_label s = false) log
                     /\ Forall (fun s => is_PATCH_issue s = negb (is_POST_issue s)) log
                     /\ ((forall t, t ∈ tasks -> titled (Task.title t) s0) ->
                         Forall (fun s => is_POST_issue s = false) log))).
    - rewrite Hr4. split; [done |]. split; [done |]. split; [done |].
      split; [unfold skeleton; by rewrite Hi3 |].
      split; [by intros t ?%elem_of_nil |].
      split; [rewrite Hi3; simpl; lia |].
      exists []. by rewrite app_nil_r.
    - intros gone task rest wc Hsplit
        (Htokc & Hbc & Hlc & Hmono & Htitled & Hgrow & logc & Hlogc & Hlen & Hplc
         & Hpp & Hpic).
      destruct (pushTask_tracker repo s0
                  (newLabelMap_of (Tracker.labels (remote w3))) task wc Htokc Hmono)
        as (wc' & entry & Hrun & Htok' & Hb' & Hl' & Hq' & Hnl & Hpatch & Hmono'
            & Ht' & Hni & Hone).
      exists tt, wc'. split; [exact Hrun |].
      split; [done |]. split; [congruence |]. split; [congruence |].
      split; [by auto |].
      split.
      { intros t [Hin | Hin]%elem_of_app.
        - destruct (Htitled t Hin) as (n & Hn). exists n. by apply Hmono'.
        - apply list_elem_of_singleton in Hin. by subst t. }
      split; [rewrite length_app; simpl; lia |].
      exists (logc ++ [entry]). split; [by rewrite Hq', Hlogc, app_assoc |].
      split; [rewrite !length_app; simpl; lia |].
      split; [apply Forall_app; split; [done | by repeat constructor] |].
      split; [apply Forall_app; split; [done | by repeat constructor] |].
      intros Hall. apply Forall_app. split; [by apply Hpic |].
      repeat constructor. apply Hni, Hall. fold tasks in Hsplit. rewrite Hsplit.
      apply elem_of_app. right. by left. }
  intros [] w5
    (Htok5 & Hb5 & Hl5 & Hmono5 & Htitled5 & Hgrow5 & logB & HlogB & HlenB & HplB
     & HppB & HpiB).
  eapply returns_bind; [apply returns_update |]. intros [] w6 ->.
  eapply returns_bind; [apply returns_now |]. intros stamp w7 ->.
  eapply returns_bind; [apply returns_update |]. intros [] w8 ->.
  eapply returns_bind; [apply returns_update |]. intros [] w9 ->.
  eapply returns_bind.
  { apply (returns_board_tasks _ board). exact Hb5. }
  intros tasks'' w10 [-> ->].
  eapply returns_bind; [apply returns_update |]. intros [] w11 ->.
  apply returns_ret.
  cbn [remote requests set_github_last_sync set_lastSync set_syncStatus tick
       add_notification].
  split; [done |]. split; [by rewrite Hl5 |]. split; [by auto |].
  split; [exact Hgrow5 |]. split; [by rewrite Hl5 |].
  exists logA, logB. split.
  { rewrite HlogB, Hq4, HlogA. subst w2 w1.
    cbn [requests set_remote_log]. by rewrite <- !app_assoc. }
  done.
Qed.

Lemma returns_try_catch {A} (m : M Tracker.t A) handler w Q :
  returns m w Q -> returns (try_catch m handler) w Q.
Proof.
  intros (a & w' & Hm & HQ). exists a, w'. unfold try_catch. by rewrite Hm.
Qed.

Lemma pushBoard_tracker repo (w : World Tracker.t) board :
  has_token w = true ->
  selectedRepo w = Some repo ->
  kanbanBoard w = Some board ->
  length (Tracker.issues (remote w)) <= 100 ->
  length (Tracker.labels (remote w))
  + length (missing_labels (labelMap_of (Tracker.labels (remote w)))) <= 100 ->
  exists w' logA logB,
    pushBoard Tracker.handle toISOString w
    = (w', Return (mkPushResult true (length (KanbanBoard.tasks board))))
    /\ covered (Tracker.labels (remote w'))
    /\ (forall t, t ∈ KanbanBoard.tasks board -> titled (Task.title t) (remote w'))
    /\ length (Tracker.issues (remote w'))
       <= length (Tracker.issues (remote w)) + length (KanbanBoard.tasks board)
    /\ length (Tracker.labels (remote w'))
       = length (Tracker.labels (remote w))
         + length (missing_labels (labelMap_of (Tracker.labels (remote w))))
    /\ requests w'
       = requests w
         ++ [Sent _ (GET_issues (Repo.owner_login repo) (Repo.name repo) "all" 100)
               Answered;
             Sent _ (GET_labels (Repo.owner_login repo) (Repo.name repo) 100)
               Answered]
         ++ logA
         ++ [Sent _ (GET_labels (Repo.owner_login repo) (Repo.name repo) 100)
               Answered]
         ++ logB
    /\ Forall (fun s => is_POST_issue s = false) logA
    /\ (covered (Tracker.labels (remote w)) -> logA = [])
    /\ length logB = length (KanbanBoard.tasks board)
    /\ Forall (fun s => is_POST_label s = false) logB
    /\ Forall (fun s => is_PATCH_issue s = negb (is_POST_issue s)) logB
    /\ ((forall t, t ∈ KanbanBoard.tasks board -> titled (Task.title t) (remote w)) ->
        Forall (fun s => is_POST_issue s = false) logB).
Proof.
  intros Htok Hrepo Hb Hissues Hlabels.
  destruct (pushBoard_try_tracker repo (set_syncStatus "syncing" w) board Htok Hb
              Hissues Hlabels)
    as (result & w' & Hrun & -> & Hcov & Htitled & Hgrow & Hlen & logA & logB & Hlog
        & Hrest).
  exists w', logA, logB. split; [| done].
  unfold pushBoard, isConnected, isAuthenticated, bind, read, update, try_catch.
  rewrite Htok. cbn [negb]. rewrite Hrepo. by rewrite Hrun.
Qed.


End PushTwice.


(** A board of 101 tasks with the titles [Task 1] to [Task 101]. *)
Definition numbered_task (n : nat) : Task.t :=
  Task.make (Z.of_nat n) (cat "Task " (digits_of_Z (Z.of_nat n))) (VStr "")
    "todo" (VStr "medium") (RefStr "") (VStr "") (VArr []) (VArr []) "" "" None None.

Definition many_tasks : list Task.t := map numbered_task (seq 1 101).


(* ===================================================================== *)
(** * Encoding and decoding the metadata *)
(* ===================================================================== *)

Section RoundTrip.

Import Str GitHubBoards.

(** [formatTaskBody] never gives the empty string. *)
Lemma formatTaskBody_nonempty task : String.eqb (formatTaskBody task) "" = false.
Proof. unfold formatTaskBody. by destruct (visible_text task). Qed.

(** The closing delimiter after text on one line. *)
Lemma split_at_close text :
  all not_LF text = true ->
  split_at metadata_close (cat text metadata_close) = Some (text, "").
Proof. intros Htext. exact (split_at_one_line text "-->" "" Htext). Qed.

(** The block that [parseTaskBody] finds in what [formatTaskBody] wrote
    is the block written, when the text in front of it does not hold the
    opening delimiter. *)
Lemma metadata_match_written task :
  contains metadata_open (cat (visible_text task) nl) = false ->
  metadata_match (formatTaskBody task) = Some (write (metadata task) "").
Proof.
  intros Hvisible. unfold metadata_match, lazy_between, formatTaskBody.
  change (JSON_stringify (metadata task)) with (Some (write (metadata task) "")).
  cbv iota beta.
  unfold metadata_open at 1 2, nl.
  rewrite (split_at_after_lines "<!-- pixelKanban metadata:" (visible_text task));
    [| done | done | exact Hvisible].
  rewrite split_at_close; [done |]. by rewrite write_one_line.
Qed.

(** Where the visible text does not hold the opening delimiter and the
    metadata has no [undefined] in it, [parseTaskBody] gives back the
    metadata that [formatTaskBody] wrote. *)
Lemma parseTaskBody_formatTaskBody task :
  jsonable (metadata task) ->
  contains metadata_open (cat (visible_text task) nl) = false ->
  parseTaskBody (Some (formatTaskBody task)) = Return (metadata task).
Proof.
  intros Hjson Hvisible. unfold parseTaskBody, parseTaskBody_try.
  rewrite formatTaskBody_nonempty, (metadata_match_written _ Hvisible).
  by rewrite (parse_stringify _ Hjson).
Qed.

(** X2. The same for a pull of the issue that a push wrote.  Where the
    text that [formatTaskBody] puts in front of the metadata block does
    not hold the opening delimiter, the metadata has no [undefined] in it
    and the task has its five fields set, the task that [pullBoard]
    builds from the issue has the title, description, priority, due
    date, comments and attachments of the task. *)
Lemma task_of_issue_formatTaskBody task issue id :
  jsonable (metadata task) ->
  contains metadata_open (cat (visible_text task) nl) = false ->
  truthy (Task.description task) = true ->
  truthy (Task.priority task) = true ->
  truthy (Task.dueDate task) = true ->
  truthy (Task.comments task) = true ->
  truthy (Task.attachments task) = true ->
  Issue.title issue = Task.title task ->
  Issue.body issue = Some (formatTaskBody task) ->
  exists pulled,
    task_of_issue issue id = Return pulled
    /\ Task.title pulled = Task.title task
    /\ Task.description pulled = Task.description task
    /\ Task.priority pulled = Task.priority task
    /\ Task.dueDate pulled = Task.dueDate task
    /\ Task.comments pulled = Task.comments task
    /\ Task.attachments pulled = Task.attachments task.
Proof.
  intros Hjson Hvisible Hd Hp Hdue Hc Ha Htitle Hbody.
  unfold task_of_issue.
  rewrite Hbody, (parseTaskBody_formatTaskBody _ Hjson Hvisible).
  eexists. split; [reflexivity |]. cbn.
  unfold or_else. by rewrite ?Hc, ?Ha, ?Hd, ?Hp, ?Hdue.
Qed.

(** A task with every field set, and the issue that a push writes for it. *)
Definition plain_task : Task.t :=
  Task.make 4 "Fix login bug" (VStr "Users cannot log in <!-- since 2.1 -->")
    "in-progress" (VStr "high") (RefStr "") (VStr "2024-06-01")
    (VArr [VObj [("id", VNum (Int 1)); ("userId", VNum (Int 7));
                 ("text", VStr (String "a" (String LF "b")))]])
    (VArr [VObj [("name", VStr "trace.log"); ("size", VNum (Int (-1)))]])
    "2024-05-01T10:00:00.000Z" "2024-05-02T10:00:00.000Z" None None.

Lemma task_of_issue_formatTaskBody_witness :
  exists pulled,
    task_of_issue
      (Issue.make 12 "Fix login bug" (Some (formatTaskBody plain_task))
         [Label.make "in progress" "ffffff"] [] false "" "" "") 1
    = Return pulled
    /\ Task.title pulled = Task.title plain_task
    /\ Task.description pulled = Task.description plain_task
    /\ Task.priority pulled = Task.priority plain_task
    /\ Task.dueDate pulled = Task.dueDate plain_task
    /\ Task.comments pulled = Task.comments plain_task
    /\ Task.attachments pulled = Task.attachments plain_task.
Proof.
  apply (task_of_issue_formatTaskBody plain_task); try reflexivity.
  repeat split; apply (bool_decide_unpack _); by vm_compute.
Defined.

End RoundTrip.

Section RoundTripFails.

Import GitHubBoards.

(** A task whose description is the text that opens a metadata block,
    with one comment. *)
Definition marker_task : Task.t :=
  Task.make 1 "Document the sync format" (VStr "<!-- pixelKanban metadata:")
    "todo" (VStr "high") (RefStr "") (VStr "2024-06-01")
    (VArr [VObj [("id", VNum (Int 1)); ("userId", VNum (Int 7)); ("text", VStr "see the wiki")]])
    (VArr []) "2024-05-01T10:00:00.000Z" "2024-05-01T10:00:00.000Z" None None.

(** C1, at [marker_task]: the block that [parseTaskBody] finds starts in
    the description, its text is not JSON, and what comes back is built
    from the text: the description and the comments are lost. *)
Theorem round_trip_fails_on_marker :
  parseTaskBody (Some (formatTaskBody marker_task))
  = Return (VObj [("priority", VStr "high"); ("dueDate", VStr "2024-06-01");
                  ("description", VStr "")])
  /\ (let? data := parseTaskBody (Some (formatTaskBody marker_task)) in
      get data "description") <> Return (Task.description marker_task)
  /\ (let? data := parseTaskBody (Some (formatTaskBody marker_task)) in
      get data "comments") <> Return (Task.comments marker_task)
  /\ exists pulled,
      task_of_issue
        (Issue.make 1 (Task.title marker_task) (Some (formatTaskBody marker_task))
           [Label.make "to do" "ffffff"] [] false "" "" "") 1
      = Return pulled
      /\ Task.description pulled = VStr ""
      /\ Task.comments pulled = VArr [].
Proof.
  split; [reflexivity |]. split; [by vm_compute |]. split; [by vm_compute |].
  eexists. split; [reflexivity |]. split; reflexivity.
Qed.

End RoundTripFails.

(* ===================================================================== *)
(** * More on the sync adapter *)
(* ===================================================================== *)

(** [this.columns] of [KanbanBoard]: the statuses of the board. *)
Definition columns : list string := ["backlog"; "todo"; "in-progress"; "done"].

Section StatusLabels.

Import GitHubBoards.

Lemma bool_iff (b : bool) (P : Prop) `{!Decision P} :
  (b = true <-> P) -> b = bool_decide P.
Proof.
  intros [H1 H2]. destruct b, (bool_decide_reflect P); try done.
  - exfalso. auto.
  - by apply H2.
Qed.

(** X1. The status of a task that is a column of the board comes back
    from the labels of its issue: when one label of the issue has the
    name that [getStatusLabel] gives for the status, in any case of its
    letters, and no other label of the issue is a status label,
    [getKanbanStatus] reads the labels as that status. *)
Theorem status_label_round_trip (status name color : string)
    (before after : list Label.t) :
  status ∈ columns ->
  getStatusLabel status = Some (Str.toLowerCase name) ->
  Forall (fun l => Str.toLowerCase (Label.name l) ∉ statusLabels) (before ++ after) ->
  getKanbanStatus (before ++ Label.make name color :: after) = status.
Proof.
  intros Hcol Hname Hothers.
  assert (forall x, x ∈ statusLabels ->
            includes
              (map (fun l => Str.toLowerCase (Label.name l))
                 (before ++ Label.make name color :: after)) x
            = bool_decide (getStatusLabel status = Some x)) as Hinc.
  { intros x Hx. apply bool_iff. rewrite includes_true, list_elem_of_fmap.
    split.
    - intros (l & -> & Hl). apply elem_of_app in Hl as [Hl | Hl].
      + rewrite Forall_forall in Hothers. exfalso.
        apply (Hothers l); [apply elem_of_app; by left | done].
      + apply elem_of_cons in Hl as [-> | Hl]; [done |].
        rewrite Forall_forall in Hothers. exfalso.
        apply (Hothers l); [apply elem_of_app; by right | done].
    - intros Hx'. exists (Label.make name color). split; [simpl; congruence |].
      apply elem_of_app. right. apply elem_of_cons. by left. }
  unfold getKanbanStatus. cbv zeta.
  rewrite !Hinc by (apply (bool_decide_unpack _); by vm_compute).
  unfold columns in Hcol.
  repeat (apply elem_of_cons in Hcol as [-> | Hcol]);
    [.. | by apply elem_of_nil in Hcol]; reflexivity.
Qed.

End StatusLabels.

Lemma status_label_round_trip_witness :
  GitHubBoards.getKanbanStatus
    ([Label.make "bug" "d73a4a"] ++ Label.make "In Progress" "a371f7"
       :: [Label.make "help wanted" "008672"])
  = "in-progress".
Proof.
  apply (status_label_round_trip "in-progress" "In Progress" "a371f7"
           [Label.make "bug" "d73a4a"] [Label.make "help wanted" "008672"]).
  - apply (bool_decide_unpack _). by vm_compute.
  - reflexivity.
  - repeat constructor; apply (bool_decide_unpack _); by vm_compute.
Defined.

Section PulledIssues.

Import GitHubBoards.

Lemma metadata_match_empty : metadata_match "" = None.
Proof. reflexivity. Qed.

(** What [parseTaskBody] returns is [null] only when the metadata block
    of the body is the JSON text of [null]. *)
Lemma parseTaskBody_null body :
  parseTaskBody body = Return VNull
  <-> exists text expr,
        body = Some text /\ metadata_match text = Some expr
        /\ JSON_parse expr = Return VNull.
Proof.
  split.
  - destruct body as [text|]; [| done]. simpl.
    destruct (String.eqb text ""); [done |].
    unfold parseTaskBody_try.
    destruct (metadata_match text) as [expr|] eqn:Em; [| done].
    destruct (JSON_parse expr) as [v|e] eqn:Ep; simpl; [| done].
    intros [= ->]. by exists text, expr.
  - intros (text & expr & -> & Hm & Hp). simpl.
    destruct (String.eqb_spec text "") as [-> | _].
    + by rewrite metadata_match_empty in Hm.
    + unfold parseTaskBody_try. by rewrite Hm, Hp.
Qed.

(** X3. [parseTaskBody] never throws, and the object that [pullBoard]
    builds for an issue is built for every issue but one whose metadata
    block is the JSON text of [null]: there, and only there, reading
    [taskData.description] throws a [TypeError]. *)
Theorem task_of_issue_throws_iff (issue : Issue.t) (id : Z) :
  (exists taskData, parseTaskBody (Issue.body issue) = Return taskData)
  /\ ((exists e, task_of_issue issue id = Throw e)
      <-> exists text expr,
            Issue.body issue = Some text /\ metadata_match text = Some expr
            /\ JSON_parse expr = Return VNull)
  /\ (forall e,
        task_of_issue issue id = Throw e ->
        e = TypeError "Cannot read properties of null (reading 'description')").
Proof.
  split; [apply parseTaskBody_returns |].
  rewrite <- parseTaskBody_null.
  assert (parseTaskBody (Issue.body issue) = Return VNull
          \/ parseTaskBody (Issue.body issue) <> Return VNull) as [Hn | Hn].
  { destruct (parseTaskBody (Issue.body issue)) as [[]|];
      (by left) || (by right). }
  - assert (task_of_issue issue id
            = Throw (TypeError "Cannot read properties of null (reading 'description')"))
      as Ht by (unfold task_of_issue; by rewrite Hn).
    split.
    + split; [done | intros _; by eexists].
    + intros e. rewrite Ht. by intros [= <-].
  - destruct (task_of_issue_returns issue id Hn) as (t & Ht & _).
    split.
    + split; [intros (e & He); congruence | done].
    + intros e. by rewrite Ht.
Qed.

End PulledIssues.

Section ResolvedAssignees.

Context {R : Type} (server : forall T, R -> request T -> R * response T).

(** The assignee [a] of a task stands for the tracker account [login]:
    it is that name itself (a string that is not a number), or the id of
    a local user whose [githubUsername] it is. *)
Definition resolves_to (w : World R) (a : ref) (login : string) : Prop :=
  login <> ""
  /\ (a = RefStr login /\ all_digits login = false
      \/ ref_truthy a = true /\ numeric_id a
         /\ exists um u,
              userManager w = Some um
              /\ getUser (UserManager.users um) a = Some u
              /\ User.githubUsername u = Some login).

(** The request that pushes [task] with the assignee [login]. *)
Definition request_with_assignee (repo : Repo.t) (existingIssues : list Issue.t)
    (newLabelMap : gmap string string) (task : Task.t) (login : string)
    : request Issue.t :=
  let labels :=
    status_labels newLabelMap (GitHubBoards.getStatusLabel (Task.status task)) in
  let body := GitHubBoards.formatTaskBody task in
  match find (fun i => String.eqb (Issue.title i) (Task.title task)) existingIssues with
  | Some issue =>
      PATCH_issue (Repo.owner_login repo) (Repo.name repo) (Issue.number issue)
        (Updates.make body labels (Some [login]))
  | None =>
      POST_issue (Repo.owner_login repo) (Repo.name repo) (Task.title task)
        body labels [login]
  end.

Lemma getAssigneeLogin_resolved (w : World R) (a : ref) login :
  resolves_to w a login -> getAssigneeLogin a w = (w, Return (Some login)).
Proof.
  intros [Hne [[-> Hd] | (Ht & Hnum & um & u & Hum & Hu & Hlogin)]].
  - unfold getAssigneeLogin. simpl. apply String.eqb_neq in Hne.
    by rewrite Hne, Hd.
  - unfold getAssigneeLogin. rewrite Ht. simpl.
    assert (as_username a = None) as ->.
    { destruct a as [s|n]; simpl in *; [by rewrite Hnum | done]. }
    unfold bind, read. rewrite Hum, Hu. simpl. rewrite Hlogin.
    apply String.eqb_neq in Hne. by rewrite Hne.
Qed.

Lemma resolves_truthy (w : World R) a login :
  resolves_to w a login -> ref_truthy a = true.
Proof.
  intros [Hne [[-> _] | (Ht & _)]]; [| done]. simpl.
  apply String.eqb_neq in Hne. by rewrite Hne.
Qed.


End ResolvedAssignees.

(** An issue assigned to the account octocat, the task that a pull makes
    of it, and the push of that task to a tracker that has the issue. *)
Definition octocat_issue : Issue.t :=
  Issue.make 15 "Write docs" None [Label.make "Done" "3fb950"]
    [Account.make "octocat"] false "" "" "".

Definition octocat_task : Task.t :=
  Task.make 1 "Write docs" (VStr "") "done" (VStr "medium") (RefStr "octocat")
    (VStr "") (VArr []) (VArr []) "" "" (Some 15%Z) (Some "").


Section Buttons.

Context {R : Type} (server : forall T, R -> request T -> R * response T).
Context (toISOString : nat -> string).

Lemma disciplined_syncBoard : disciplined server (syncBoard server toISOString).
Proof.
  unfold syncBoard. apply disciplined_bind; [apply disciplined_pushBoard |].
  intros _. apply disciplined_bind; [apply disciplined_pullBoard |].
  intros result. apply disciplined_ret.
Qed.

Lemma push_click_run (w : World R) :
  push_click server toISOString w
  = match kanbanBoard w with
    | None => (w, Return tt)
    | Some _ =>
        match pushBoard server toISOString w with
        | (w1, Return _) => (w1, Return tt)
        | (w1, Throw e) =>
            (add_status_line (cat "Push failed: " (exn_message e), "error") w1,
             Return tt)
        end
    end.
Proof.
  unfold push_click, bind, read, try_catch. destruct (kanbanBoard w); [| done].
  by destruct (pushBoard server toISOString w) as [w1 [res|e]].
Qed.

Lemma pull_click_run (w : World R) :
  pull_click server toISOString w
  = match pullBoard server toISOString w with
    | (w1, Return result) =>
        match pull_success result, kanbanBoard w1 with
        | true, Some _ =>
            let tasks := pulled_tasks result in
            let next := pulled_nextTaskId result in
            (set_saved_tasks (Some (tasks, next))
               (set_kanbanBoard (Some (KanbanBoard.make tasks next)) w1),
             Return tt)
        | _, _ => (w1, Return tt)
        end
    | (w1, Throw e) =>
        (add_status_line (cat "Pull failed: " (exn_message e), "error") w1,
         Return tt)
    end.
Proof.
  unfold pull_click, bind, read, try_catch.
  destruct (pullBoard server toISOString w) as [w1 [res|e]]; [| done].
  destruct (pull_success res); [| done].
  by destruct (kanbanBoard w1).
Qed.

Lemma sync_click_run (w : World R) :
  sync_click server toISOString w
  = match kanbanBoard w with
    | None => (w, Return tt)
    | Some _ =>
        match syncBoard server toISOString w with
        | (w1, Return result) =>
            match pull_success result, kanbanBoard w1 with
            | true, Some _ =>
                let tasks := pulled_tasks result in
                let next := pulled_nextTaskId result in
                (set_saved_tasks (Some (tasks, next))
                   (set_kanbanBoard (Some (KanbanBoard.make tasks next)) w1),
                 Return tt)
            | _, _ => (w1, Return tt)
            end
        | (w1, Throw e) =>
            (add_status_line (cat "Sync failed: " (exn_message e), "error") w1,
             Return tt)
        end
    end.
Proof.
  unfold sync_click, bind, read, try_catch. destruct (kanbanBoard w); [| done].
  destruct (syncBoard server toISOString w) as [w1 [res|e]]; [| done].
  destruct (pull_success res); [| done].
  by destruct (kanbanBoard w1).
Qed.

(** What a computation returns, when it returns. *)
Definition yields {A} (Q : A -> Prop) (m : M R A) : Prop :=
  forall w a, (m w).2 = Return a -> Q a.

Lemma yields_bind {A B} (Q : B -> Prop) (m : M R A) (f : A -> M R B) :
  (forall a, yields Q (f a)) -> yields Q (bind m f).
Proof.
  intros Hf w b. unfold bind. destruct (m w) as [w1 [a|e]]; [apply Hf | done].
Qed.

Lemma yields_try_catch {A} (Q : A -> Prop) (m : M R A) handler :
  yields Q m -> (forall e, yields Q (handler e)) -> yields Q (try_catch m handler).
Proof.
  intros Hm Hh w a. unfold try_catch. specialize (Hm w).
  destruct (m w) as [w1 [a'|e]]; [apply Hm | apply Hh].
Qed.

Lemma yields_throw {A} (Q : A -> Prop) e : yields Q (@throw R A e).
Proof. by intros w a. Qed.

Lemma pullBoard_success :
  yields (fun result => pull_success result = true) (pullBoard server toISOString).
Proof.
  unfold pullBoard. apply yields_bind. intros connected.
  destruct (negb connected); [apply yields_throw |].
  apply yields_bind. intros [repo|]; [| apply yields_throw].
  apply yields_bind. intros _. apply yields_try_catch.
  - unfold pullBoard_try. apply yields_bind. intros issues.
    apply yields_bind. intros [tasks next].
    do 5 (apply yields_bind; let x := fresh "x" in intros x).
    by intros w0 res0 [= <-].
  - intros e. do 2 (apply yields_bind; let x := fresh "x" in intros x).
    apply yields_throw.
Qed.

Lemma syncBoard_success (w : World R) result :
  (syncBoard server toISOString w).2 = Return result -> pull_success result = true.
Proof.
  revert w result. unfold syncBoard. apply yields_bind. intros _.
  intros w result. unfold bind, ret. pose proof (pullBoard_success w) as Hok.
  destruct (pullBoard server toISOString w) as [w1 [res|e]]; simpl in *; [| done].
  intros [= <-]. by apply Hok.
Qed.

(** X5. The click on the push button never throws and never changes the
    board, the users or what is saved of them.  Without a board it does
    nothing; with one, a push that fails ends as the line [Push failed:]
    with the message of the error in the dialog, and a push that returns
    leaves the page as [pushBoard] left it. *)
Theorem push_click_is_safe (w : World R) :
  (push_click server toISOString w).2 = Return tt
  /\ stores (push_click server toISOString w).1 = stores w
  /\ match kanbanBoard w with
     | None => (push_click server toISOString w).1 = w
     | Some _ =>
         match (pushBoard server toISOString w).2 with
         | Return _ =>
             (push_click server toISOString w).1
             = (pushBoard server toISOString w).1
         | Throw e =>
             (push_click server toISOString w).1
             = add_status_line (cat "Push failed: " (exn_message e), "error")
                 (pushBoard server toISOString w).1
         end
     end.
Proof.
  rewrite push_click_run.
  destruct (kanbanBoard w) as [b|] eqn:Eb; [| done].
  destruct (disciplined_pushBoard server toISOString w) as (Hs & _).
  destruct (pushBoard server toISOString w) as [w1 [res|e]]; simpl in *; done.
Qed.

(** X6. The click on the pull button never throws.  When [pullBoard]
    throws, the board, the users and what is saved of them stay as they
    were, and the dialog shows [Pull failed:] with the message of the
    error. *)
Theorem pull_click_failure (w : World R) :
  (pull_click server toISOString w).2 = Return tt
  /\ forall e,
       (pullBoard server toISOString w).2 = Throw e ->
       stores (pull_click server toISOString w).1 = stores w
       /\ (pull_click server toISOString w).1
          = add_status_line (cat "Pull failed: " (exn_message e), "error")
              (pullBoard server toISOString w).1.
Proof.
  rewrite pull_click_run.
  destruct (disciplined_pullBoard server toISOString w) as (Hs & _).
  destruct (pullBoard server toISOString w) as [w1 [res|e]]; simpl in *.
  - split; [| done]. destruct (pull_success res); [| done].
    by destruct (kanbanBoard w1).
  - split; [done |]. by intros e' [= <-].
Qed.

(** X7. The click on the sync button never throws.  Without a board it
    does nothing.  When the push or the pull of [syncBoard] throws, the
    board, the users and what is saved of them stay as they were and the
    dialog shows [Sync failed:]; when [syncBoard] returns, the board
    becomes the tasks and the next id of the pull, and is saved so. *)
Theorem sync_click_outcome (w : World R) (b : KanbanBoard.t) :
  (sync_click server toISOString w).2 = Return tt
  /\ (kanbanBoard w = None -> (sync_click server toISOString w).1 = w)
  /\ (kanbanBoard w = Some b ->
      match (syncBoard server toISOString w).2 with
      | Throw e =>
          stores (sync_click server toISOString w).1 = stores w
          /\ (sync_click server toISOString w).1
             = add_status_line (cat "Sync failed: " (exn_message e), "error")
                 (syncBoard server toISOString w).1
      | Return result =>
          let board := KanbanBoard.make (pulled_tasks result) (pulled_nextTaskId result) in
          pull_success result = true
          /\ kanbanBoard (sync_click server toISOString w).1 = Some board
          /\ saved_tasks (sync_click server toISOString w).1
             = Some (pulled_tasks result, pulled_nextTaskId result)
          /\ userManager (sync_click server toISOString w).1 = userManager w
      end).
Proof.
  rewrite sync_click_run. split; [| split].
  - destruct (kanbanBoard w); [| done].
    destruct (syncBoard server toISOString w) as [w1 [res|e]]; [| done].
    destruct (pull_success res); [| done]. by destruct (kanbanBoard w1).
  - by intros ->.
  - intros Hb. rewrite Hb.
    destruct (disciplined_syncBoard w) as (Hs & _).
    pose proof (syncBoard_success w) as Hok.
    destruct (syncBoard server toISOString w) as [w1 [res|e]]; simpl in *.
    + rewrite (Hok res eq_refl).
      assert (kanbanBoard w1 = Some b) as -> by (unfold stores in Hs; congruence).
      repeat split. simpl. unfold stores in Hs. congruence.
    + done.
Qed.

End Buttons.

(* ===================================================================== *)
(** * The board: creating, deleting and moving tasks *)
(* ===================================================================== *)

(** The ids of the tasks are distinct and below [nextTaskId]: what the
    constructor of the board starts from (no task, next id 1). *)
Definition well_numbered (b : KanbanBoard.t) : Prop :=
  NoDup (map Task.id (KanbanBoard.tasks b))
  /\ Forall (fun t => (Task.id t < KanbanBoard.nextTaskId b)%Z) (KanbanBoard.tasks b).

Section BoardStore.

Context {R : Type}.
Context (toISOString : nat -> string).

(** The page after the board was given the tasks and the next id, and
    saved. *)
Definition with_board (tasks : list Task.t) (next : Z) (w : World R) : World R :=
  set_saved_tasks (Some (tasks, next))
    (set_kanbanBoard (Some (KanbanBoard.make tasks next)) w).

Lemma bind_returns {A B} (m : M R A) (f : A -> M R B) w w' a :
  m w = (w', Return a) -> bind m f w = f a w'.
Proof. intros H. unfold bind. by rewrite H. Qed.

(** What the board is saved as, when it is saved as it is. *)
Definition kanbanBoard_saved (w : World R) : option (list Task.t * Z) :=
  match kanbanBoard w with
  | Some b => Some (KanbanBoard.tasks b, KanbanBoard.nextTaskId b)
  | None => None
  end.

Lemma createTask_run (w : World R) b data :
  kanbanBoard w = Some b ->
  let task :=
    new_task (KanbanBoard.nextTaskId b) data
      (toISOString (clock w)) (toISOString (S (clock w))) in
  createTask toISOString data w
  = (with_board (KanbanBoard.tasks b ++ [task]) (increment (KanbanBoard.nextTaskId b))
       (tick (tick w)),
     Return task).
Proof.
  intros Hb. unfold createTask, bind, read, now, update, saveTasks. simpl.
  rewrite Hb. reflexivity.
Qed.

(** From [2^53] on, where the sum is not a double, [n++] can leave [n]
    as it is. *)
Example increment_stuck : increment (2 ^ 53) = (2 ^ 53)%Z.
Proof. by vm_compute. Qed.

Lemma well_numbered_snoc tasks next t :
  well_numbered (KanbanBoard.make tasks next) -> Task.id t = next ->
  well_numbered (KanbanBoard.make (tasks ++ [t]) (next + 1)).
Proof.
  intros [Hnd Hlt] Hid. simpl in *. split; simpl.
  - rewrite map_app. apply NoDup_app. split; [done |]. split.
    + intros x Hx Hin. apply list_elem_of_singleton in Hin as ->.
      apply list_elem_of_fmap in Hx as (t' & Ht' & Hin).
      rewrite Forall_forall in Hlt. specialize (Hlt t' Hin). lia.
    + apply NoDup_singleton.
  - apply Forall_app. split.
    + eapply Forall_impl; [exact Hlt |]. simpl. intros; lia.
    + repeat constructor. lia.
Qed.

(** X8. On a board whose ids are distinct and below [nextTaskId], with
    [nextTaskId + 1] a safe integer, [createTask] returns a task whose id
    is [nextTaskId], an id that no task of the board has; the task goes
    last, [nextTaskId] grows by one, the board is saved as it then is,
    and its ids are again distinct and below [nextTaskId]. *)
Theorem createTask_fresh_id (w : World R) (b : KanbanBoard.t) (data : NewTask.t) :
  kanbanBoard w = Some b ->
  well_numbered b ->
  is_safe_integer (KanbanBoard.nextTaskId b + 1) = true ->
  exists task,
    (createTask toISOString data w).2 = Return task
    /\ Task.id task = KanbanBoard.nextTaskId b
    /\ (Task.id task ∉ map Task.id (KanbanBoard.tasks b))
    /\ Task.title task = NewTask.title data
    /\ (let b' :=
          KanbanBoard.make (KanbanBoard.tasks b ++ [task])
            (KanbanBoard.nextTaskId b + 1) in
        kanbanBoard (createTask toISOString data w).1 = Some b'
        /\ saved_tasks (createTask toISOString data w).1
           = Some (KanbanBoard.tasks b', KanbanBoard.nextTaskId b')
        /\ well_numbered b').
Proof.
  intros Hb Hwn Hsafe. rewrite (createTask_run w b data Hb), (increment_exact _ Hsafe).
  eexists.
  split; [reflexivity |]. split; [reflexivity |]. split.
  - simpl. intros (t & Ht & Hin)%list_elem_of_fmap.
    destruct Hwn as [_ Hlt]. rewrite Forall_forall in Hlt.
    specialize (Hlt t Hin). lia.
  - split; [reflexivity |]. split; [reflexivity |]. split; [reflexivity |].
    destruct b as [tasks next]. by apply well_numbered_snoc.
Qed.

Lemma deleteTask_run (w : World R) b id :
  kanbanBoard w = Some b ->
  deleteTask id w
  = (with_board
       (filter (fun t => negb (Task.id t =? id)%Z) (KanbanBoard.tasks b))
       (KanbanBoard.nextTaskId b) w,
     Return tt).
Proof.
  intros Hb. unfold deleteTask, bind, read, update, saveTasks, renderBoard. simpl.
  rewrite Hb. reflexivity.
Qed.

Lemma filter_other_ids id (tasks : list Task.t) :
  filter (fun t => negb (Task.id t =? id)%Z) tasks
  = filter (fun t => Task.id t <> id) tasks.
Proof.
  apply list_filter_iff. intros t. rewrite Is_true_true, negb_true_iff.
  apply Z.eqb_neq.
Qed.

Lemma filter_absent_id id (tasks : list Task.t) :
  id ∉ map Task.id tasks -> filter (fun t => Task.id t <> id) tasks = tasks.
Proof.
  induction tasks as [|t tasks IH]; [done |]. simpl.
  intros [Hne Hnot]%not_elem_of_cons. rewrite filter_cons_True by done.
  by rewrite IH.
Qed.

Lemma well_numbered_filter (P : Task.t -> Prop) `{!forall t, Decision (P t)}
    tasks next :
  well_numbered (KanbanBoard.make tasks next) ->
  well_numbered (KanbanBoard.make (filter P tasks) next).
Proof.
  intros [Hnd Hlt]. simpl in *. split; simpl.
  - clear Hlt. induction tasks as [|t tasks IH]; [constructor |].
    simpl in Hnd. apply NoDup_cons in Hnd as [Hnot Hnd].
    destruct (decide (P t)).
    + rewrite filter_cons_True by done. simpl. apply NoDup_cons.
      split; [| by apply IH].
      intros (t' & Ht' & Hin)%list_elem_of_fmap. apply Hnot.
      apply list_elem_of_filter in Hin as [_ Hin].
      apply list_elem_of_fmap. by exists t'.
    + rewrite filter_cons_False by done. by apply IH.
  - rewrite Forall_forall in *. intros t [_ Hin]%list_elem_of_filter.
    by apply Hlt.
Qed.


(** X10. Creating a task and deleting it again gives back the tasks the
    board had, when its ids were distinct and below [nextTaskId] and
    [nextTaskId + 1] is a safe integer; only [nextTaskId] stays one
    higher, so that the id is not used again. *)
Theorem createTask_then_deleteTask (w : World R) (b : KanbanBoard.t)
    (data : NewTask.t) :
  kanbanBoard w = Some b ->
  well_numbered b ->
  is_safe_integer (KanbanBoard.nextTaskId b + 1) = true ->
  let w1 := (createTask toISOString data w).1 in
  kanbanBoard (deleteTask (KanbanBoard.nextTaskId b) w1).1
  = Some (KanbanBoard.make (KanbanBoard.tasks b) (KanbanBoard.nextTaskId b + 1))
  /\ saved_tasks (deleteTask (KanbanBoard.nextTaskId b) w1).1
     = Some (KanbanBoard.tasks b, (KanbanBoard.nextTaskId b + 1)%Z).
Proof.
  intros Hb [_ Hlt] Hsafe w1. unfold w1.
  rewrite (createTask_run w b data Hb), (increment_exact _ Hsafe).
  cbn [fst]. erewrite deleteTask_run by reflexivity. simpl.
  rewrite filter_other_ids, filter_app, filter_cons_False, filter_nil, app_nil_r
    by (simpl; tauto).
  rewrite filter_absent_id; [done |].
  intros (t & Ht & Hin)%list_elem_of_fmap. rewrite Forall_forall in Hlt.
  specialize (Hlt t Hin). lia.
Qed.

(** What [updateTask] makes of the task it finds, at the time [stamp]. *)
Definition updated (stamp : string) (updates : Task.t -> Task.t) (id : Z)
    (t : Task.t) : Task.t :=
  if (Task.id t =? id)%Z then set_updatedAt stamp (updates t) else t.

Lemma find_id_none id (tasks : list Task.t) :
  id ∉ map Task.id tasks -> find (fun t => (Task.id t =? id)%Z) tasks = None.
Proof.
  induction tasks as [|t tasks IH]; [done |]. simpl.
  intros [Hne Hnot]%not_elem_of_cons.
  destruct (Z.eqb_spec (Task.id t) id); [congruence | by apply IH].
Qed.

Lemma updateTask_run (w : World R) b id updates :
  kanbanBoard w = Some b ->
  NoDup (map Task.id (KanbanBoard.tasks b)) ->
  updateTask toISOString id updates w
  = if bool_decide (id ∈ map Task.id (KanbanBoard.tasks b))
    then (with_board
            (map (updated (toISOString (clock w)) updates id) (KanbanBoard.tasks b))
            (KanbanBoard.nextTaskId b) (tick w),
          Return tt)
    else (w, Return tt).
Proof.
  intros Hb Hnd. unfold updateTask, bind at 1, read. cbn [fst snd]. rewrite Hb.
  destruct (bool_decide_reflect (id ∈ map Task.id (KanbanBoard.tasks b))) as [Hin | Hnot].
  - destruct (find_id_some id _ Hin) as (t & ->).
    unfold bind, now, update, saveTasks, renderBoard. simpl.
    by rewrite (assign_first_map _ _ _ Hnd).
  - by rewrite (find_id_none _ _ Hnot).
Qed.


(** The page after the loop of [importFromSheets] went through the
    rows. *)
Lemma import_loop (rows : list NewTask.t) :
  forall (w : World R) tasks next,
    kanbanBoard w = Some (KanbanBoard.make tasks next) ->
    is_safe_integer next = true ->
    is_safe_integer (next + Z.of_nat (length rows)) = true ->
    exists w' created,
      for_of rows (fun taskData => createTask toISOString taskData ;; ret tt) w
      = (w', Return tt)
      /\ kanbanBoard w'
         = Some (KanbanBoard.make (tasks ++ created) (next + Z.of_nat (length rows)))
      /\ map Task.id created = count_from next (length rows)
      /\ map Task.title created = map NewTask.title rows
      /\ notifications w' = notifications w
      /\ userManager w' = userManager w
      /\ (rows <> [] -> saved_tasks w' = kanbanBoard_saved w')
      /\ (well_numbered (KanbanBoard.make tasks next) ->
          well_numbered
            (KanbanBoard.make (tasks ++ created) (next + Z.of_nat (length rows)))).
Proof.
  induction rows as [|row rows IH]; intros w tasks next Hb Hlo Hhi.
  - exists w, []. cbn [length Z.of_nat]. rewrite app_nil_r, Z.add_0_r.
    do 7 (split; [done |]). done.
  - cbn [for_of]. unfold bind at 1 2.
    apply is_safe_integer_spec in Hlo. apply is_safe_integer_spec in Hhi.
    cbn [length] in Hhi.
    rewrite (createTask_run w _ row Hb). cbn [KanbanBoard.tasks KanbanBoard.nextTaskId].
    rewrite increment_exact by (apply is_safe_integer_spec; lia).
    set (task := new_task next row _ _). set (w1 := with_board _ _ _).
    destruct (IH w1 (tasks ++ [task]) (next + 1)%Z eq_refl)
      as (w' & created & Hrun & Hb' & Hids & Htitles & Hn & Hu & Hsaved & Hwn);
      [apply is_safe_integer_spec; lia | apply is_safe_integer_spec; lia |].
    exists w', (task :: created). unfold ret at 1. cbn [fst snd].
    rewrite Hrun, Hb', <- app_assoc. cbn [length app map count_from].
    rewrite Hids, Htitles, Hn, Hu.
    replace (next + 1 + Z.of_nat (length rows))%Z
      with (next + Z.of_nat (S (length rows)))%Z by lia.
    do 6 (split; [done |]). split.
    + intros _. destruct rows as [|row' rows'].
      * injection Hrun as <-. reflexivity.
      * by apply Hsaved.
    + intros Hwn0.
      replace (next + Z.of_nat (S (length rows)))%Z
        with (next + 1 + Z.of_nat (length rows))%Z by lia.
      rewrite <- app_assoc in Hwn. apply Hwn. by apply well_numbered_snoc.
Qed.


(** ** Assigning tasks to users *)

Lemma updated_id stamp updates id t :
  (forall t, Task.id (updates t) = Task.id t) ->
  Task.id (updated stamp updates id t) = Task.id t.
Proof. intros H. unfold updated. destruct (Task.id t =? id)%Z; [apply H | done]. Qed.

Lemma updated_absent stamp updates id (tasks : list Task.t) :
  id ∉ map Task.id tasks -> map (updated stamp updates id) tasks = tasks.
Proof.
  induction tasks as [|t tasks IH]; [done |]. simpl.
  intros [Hne Hnot]%not_elem_of_cons. rewrite IH by done. unfold updated.
  destruct (Z.eqb_spec (Task.id t) id); [congruence | done].
Qed.

(** The board after [updateTask], with distinct ids. *)
Lemma updateTask_board (w : World R) b id updates :
  kanbanBoard w = Some b ->
  NoDup (map Task.id (KanbanBoard.tasks b)) ->
  kanbanBoard (updateTask toISOString id updates w).1
  = Some (KanbanBoard.make
            (map (updated (toISOString (clock w)) updates id) (KanbanBoard.tasks b))
            (KanbanBoard.nextTaskId b)).
Proof.
  intros Hb Hnd. rewrite (updateTask_run w b id updates Hb Hnd).
  destruct (bool_decide_reflect (id ∈ map Task.id (KanbanBoard.tasks b)));
    [done |].
  rewrite updated_absent by done. simpl. rewrite Hb. by destruct b.
Qed.

(** The ids of the tasks that [getUserAssignedTasks] finds for [q]. *)
Definition assigned_ids (q : ref) (w : World R) : list Z :=
  match (getUserAssignedTasks q w).2 with
  | Return tasks => map Task.id tasks
  | Throw _ => []
  end.

Lemma assigned_ids_spec q (w : World R) b i :
  kanbanBoard w = Some b ->
  i ∈ assigned_ids q w
  <-> exists t,
        t ∈ KanbanBoard.tasks b /\ Task.id t = i
        /\ same_number (id_number (Task.assignee t)) (id_number q) = true.
Proof.
  intros Hb. unfold assigned_ids, getUserAssignedTasks, bind, read. simpl.
  rewrite Hb. simpl. rewrite list_elem_of_fmap. split.
  - intros (t & -> & [Ht Hin]%list_elem_of_filter). exists t.
    by rewrite <- Is_true_true.
  - intros (t & Hin & <- & Ht). exists t. split; [done |].
    apply list_elem_of_filter. by rewrite Is_true_true.
Qed.

(** X13. After [assignTaskToUser(taskId, userId)], on a board with
    distinct ids and for a [userId] that reads as a number, the tasks
    that [getUserAssignedTasks] finds for the user, asked by number or by
    a string that reads as that number, are the task [taskId], if the
    board has it, and the tasks it found before, but for no others. *)
Theorem assignTaskToUser_then_assigned (w : World R) (b : KanbanBoard.t)
    (taskId : Z) (userId q : ref) :
  kanbanBoard w = Some b ->
  NoDup (map Task.id (KanbanBoard.tasks b)) ->
  same_number (id_number userId) (id_number q) = true ->
  forall i,
    i ∈ assigned_ids q (assignTaskToUser toISOString taskId userId w).1
    <-> i = taskId /\ taskId ∈ map Task.id (KanbanBoard.tasks b)
        \/ i ∈ assigned_ids q w.
Proof.
  intros Hb Hnd Hu i. unfold assignTaskToUser, bind at 1, read. cbn [fst snd].
  rewrite Hb.
  rewrite (assigned_ids_spec q _ _ i (updateTask_board w b taskId _ Hb Hnd)),
    (assigned_ids_spec q w b i Hb).
  cbn [KanbanBoard.tasks]. split.
  - intros (t' & (t & -> & Hin)%list_elem_of_fmap & Hid & Hsame).
    unfold updated in *. destruct (Z.eqb_spec (Task.id t) taskId) as [He | Hne].
    + left. simpl in Hid. split; [congruence |].
      apply list_elem_of_fmap. exists t. by split.
    + right. by exists t.
  - intros [[-> (t & -> & Hin)%list_elem_of_fmap] | (t & Hin & Hid & Hsame)].
    + exists (updated (toISOString (clock w)) (set_assignee userId) (Task.id t) t).
      split; [apply list_elem_of_fmap; by exists t |].
      unfold updated. rewrite Z.eqb_refl. simpl. by split.
    + exists (updated (toISOString (clock w)) (set_assignee userId) taskId t).
      split; [apply list_elem_of_fmap; by exists t |].
      unfold updated. destruct (Z.eqb_spec (Task.id t) taskId) as [He | Hne].
      * simpl. by split.
      * by split.
Qed.

(** X14. After [unassignTask(taskId)], on a board with distinct ids,
    [getUserAssignedTasks] finds the task [taskId] for no user, and for
    every user the other tasks it found before. *)
Theorem unassignTask_then_unassigned (w : World R) (b : KanbanBoard.t)
    (taskId : Z) (q : ref) :
  kanbanBoard w = Some b ->
  NoDup (map Task.id (KanbanBoard.tasks b)) ->
  forall i,
    i ∈ assigned_ids q (unassignTask toISOString taskId w).1
    <-> i <> taskId /\ i ∈ assigned_ids q w.
Proof.
  intros Hb Hnd i. unfold unassignTask, bind at 1, read. cbn [fst snd].
  rewrite Hb.
  rewrite (assigned_ids_spec q _ _ i (updateTask_board w b taskId _ Hb Hnd)),
    (assigned_ids_spec q w b i Hb).
  cbn [KanbanBoard.tasks]. split.
  - intros (t' & (t & -> & Hin)%list_elem_of_fmap & Hid & Hsame).
    unfold updated in *. destruct (Z.eqb_spec (Task.id t) taskId) as [He | Hne].
    + by simpl in Hsame.
    + split; [congruence | by exists t].
  - intros [Hne (t & Hin & Hid & Hsame)].
    exists (updated (toISOString (clock w)) (set_assignee (RefStr "")) taskId t).
    split; [apply list_elem_of_fmap; by exists t |].
    unfold updated. destruct (Z.eqb_spec (Task.id t) taskId); [congruence | done].
Qed.

End BoardStore.

(** The board of three tasks, and what the task form gives for a task
    with a title only. *)
Definition board_of_three : World unit := connected_page tt three_tasks two_users.

Definition titled_only (title : string) : NewTask.t :=
  NewTask.make title VUndefined (RefStr "") VUndefined "" VUndefined
    VUndefined VUndefined.

Lemma well_numbered_three : well_numbered (KanbanBoard.make three_tasks 4).
Proof.
  split.
  - apply (bool_decide_unpack _). by vm_compute.
  - repeat constructor.
Qed.

Lemma createTask_fresh_id_witness :
  exists task,
    (createTask fixed_clock (titled_only "Plan sprint") board_of_three).2
    = Return task
    /\ Task.id task = 4%Z
    /\ (Task.id task ∉ [1; 2; 3]%Z)
    /\ Task.title task = "Plan sprint"
    /\ kanbanBoard (createTask fixed_clock (titled_only "Plan sprint") board_of_three).1
       = Some (KanbanBoard.make (three_tasks ++ [task]) 5)
    /\ saved_tasks (createTask fixed_clock (titled_only "Plan sprint") board_of_three).1
       = Some (three_tasks ++ [task], 5%Z)
    /\ well_numbered (KanbanBoard.make (three_tasks ++ [task]) 5).
Proof.
  exact (createTask_fresh_id fixed_clock board_of_three
           (KanbanBoard.make three_tasks 4) (titled_only "Plan sprint")
           eq_refl well_numbered_three eq_refl).
Defined.


Lemma createTask_then_deleteTask_witness :
  let w1 := (createTask fixed_clock (titled_only "Plan sprint") board_of_three).1 in
  kanbanBoard (deleteTask 4 w1).1 = Some (KanbanBoard.make three_tasks 5)
  /\ saved_tasks (deleteTask 4 w1).1 = Some (three_tasks, 5%Z).
Proof.
  exact (createTask_then_deleteTask fixed_clock board_of_three
           (KanbanBoard.make three_tasks 4) (titled_only "Plan sprint")
           eq_refl well_numbered_three eq_refl).
Defined.



Lemma assignTaskToUser_then_assigned_witness :
  let w1 := (assignTaskToUser fixed_clock 2 (RefStr "8") board_of_three).1 in
  (2%Z ∈ assigned_ids (RefNum 8) w1
   <-> 2%Z = 2%Z /\ 2%Z ∈ map Task.id three_tasks
       \/ 2%Z ∈ assigned_ids (RefNum 8) board_of_three)
  /\ (1%Z ∈ assigned_ids (RefNum 8) w1
      <-> 1%Z = 2%Z /\ 2%Z ∈ map Task.id three_tasks
          \/ 1%Z ∈ assigned_ids (RefNum 8) board_of_three).
Proof.
  split.
  - exact (assignTaskToUser_then_assigned fixed_clock board_of_three
             (KanbanBoard.make three_tasks 4) 2 (RefStr "8") (RefNum 8)
             eq_refl (proj1 well_numbered_three) eq_refl 2%Z).
  - exact (assignTaskToUser_then_assigned fixed_clock board_of_three
             (KanbanBoard.make three_tasks 4) 2 (RefStr "8") (RefNum 8)
             eq_refl (proj1 well_numbered_three) eq_refl 1%Z).
Defined.

Lemma unassignTask_then_unassigned_witness :
  let w1 := (unassignTask fixed_clock 1 board_of_three).1 in
  (1%Z ∈ assigned_ids (RefStr "7") w1
   <-> 1%Z <> 1%Z /\ 1%Z ∈ assigned_ids (RefStr "7") board_of_three)
  /\ (3%Z ∈ assigned_ids (RefStr "7") w1
      <-> 3%Z <> 1%Z /\ 3%Z ∈ assigned_ids (RefStr "7") board_of_three).
Proof.
  split.
  - exact (unassignTask_then_unassigned fixed_clock board_of_three
             (KanbanBoard.make three_tasks 4) 1 (RefStr "7")
             eq_refl (proj1 well_numbered_three) 1%Z).
  - exact (unassignTask_then_unassigned fixed_clock board_of_three
             (KanbanBoard.make three_tasks 4) 1 (RefStr "7")
             eq_refl (proj1 well_numbered_three) 3%Z).
Defined.

(* ===================================================================== *)
(** * The roles of the user manager *)
(* ===================================================================== *)

Section RoleStore.

Context {R : Type}.
Context (confirm : string -> bool).

Lemma includes_elem (l : list string) x : GitHubBoards.includes l x = true <-> x ∈ l.
Proof.
  unfold GitHubBoards.includes. rewrite existsb_exists. split.
  - intros (y & Hin & ->%String.eqb_eq). by apply list_elem_of_In.
  - intros Hin. exists x. split; [by apply list_elem_of_In | apply String.eqb_refl].
Qed.

Lemma includes_not_elem (l : list string) x :
  GitHubBoards.includes l x = false <-> x ∉ l.
Proof. rewrite <- includes_elem. by destruct (GitHubBoards.includes l x). Qed.

(** X15. [createRole] keeps the names of the roles distinct: it adds the
    name last, saves the roles and returns [true] when no role has the
    name, and returns [false] with the roles as they were, and nothing
    saved, when one has.  Names are compared as they are written, so with
    the case of their letters.  The board and the users are not
    touched. *)
Theorem createRole_keeps_distinct (w : World R) (s : Roles.t) (name : string) :
  NoDup (Roles.roles s) ->
  exists s' ok,
    (createRole name s w).2 = Return (s', ok)
    /\ NoDup (Roles.roles s')
    /\ (ok = true <-> name ∉ Roles.roles s)
    /\ (ok = true ->
        Roles.roles s' = Roles.roles s ++ [name]
        /\ Roles.saved s' = Some (Roles.roles s'))
    /\ (ok = false -> s' = s)
    /\ kanbanBoard (createRole name s w).1 = kanbanBoard w
    /\ userManager (createRole name s w).1 = userManager w.
Proof.
  intros Hnd. unfold createRole.
  destruct (GitHubBoards.includes (Roles.roles s) name) eqn:Hin.
  - apply includes_elem in Hin. exists s, false.
    split; [done |]. split; [done |]. split; [by split |]. by repeat split.
  - apply includes_not_elem in Hin. eexists _, true.
    split; [reflexivity |]. simpl. split.
    + apply NoDup_app. split; [done |]. split; [| apply NoDup_singleton].
      intros x Hx ->%list_elem_of_singleton. done.
    + split; [by split |]. by repeat split.
Qed.

Lemma indexOf_None roles name : indexOf roles name = None <-> name ∉ roles.
Proof.
  induction roles as [|r roles IH]; simpl.
  - split; [intros _; apply not_elem_of_nil | done].
  - rewrite not_elem_of_cons, <- IH.
    destruct (String.eqb_spec r name) as [-> | Hne].
    + split; [done | by intros [? _]].
    + destruct (indexOf roles name).
      * split; [done | by intros [_ ?]].
      * split; [intros _; split; [congruence | done] | done].
Qed.

(** With distinct names, writing at the index of a name is renaming it. *)
Lemma insert_indexOf roles old new i :
  NoDup roles -> indexOf roles old = Some i ->
  <[i := new]> roles = map (fun r => if String.eqb r old then new else r) roles.
Proof.
  revert i. induction roles as [|r roles IH]; intros i Hnd; [done |]. simpl.
  apply NoDup_cons in Hnd as [Hnot Hnd].
  destruct (String.eqb_spec r old) as [-> | Hne].
  - intros [= <-]. simpl. f_equal. rewrite <- (map_id roles) at 1.
    apply map_ext_in. intros r Hin.
    destruct (String.eqb_spec r old) as [-> | _]; [| done].
    by apply list_elem_of_In in Hin.
  - destruct (indexOf roles old) as [j|] eqn:Ej; [| done].
    intros [= <-]. simpl. f_equal. by apply IH.
Qed.

Lemma NoDup_rename (roles : list string) old new :
  NoDup roles -> new ∉ roles \/ new = old ->
  NoDup (map (fun r => if String.eqb r old then new else r) roles).
Proof.
  intros Hnd [Hnew | ->].
  - induction roles as [|r roles IH]; [constructor |]. simpl.
    apply NoDup_cons in Hnd as [Hnot Hnd].
    apply not_elem_of_cons in Hnew as [Hne Hnew].
    apply NoDup_cons. split; [| by apply IH].
    intros (r' & Heq & Hin)%list_elem_of_fmap.
    destruct (String.eqb_spec r old) as [Hr | Hr];
      destruct (String.eqb_spec r' old) as [Hr' | Hr']; subst; done.
  - rewrite (map_ext _ id), map_id; [done |]. intros r. unfold id.
    by destruct (String.eqb_spec r old).
Qed.

(** X16. [updateRole] renames a role in its place and saves the roles,
    when a role has the old name and no role has the new one, or the new
    name is the old one; otherwise it returns [false] and changes
    nothing.  The names stay distinct.  The users are never touched: one
    who had the old role still has it, though it is a role no more. *)
Theorem updateRole_renames (w : World R) (s : Roles.t) (oldName newName : string) :
  NoDup (Roles.roles s) ->
  exists s' ok,
    (updateRole oldName newName s w).2 = Return (s', ok)
    /\ (ok = true
        <-> oldName ∈ Roles.roles s
            /\ (newName ∉ Roles.roles s \/ newName = oldName))
    /\ (ok = true ->
        Roles.roles s'
        = map (fun r => if String.eqb r oldName then newName else r) (Roles.roles s)
        /\ NoDup (Roles.roles s')
        /\ Roles.saved s' = Some (Roles.roles s'))
    /\ (ok = false -> s' = s)
    /\ userManager (updateRole oldName newName s w).1 = userManager w
    /\ kanbanBoard (updateRole oldName newName s w).1 = kanbanBoard w.
Proof.
  intros Hnd. unfold updateRole.
  destruct (indexOf (Roles.roles s) oldName) as [i|] eqn:Ei.
  - assert (oldName ∈ Roles.roles s) as Hold.
    { destruct (decide (oldName ∈ Roles.roles s)) as [|Hnot]; [done |].
      apply indexOf_None in Hnot. congruence. }
    destruct (GitHubBoards.includes (Roles.roles s) newName) eqn:Hin;
      [destruct (String.eqb_spec newName oldName) as [-> | Hne] |]; simpl.
    + eexists _, true. split; [reflexivity |]. simpl.
      rewrite (insert_indexOf _ _ _ _ Hnd Ei).
      split; [split; [by auto | done] |]. split; [| by repeat split].
      intros _. split; [done |]. split; [| done]. apply NoDup_rename; auto.
    + apply includes_elem in Hin. exists s, false. split; [done |].
      split; [split; [done | intros [_ [? | ?]]; done] |]. by repeat split.
    + apply includes_not_elem in Hin. eexists _, true. split; [reflexivity |].
      simpl. rewrite (insert_indexOf _ _ _ _ Hnd Ei).
      split; [split; [by auto | done] |]. split; [| by repeat split].
      intros _. split; [done |]. split; [| done]. apply NoDup_rename; auto.
  - apply indexOf_None in Ei. exists s, false. split; [done |].
    split; [split; [done | by intros [? _]] |]. by repeat split.
Qed.

(** The users that [deleteRole] reassigns. *)
Definition holders (name : string) (users : list User.t) : list User.t :=
  filter (fun u => String.eqb (User.role u) name) users.

Definition reassigned (name newRole : string) (u : User.t) : User.t :=
  if String.eqb (User.role u) name then set_role newRole u else u.

Lemma replacement_role_other roles name :
  (exists r, r ∈ roles /\ r <> name) ->
  replacement_role roles name ∈ roles /\ replacement_role roles name <> name.
Proof.
  intros (r & Hin & Hne). unfold replacement_role.
  destruct (find _ roles) as [r'|] eqn:Ef.
  - apply find_some in Ef as [Hin' Hne']. split; [by apply list_elem_of_In |].
    apply negb_true_iff in Hne'. by apply String.eqb_neq.
  - exfalso. apply list_elem_of_In in Hin.
    apply (find_none _ _ Ef) in Hin. apply negb_false_iff in Hin.
    by apply String.eqb_eq in Hin.
Qed.

Lemma deleteRole_run (w : World R) (s : Roles.t) (name : string) um :
  userManager w = Some um ->
  deleteRole confirm name s w
  = let users := UserManager.users um in
    let n := length (holders name users) in
    let kept := filter (fun r => negb (String.eqb r name)) (Roles.roles s) in
    let done_ := add_notification ("Role deleted successfully", "success") in
    if (0 <? n)%nat then
      if confirm (delete_role_prompt n) then
        let users' := map (reassigned name (replacement_role (Roles.roles s) name)) users in
        (done_
           (set_saved_users (Some (users', UserManager.nextUserId um))
              (set_userManager
                 (Some (UserManager.make users' (UserManager.nextUserId um))) w)),
         Return (Roles.make kept (Some kept), true))
      else (w, Return (s, false))
    else (done_ w, Return (Roles.make kept (Some kept), true)).
Proof.
  intros Hum. unfold deleteRole, bind at 1, read. cbn [fst snd]. rewrite Hum.
  unfold holders. cbv zeta.
  destruct (0 <? length _)%nat; [| reflexivity].
  destruct (confirm _); reflexivity.
Qed.

(** X17. [deleteRole], when no user has the role or the user confirms,
    removes the role from the roles, keeps the others in their order and
    saves them; every user who had the role gets the first of the other
    roles, or the empty string when there is none, and the users are
    saved; the other users are as they were.  Where another role
    exists, no user has the deleted role afterwards.  When users have
    the role and the user declines, nothing changes and [false] is
    returned.  The tasks are never touched. *)
Theorem deleteRole_reassigns (w : World R) (s : Roles.t) (name : string)
    (um : UserManager.t) :
  userManager w = Some um ->
  let users := UserManager.users um in
  let n := length (holders name users) in
  (n <> 0 -> confirm (delete_role_prompt n) = false ->
   deleteRole confirm name s w = (w, Return (s, false)))
  /\ (n = 0 \/ confirm (delete_role_prompt n) = true ->
      exists s' users',
        (deleteRole confirm name s w).2 = Return (s', true)
        /\ Roles.roles s' = filter (fun r => r <> name) (Roles.roles s)
        /\ (name ∉ Roles.roles s')
        /\ Roles.saved s' = Some (Roles.roles s')
        /\ userManager (deleteRole confirm name s w).1
           = Some (UserManager.make users' (UserManager.nextUserId um))
        /\ Forall2
             (fun u u' =>
                if decide (User.role u = name)
                then u' = set_role (replacement_role (Roles.roles s) name) u
                else u' = u)
             users users'
        /\ ((exists r, r ∈ Roles.roles s /\ r <> name) ->
            Forall (fun u' => User.role u' <> name) users')
        /\ (n <> 0 ->
            saved_users (deleteRole confirm name s w).1
            = Some (users', UserManager.nextUserId um))
        /\ kanbanBoard (deleteRole confirm name s w).1 = kanbanBoard w).
Proof.
  intros Hum users n. rewrite (deleteRole_run w s name um Hum). cbv zeta.
  fold users. fold n. split.
  - intros Hn Hc. destruct (Nat.ltb_spec 0 n); [| lia]. by rewrite Hc.
  - intros Hgo.
    assert (filter (fun r => negb (String.eqb r name)) (Roles.roles s)
            = filter (fun r => r <> name) (Roles.roles s)) as Hkept.
    { apply list_filter_iff. intros r. rewrite Is_true_true, negb_true_iff.
      apply String.eqb_neq. }
    assert (name ∉ filter (fun r => r <> name) (Roles.roles s)) as Hgone.
    { by intros [? _]%list_elem_of_filter. }
    assert (Forall2
              (fun u u' =>
                 if decide (User.role u = name)
                 then u' = set_role (replacement_role (Roles.roles s) name) u
                 else u' = u)
              users (map (reassigned name (replacement_role (Roles.roles s) name)) users))
      as Hre.
    { apply Forall2_fmap_r, Forall_Forall2_diag, Forall_forall. intros u _.
      unfold reassigned, compose.
      destruct (decide (User.role u = name)) as [Heq | Hne].
      - apply String.eqb_eq in Heq. by rewrite Heq.
      - apply String.eqb_neq in Hne. by rewrite Hne. }
    assert ((exists r, r ∈ Roles.roles s /\ r <> name) ->
            Forall (fun u' => User.role u' <> name)
              (map (reassigned name (replacement_role (Roles.roles s) name)) users))
      as Hnone.
    { intros [_ Hother]%replacement_role_other. apply Forall_fmap, Forall_forall.
      intros u _. unfold reassigned, compose.
      destruct (String.eqb_spec (User.role u) name); done. }
    destruct (Nat.ltb_spec 0 n) as [Hpos | Hzero].
    + destruct Hgo as [-> | ->]; [lia |].
      eexists _, _. split; [reflexivity |]. simpl. rewrite Hkept.
      do 5 (split; [done |]). by repeat split.
    + assert (n = 0) as Hn by lia.
      assert (map (reassigned name (replacement_role (Roles.roles s) name)) users
              = users) as Hsame.
      { rewrite <- (map_id users) at 2. apply map_ext_in. intros u Hin.
        unfold reassigned. destruct (String.eqb_spec (User.role u) name) as [He | _];
          [| done].
        exfalso. assert (u ∈ holders name users) as Hh.
        { apply list_elem_of_filter. split; [| by apply list_elem_of_In].
          apply Is_true_true. by apply String.eqb_eq. }
        unfold n in Hn. destruct (holders name users); [| done].
        by apply elem_of_nil in Hh. }
      rewrite Hsame in Hre, Hnone.
      exists (Roles.make (filter (fun r => r <> name) (Roles.roles s))
                (Some (filter (fun r => r <> name) (Roles.roles s)))), users.
      rewrite Hkept. split; [done |]. simpl.
      do 3 (split; [done |]). split; [by rewrite Hum; destruct um |].
      do 2 (split; [done |]). by split.
Qed.

End RoleStore.

(** The roles a user manager starts with. *)
Definition default_roles : Roles.t :=
  Roles.make ["Developer"; "Designer"; "Manager"; "QA"] None.

Lemma NoDup_default_roles : NoDup (Roles.roles default_roles).
Proof. apply (bool_decide_unpack _). by vm_compute. Qed.

Lemma createRole_keeps_distinct_witness :
  exists s' ok,
    (createRole "developer" default_roles board_of_three).2 = Return (s', ok)
    /\ NoDup (Roles.roles s')
    /\ (ok = true <-> "developer" ∉ Roles.roles default_roles)
    /\ (ok = true ->
        Roles.roles s' = Roles.roles default_roles ++ ["developer"]
        /\ Roles.saved s' = Some (Roles.roles s'))
    /\ (ok = false -> s' = default_roles)
    /\ kanbanBoard (createRole "developer" default_roles board_of_three).1
       = kanbanBoard board_of_three
    /\ userManager (createRole "developer" default_roles board_of_three).1
       = userManager board_of_three.
Proof.
  exact (createRole_keeps_distinct board_of_three default_roles "developer"
           NoDup_default_roles).
Defined.

Lemma updateRole_renames_witness :
  exists s' ok,
    (updateRole "QA" "Tester" default_roles board_of_three).2 = Return (s', ok)
    /\ (ok = true
        <-> "QA" ∈ Roles.roles default_roles
            /\ ("Tester" ∉ Roles.roles default_roles \/ "Tester" = "QA"))
    /\ (ok = true ->
        Roles.roles s'
        = map (fun r => if String.eqb r "QA" then "Tester" else r)
            (Roles.roles default_roles)
        /\ NoDup (Roles.roles s')
        /\ Roles.saved s' = Some (Roles.roles s'))
    /\ (ok = false -> s' = default_roles)
    /\ userManager (updateRole "QA" "Tester" default_roles board_of_three).1
       = userManager board_of_three
    /\ kanbanBoard (updateRole "QA" "Tester" default_roles board_of_three).1
       = kanbanBoard board_of_three.
Proof.
  exact (updateRole_renames board_of_three default_roles "QA" "Tester"
           NoDup_default_roles).
Defined.

Lemma deleteRole_reassigns_witness :
  let confirm := fun _ : string => true in
  let users := two_users in
  let n := length (holders "designer" users) in
  (n <> 0 -> confirm (delete_role_prompt n) = false ->
   deleteRole confirm "designer" default_roles board_of_three
   = (board_of_three, Return (default_roles, false)))
  /\ (n = 0 \/ confirm (delete_role_prompt n) = true ->
      exists s' users',
        (deleteRole confirm "designer" default_roles board_of_three).2
        = Return (s', true)
        /\ Roles.roles s'
           = filter (fun r => r <> "designer") (Roles.roles default_roles)
        /\ ("designer" ∉ Roles.roles s')
        /\ Roles.saved s' = Some (Roles.roles s')
        /\ userManager (deleteRole confirm "designer" default_roles board_of_three).1
           = Some (UserManager.make users' 3)
        /\ Forall2
             (fun u u' =>
                if decide (User.role u = "designer")
                then u' = set_role
                            (replacement_role (Roles.roles default_roles) "designer") u
                else u' = u)
             users users'
        /\ ((exists r, r ∈ Roles.roles default_roles /\ r <> "designer") ->
            Forall (fun u' => User.role u' <> "designer") users')
        /\ (n <> 0 ->
            saved_users (deleteRole confirm "designer" default_roles board_of_three).1
            = Some (users', 3%Z))
        /\ kanbanBoard (deleteRole confirm "designer" default_roles board_of_three).1
           = kanbanBoard board_of_three).
Proof.
  exact (deleteRole_reassigns (fun _ => true) board_of_three default_roles
           "designer" (UserManager.make two_users 3) eq_refl).
Defined.

(* ===================================================================== *)
(** * Ids as numbers and as strings *)
(* ===================================================================== *)

Section Ids.

Import Str.

Lemma digit_plain c :
  is_digit c = true ->
  is_space c = false /\ Ascii.eqb c "-" = false /\ Ascii.eqb c "+" = false
  /\ has_digit 10 (String c "") = true.
Proof. destruct c as [[] [] [] [] [] [] [] []]; try done. Qed.

Lemma parseInt_digits c r :
  is_digit c = true -> Ascii.eqb c "0" = false ->
  parseInt (String c r) = of_Z (read_digits 10 0 (String c r))
  /\ parseInt (String "-" (String c r)) = of_Z (- read_digits 10 0 (String c r)).
Proof.
  intros Hc H0. destruct (digit_plain c Hc) as (Hsp & Hm & Hpl & Hd).
  assert (has_digit 10 (String c r) = true) as Hd' by exact Hd.
  assert (starts_with "0x" (String c r) || starts_with "0X" (String c r) = false)
    as Hradix.
  { change (starts_with "0x" (String c r)) with (Ascii.eqb "0" c && starts_with "x" r).
    change (starts_with "0X" (String c r)) with (Ascii.eqb "0" c && starts_with "X" r).
    by rewrite (Ascii.eqb_sym "0" c), H0. }
  split.
  - unfold parseInt. cbn [drop_while]. rewrite Hsp, Hm, Hpl, Hradix, Hd'.
    f_equal. lia.
  - unfold parseInt. change (drop_while is_space (String "-" ?s)) with (String "-" s).
    cbn [Ascii.eqb Bool.eqb]. rewrite Hradix, Hd'. f_equal; lia.
Qed.

(** [parseInt(n.toString())] is [n], for a safe integer [n]. *)
Lemma parseInt_string_of_Z n :
  is_safe_integer n = true -> parseInt (string_of_Z n) = Int n.
Proof.
  intros Hn. rewrite (string_of_Z_safe n Hn). destruct n as [|p|p].
  - reflexivity.
  - rewrite digits_of_Z_pos. pose proof (read_digits_of_pos p) as Hv.
    destruct (to_uint_head p) as (c & r & Hs & Hc & H0). rewrite Hs in *.
    destruct (parseInt_digits c r Hc H0) as [-> _]. by rewrite Hv, of_Z_safe.
  - rewrite digits_of_Z_neg. pose proof (read_digits_of_pos p) as Hv.
    destruct (to_uint_head p) as (c & r & Hs & Hc & H0). rewrite Hs in *.
    destruct (parseInt_digits c r Hc H0) as [_ ->]. by rewrite Hv, of_Z_safe.
Qed.

Lemma all_rev f s : all f (rev s) = all f s.
Proof.
  induction s as [|c s IH]; [done |].
  change (String c s) with (cat (String c "") s).
  rewrite rev_cat, !all_cat, IH. apply andb_comm.
Qed.

Lemma all_unpadded f s :
  (forall c, f c = true -> is_space c = false) -> all f s = true -> unpadded s.
Proof.
  intros Hf Hs. split; intros c Hc.
  - destruct s as [|c' s]; [done |]. injection Hc as ->. simpl in Hs.
    apply andb_true_iff in Hs as [Hc _]. by apply Hf.
  - unfold last_char in Hc. rewrite <- all_rev in Hs.
    destruct (rev s) as [|c' s']; [done |]. injection Hc as ->. simpl in Hs.
    apply andb_true_iff in Hs as [Hc _]. by apply Hf.
Qed.

Lemma digit_not_space c : is_digit c = true -> is_space c = false.
Proof. destruct c as [[] [] [] [] [] [] [] []]; done. Qed.

(** The number that a run of digits converts to, where it does not start
    with 0 and stands for a safe integer. *)
Lemma unsigned_decimal_digits negative p :
  is_safe_integer (Zpos p) = true ->
  unsigned_decimal negative (NilEmpty.string_of_uint (Pos.to_uint p))
  = Int (if negative then Zneg p else Zpos p).
Proof.
  intros Hp. pose proof (digits_of_uint (Pos.to_uint p)) as Hall.
  destruct (take_digits _ "" Hall I) as [Ht Hd]. rewrite cat_empty_r in Ht, Hd.
  destruct (to_uint_head p) as (c & r & Hs & Hc & H0).
  unfold unsigned_decimal. rewrite Ht, Hd. cbv iota beta. rewrite cat_empty_r.
  assert (String.eqb (NilEmpty.string_of_uint (Pos.to_uint p)) "Infinity" = false)
    as ->.
  { rewrite Hs. apply String.eqb_neq. intros [= -> _]. done. }
  assert (String.eqb (NilEmpty.string_of_uint (Pos.to_uint p)) "" = false) as ->.
  { by rewrite Hs. }
  cbn [read_exponent String.length Z.of_nat]. rewrite read_digits_of_pos.
  exact (of_decimal_safe negative p Hp).
Qed.

(** A safe integer written out converts to itself. *)
Lemma ToNumber_string_of_Z n :
  is_safe_integer n = true -> ToNumber (string_of_Z n) = Int n.
Proof.
  intros Hn. rewrite (string_of_Z_safe n Hn). destruct n as [|p|p].
  - reflexivity.
  - rewrite digits_of_Z_pos. pose proof (unsigned_decimal_digits false p Hn) as Hu.
    pose proof (digits_of_uint (Pos.to_uint p)) as Hall.
    destruct (to_uint_head p) as (c & r & Hs & Hc & H0). rewrite Hs in *.
    unfold ToNumber. rewrite trim_unpadded by exact (all_unpadded _ _ digit_not_space Hall).
    destruct (digit_plain c Hc) as (_ & Hm & Hpl & _).
    unfold prefixed.
    change (starts_with ?a (String c r))
      with (Ascii.eqb "0" c && starts_with (drop 1 a) r).
    rewrite (Ascii.eqb_sym "0" c), H0. cbn [andb orb String.eqb].
    by rewrite Hm, Hpl.
  - rewrite digits_of_Z_neg.
    assert (is_safe_integer (Zpos p) = true) as Hp.
    { apply is_safe_integer_spec. apply is_safe_integer_spec in Hn. lia. }
    pose proof (unsigned_decimal_digits true p Hp) as Hu.
    pose proof (digits_of_uint (Pos.to_uint p)) as Hall.
    unfold ToNumber.
    rewrite trim_unpadded.
    + unfold prefixed. cbn [starts_with Ascii.eqb Bool.eqb andb orb String.eqb].
      exact Hu.
    + apply (all_unpadded (fun c => is_digit c || Ascii.eqb c "-")).
      * intros c [Hc | ->%Ascii.eqb_eq]%orb_true_iff; [by apply digit_not_space | done].
      * simpl. eapply all_impl; [| exact Hall]. by intros c ->.
Qed.

End Ids.

Section UserNames.

(** The users whose id is loosely equal to a number. *)
Definition with_id (n : number) (users : list User.t) : list User.t :=
  filter (fun u => loosely_equal (User.id u) n = true) users.

Lemma find_head {A} (f : A -> bool) (l : list A) : find f l = head (filter (fun x => f x = true) l).
Proof.
  induction l as [|x l IH]; [done |]. simpl.
  destruct (f x) eqn:Ex.
  - by rewrite filter_cons_True.
  - rewrite filter_cons_False by congruence. exact IH.
Qed.

(** X18. [getUser] finds the same user for a safe integer given as a
    number and written out as a string.  What it finds is the first user
    of the list whose id is loosely equal to the number: an id that is
    that number, or that is a string that converts to it, as the number
    written out does.  It finds none exactly when no user has such an id,
    and for a string that [parseInt] does not read as a number it finds
    none. *)
Theorem getUser_number_or_string (users : list User.t) (n : Z) :
  is_safe_integer n = true ->
  getUser users (RefStr (string_of_Z n)) = getUser users (RefNum n)
  /\ getUser users (RefNum n) = head (with_id (Int n) users)
  /\ (forall u, getUser users (RefNum n) = Some u ->
        u ∈ users /\ loosely_equal (User.id u) (Int n) = true)
  /\ (getUser users (RefNum n) = None
      <-> forall u, u ∈ users -> loosely_equal (User.id u) (Int n) = false)
  /\ (forall m, loosely_equal (RefNum m) (Int n) = true <-> m = n)
  /\ loosely_equal (RefStr (string_of_Z n)) (Int n) = true
  /\ (forall s, parseInt s = NaN -> getUser users (RefStr s) = None).
Proof.
  intros Hn. unfold getUser. simpl. rewrite (parseInt_string_of_Z n Hn).
  split; [done |]. split; [apply find_head |]. split; [| split; [| split; [| split]]].
  - intros u [Hin Hid]%find_some. split; [by apply list_elem_of_In | done].
  - split.
    + intros Hnone u Hin%list_elem_of_In. exact (find_none _ _ Hnone u Hin).
    + intros Hall. destruct (find _ users) as [u|] eqn:Ef; [| done].
      apply find_some in Ef as [Hin%list_elem_of_In Hid].
      rewrite (Hall u Hin) in Hid. done.
  - intros m. simpl. apply Z.eqb_eq.
  - simpl. rewrite (ToNumber_string_of_Z n Hn). simpl. apply Z.eqb_refl.
  - intros s ->. induction users as [|u users IH]; [done |]. simpl.
    assert (loosely_equal (User.id u) NaN = false) as ->; [| exact IH].
    unfold loosely_equal, number_eqb.
    by destruct (User.id u) as [t|m]; [destruct (ToNumber t) |].
Qed.

Lemma display_name_nonempty u : display_name u <> "".
Proof.
  unfold display_name.
  destruct (String.eqb_spec (User.name u) ""); simpl; [| done].
  destruct (String.eqb_spec (User.email u) ""); simpl; done.
Qed.

Lemma cat_nonempty a b : a <> "" -> cat a b <> "".
Proof. by destruct a. Qed.

(** The user that [getUserName] looks up: none without a user manager. *)
Definition looked_up (manager : option UserManager.t) (userId : ref)
    : option User.t :=
  match manager with
  | Some um => getUser (UserManager.users um) userId
  | None => None
  end.

(** X19. The name that [getUserName] shows for an assignee is never
    empty.  It is [Unassigned] for an assignee that is empty, zero, or a
    string that [parseInt] does not read as a number.  Otherwise it is
    the name of the user that [getUser] finds, or the email when the name
    is empty; and where there is no such user, or no user manager,
    [User ] followed by the number as JavaScript writes a double: the
    digits of a safe integer, and for a string the double nearest to what
    [parseInt] read.  A safe integer other than zero and the same number
    written out as a string show the same name. *)
Theorem getUserName_cases (manager : option UserManager.t) (userId : ref) :
  getUserName manager userId <> ""
  /\ (ref_truthy userId = false \/ id_number userId = NaN ->
      getUserName manager userId = "Unassigned")
  /\ (forall u,
        ref_truthy userId = true -> looked_up manager userId = Some u ->
        getUserName manager userId = display_name u)
  /\ (ref_truthy userId = true -> id_number userId <> NaN ->
      looked_up manager userId = None ->
      getUserName manager userId = cat "User " (number_toString (id_number userId)))
  /\ (forall n,
        ref_truthy userId = true -> id_number userId = Int n ->
        is_safe_integer n = true -> looked_up manager userId = None ->
        getUserName manager userId = cat "User " (digits_of_Z n))
  /\ (forall n, n <> 0%Z -> is_safe_integer n = true ->
        getUserName manager (RefStr (string_of_Z n))
        = getUserName manager (RefNum n)).
Proof.
  assert (forall x, find (fun u => loosely_equal (User.id u) NaN) x = None) as Hnan.
  { intros x. induction x as [|u x IH]; [done |]. simpl.
    assert (loosely_equal (User.id u) NaN = false) as ->; [| exact IH].
    unfold loosely_equal, number_eqb.
    by destruct (User.id u) as [t|m]; [destruct (ToNumber t) |]. }
  assert (ref_truthy userId = true -> id_number userId <> NaN ->
          looked_up manager userId = None ->
          getUserName manager userId
          = cat "User " (number_toString (id_number userId))) as Hnone.
  { intros Ht Hn Hu. unfold getUserName, looked_up, getUser in *. rewrite Ht. simpl.
    assert (isNaN (id_number userId) = false) as ->
        by (by destruct (id_number userId)).
    destruct manager as [um|]; [by rewrite Hu | done]. }
  split; [| split; [| split; [| split; [| split]]]].
  - unfold getUserName. destruct (ref_truthy userId); simpl; [| done].
    destruct manager as [um|].
    + destruct (find _ _) as [u|]; [apply display_name_nonempty |].
      by destruct (isNaN (id_number userId)).
    + by destruct (isNaN (id_number userId)).
  - unfold getUserName. intros [-> | Hn]; [done |]. rewrite Hn.
    destruct (ref_truthy userId); simpl; [| done].
    destruct manager as [um|]; [by rewrite Hnan | done].
  - intros u Ht Hu. unfold getUserName, looked_up, getUser in *. rewrite Ht. simpl.
    destruct manager as [um|]; [by rewrite Hu | done].
  - exact Hnone.
  - intros n Ht Hn Hsafe Hu. rewrite Hnone; [| done | by rewrite Hn | done].
    rewrite Hn. f_equal. exact (string_of_Z_safe n Hsafe).
  - intros n Hn Hsafe. unfold getUserName. simpl.
    rewrite (parseInt_string_of_Z n Hsafe).
    assert (String.eqb (string_of_Z n) "" = false) as ->.
    { apply String.eqb_neq. rewrite (string_of_Z_safe n Hsafe).
      apply digits_of_Z_nonempty. }
    apply Z.eqb_neq in Hn. by rewrite Hn.
Qed.

(** Beyond the safe integers the number shown is the nearest double, and
    from [1e21] on it is written with an exponent. *)
Example getUserName_of_large_ids :
  getUserName None (RefStr "9007199254740993") = "User 9007199254740992"
  /\ getUserName None (RefStr "1000000000000000000000") = "User 1e+21"
  /\ getUserName None (RefStr "7up") = "User 7".
Proof. by vm_compute. Qed.

End UserNames.

Lemma getUser_number_or_string_witness :
  is_safe_integer 7 = true
  /\ getUser sheet_users (RefStr "7") = getUser sheet_users (RefNum 7)
  /\ option_map User.name (getUser sheet_users (RefNum 7)) = Some "Ann".
Proof.
  split; [reflexivity |]. split; [| reflexivity].
  exact (proj1 (getUser_number_or_string sheet_users 7 eq_refl)).
Defined.

(* ===================================================================== *)
(** * Links: video addresses and the names of attachments *)
(* ===================================================================== *)

Section Links.

Import Str.

Lemma occurs_cat p s before after :
  occurs p s -> occurs p (cat before (cat s after)).
Proof.
  intros (a & b & ->). exists (cat before a), (cat b after).
  by rewrite !cat_assoc.
Qed.

Lemma contains_cat p s before after :
  contains p s = true -> contains p (cat before (cat s after)) = true.
Proof.
  intros H. apply occurs_contains, occurs_cat. by apply contains_true_occurs.
Qed.

Lemma toLowerCase_cat a b :
  toLowerCase (cat a b) = cat (toLowerCase a) (toLowerCase b).
Proof. induction a as [|c a IH]; simpl; [done | by rewrite IH]. Qed.

Lemma lower_ascii_twice c : lower_ascii (lower_ascii c) = lower_ascii c.
Proof. by destruct c as [[] [] [] [] [] [] [] []]. Qed.

Lemma toLowerCase_twice s : toLowerCase (toLowerCase s) = toLowerCase s.
Proof.
  induction s as [|c s IH]; simpl; [done |]. by rewrite lower_ascii_twice, IH.
Qed.

(** A text in lower case that [s] holds is held by [s] in lower case. *)
Lemma contains_lower p s :
  toLowerCase p = p -> contains p s = true -> contains p (toLowerCase s) = true.
Proof.
  intros Hp H. apply contains_true_occurs in H as (a & b & ->).
  apply occurs_contains. exists (toLowerCase a), (toLowerCase b).
  by rewrite !toLowerCase_cat, Hp.
Qed.

Lemma existsb_impl {A} (f g : A -> bool) (l : list A) :
  (forall x, f x = true -> g x = true) -> existsb f l = true -> existsb g l = true.
Proof.
  intros Hfg. rewrite !existsb_exists. intros (x & Hin & Hx). eauto.
Qed.

(** X20. [isVideoUrl] looks for its marks anywhere in the address: an
    address that holds a video address, with any text before and after
    it, is a video address too; and putting a video address in lower
    case keeps it one (the extensions are looked for without regard to
    case, the three sites only as written in lower case). *)
Theorem isVideoUrl_anywhere (url before after : string) :
  isVideoUrl url = true ->
  isVideoUrl (cat before (cat url after)) = true
  /\ isVideoUrl (toLowerCase url) = true.
Proof.
  unfold isVideoUrl. rewrite !orb_true_iff.
  intros [[[Hext | Hy] | Hb] | Hv]; split.
  - do 3 left. revert Hext. apply existsb_impl. intros ext.
    rewrite !toLowerCase_cat. apply contains_cat.
  - do 3 left. by rewrite toLowerCase_twice.
  - do 2 left. right. by apply contains_cat.
  - do 2 left. right. by apply contains_lower.
  - left. right. by apply contains_cat.
  - left. right. by apply contains_lower.
  - right. by apply contains_cat.
  - right. by apply contains_lower.
Qed.

(** ** The name of an attachment *)

Definition other_than (sep : ascii) (c : ascii) : bool := negb (Ascii.eqb c sep).

Lemma split_char_pieces sep s :
  split_char sep s <> []
  /\ Forall (fun piece => all (other_than sep) piece = true) (split_char sep s).
Proof.
  induction s as [|c s [Hne IH]]; simpl.
  - split; [done | by repeat constructor].
  - destruct (Ascii.eqb c sep) eqn:E.
    + split; [done | by constructor].
    + destruct (split_char sep s) as [|piece pieces]; [done |].
      split; [done |]. apply Forall_cons in IH as [Hp Hps].
      constructor; [| done]. simpl. unfold other_than at 1. by rewrite E.
Qed.

Lemma split_char_hd sep s :
  List.hd "" (split_char sep s) = take_while (other_than sep) s.
Proof.
  induction s as [|c s IH]; simpl; [done |]. unfold other_than at 1.
  destruct (Ascii.eqb c sep); simpl; [done |].
  destruct (split_char sep s) as [|piece pieces]; simpl in *; by rewrite <- IH.
Qed.

Lemma last_elem {A} (l : list A) d : l <> [] -> List.last l d ∈ l.
Proof.
  induction l as [|x l IH]; [done |]. intros _. simpl.
  destruct l as [|y l]; [apply elem_of_cons; by left |].
  apply elem_of_cons. right. by apply IH.
Qed.

Lemma all_take_while f g s : all f s = true -> all f (take_while g s) = true.
Proof.
  induction s as [|c s IH]; simpl; [done |].
  intros [Hc Hs]%andb_true_iff. destruct (g c); simpl; [| done].
  by rewrite Hc, IH.
Qed.

Lemma all_take_while_self g s : all g (take_while g s) = true.
Proof.
  induction s as [|c s IH]; simpl; [done |].
  destruct (g c) eqn:E; simpl; [| done]. by rewrite E, IH.
Qed.

Lemma all_other_than sep s :
  all (other_than sep) s = true -> contains (String sep "") s = false.
Proof.
  induction s as [|c s IH]; [done |]. simpl.
  intros [Hc Hs]%andb_true_iff. unfold contains in *. simpl.
  unfold other_than in Hc. apply negb_true_iff in Hc.
  rewrite Ascii.eqb_sym, Hc. simpl.
  destruct (split_at (String sep "") s) as [[? ?]|]; [by specialize (IH Hs) | done].
Qed.

Lemma split_char_after sep a b :
  exists p q qs,
    split_char sep (cat a (String sep b)) = p :: q :: qs
    /\ List.last (q :: qs) "" = List.last (split_char sep b) "".
Proof.
  induction a as [|c a (p & q & qs & IH & Hlast)]; simpl.
  - rewrite Ascii.eqb_refl. destruct (split_char_pieces sep b) as [Hne _].
    destruct (split_char sep b) as [|q qs]; [done |]. by exists "", q, qs.
  - rewrite IH. destruct (Ascii.eqb c sep).
    + exists "", p, (q :: qs). split; [done |]. by rewrite <- Hlast.
    + by exists (String c p), q, qs.
Qed.

Lemma last_split_char sep a b :
  List.last (split_char sep (cat a (String sep b))) ""
  = List.last (split_char sep b) "".
Proof.
  destruct (split_char_after sep a b) as (p & q & qs & -> & <-). done.
Qed.

Lemma split_char_none sep s :
  all (other_than sep) s = true -> split_char sep s = [s].
Proof.
  induction s as [|c s IH]; [done |]. simpl.
  intros [Hc Hs]%andb_true_iff. unfold other_than in Hc.
  apply negb_true_iff in Hc. by rewrite Hc, IH.
Qed.

Lemma take_while_stop g s c r :
  all g s = true -> g c = false -> take_while g (cat s (String c r)) = s.
Proof.
  intros Hs Hc. induction s as [|x s IH]; simpl in *; [by rewrite Hc |].
  apply andb_true_iff in Hs as [Hx Hs]. by rewrite Hx, IH.
Qed.

Lemma take_while_all g s : all g s = true -> take_while g s = s.
Proof.
  induction s as [|x s IH]; simpl; [done |].
  intros [Hx Hs]%andb_true_iff. by rewrite Hx, IH.
Qed.

Lemma attachment_name_of file :
  List.hd "" (split_char "?" file) <> "" ->
  (let name := List.hd "" (split_char "?" file) in
   if String.eqb name "" then "Untitled" else name)
  = List.hd "" (split_char "?" file).
Proof. intros Hne. cbv zeta. apply String.eqb_neq in Hne. by rewrite Hne. Qed.

(** X21. The name that [addAttachment] gives an attachment is what
    stands after the last slash of the address, up to the first question
    mark: it is never empty and holds neither a slash nor a question
    mark.  For an address that ends with a slash it is [Untitled]; for
    one that ends with a file name, or with a file name and a query
    without a slash, it is the file name. *)
Theorem attachment_name_cases (url : string) :
  attachment_name url <> ""
  /\ contains "/" (attachment_name url) = false
  /\ contains "?" (attachment_name url) = false
  /\ attachment_name (cat url "/") = "Untitled"
  /\ (forall file query,
        file <> "" ->
        all (other_than "/") file = true -> all (other_than "?") file = true ->
        all (other_than "/") query = true ->
        attachment_name (cat url (String "/" file)) = file
        /\ attachment_name (cat url (String "/" (cat file (String "?" query))))
           = file).
Proof.
  assert (contains "/" "Untitled" = false /\ contains "?" "Untitled" = false)
    as [Hu1 Hu2] by done.
  split; [| split; [| split; [| split]]].
  - unfold attachment_name. cbv zeta.
    set (name := List.hd "" (split_char "?" _)).
    by destruct (String.eqb_spec name "").
  - unfold attachment_name. cbv zeta.
    set (name := List.hd "" (split_char "?" _)).
    destruct (String.eqb_spec name ""); [done |].
    apply all_other_than. unfold name. rewrite split_char_hd. apply all_take_while.
    destruct (split_char_pieces "/" url) as [Hne Hall].
    rewrite Forall_forall in Hall. apply Hall. by apply last_elem.
  - unfold attachment_name. cbv zeta.
    set (name := List.hd "" (split_char "?" _)).
    destruct (String.eqb_spec name ""); [done |].
    apply all_other_than. unfold name. rewrite split_char_hd.
    apply all_take_while_self.
  - unfold attachment_name. by rewrite last_split_char.
  - intros file query Hne Hf1 Hf2 Hq. unfold attachment_name.
    rewrite !last_split_char. apply String.eqb_neq in Hne. split.
    + rewrite (split_char_none "/" file Hf1). cbn [List.last].
      rewrite split_char_hd, (take_while_all _ _ Hf2). by rewrite Hne.
    + rewrite (split_char_none "/" (cat file (String "?" query))).
      * cbn [List.last].
        rewrite split_char_hd, (take_while_stop _ file "?" query Hf2 eq_refl).
        by rewrite Hne.
      * rewrite all_cat, Hf1. simpl. by rewrite Hq.
Qed.

End Links.

Section Attachments.

Lemma take_drop_snoc {A} (l : list A) x :
  take (length l) (l ++ [x]) ++ drop (S (length l)) (l ++ [x]) = l.
Proof.
  rewrite take_app_length, drop_app_ge by (simpl; lia).
  replace (S (length l) - length l) with 1 by lia. simpl. apply app_nil_r.
Qed.

(** X22. [addAttachment] puts the new attachment last, with the address
    as given and with the type it was given, but for [doc], which
    becomes [document]; removing the attachment at the index it got
    gives back the attachments there were, and removing any earlier one
    after the addition is the same as removing it before. *)
Theorem addAttachment_then_remove (type url : string)
    (attachments : list Attachment.t) :
  exists att,
    addAttachment type url attachments = attachments ++ [att]
    /\ Attachment.url att = url
    /\ Attachment.type att = (if String.eqb type "doc" then "document" else type)
    /\ (type = "doc" -> Attachment.type att = "document")
    /\ Attachment.type att <> "doc"
    /\ (type <> "doc" -> Attachment.type att = type)
    /\ Attachment.name att = attachment_name url
    /\ removeAttachment (length attachments) (addAttachment type url attachments)
       = attachments
    /\ (forall i, i < length attachments ->
          removeAttachment i (addAttachment type url attachments)
          = addAttachment type url (removeAttachment i attachments)).
Proof.
  unfold addAttachment, removeAttachment. eexists.
  split; [reflexivity |]. simpl. split; [done |]. split; [done |].
  split; [| split; [| split; [| split; [| split]]]].
  - by intros ->.
  - by destruct (String.eqb_spec type "doc").
  - intros Hne. by destruct (String.eqb_spec type "doc").
  - done.
  - apply take_drop_snoc.
  - intros i Hi. rewrite take_app_le, drop_app_le by lia. by rewrite app_assoc.
Qed.

End Attachments.

Lemma isVideoUrl_anywhere_witness :
  isVideoUrl "https://youtu.be/dQw4w9WgXcQ" = true
  /\ isVideoUrl (cat "see " (cat "https://youtu.be/dQw4w9WgXcQ" " (2009)")) = true
  /\ isVideoUrl (Str.toLowerCase "https://youtu.be/dQw4w9WgXcQ") = true.
Proof.
  split; [reflexivity |].
  exact (isVideoUrl_anywhere "https://youtu.be/dQw4w9WgXcQ" "see " " (2009)" eq_refl).
Defined.

(* ===================================================================== *)
(** * What a push sends *)
(* ===================================================================== *)

Section Writes.

Context {R : Type} (server : forall T, R -> request T -> R * response T).
Context (toISOString : nat -> string).

(** X23. A push that returns has sent, in this order and nothing else:
    the listing of the issues, the listing of the labels, the creation
    of each status label that the listing lacked, the listing of the
    labels again, and one request for each task of the board, in the
    order of the tasks: the update of the first listed issue that has
    the title of the task, or the creation of an issue when none has.
    The issues and the labels are those that the service answered to the
    listings: the issues to the first request, the labels to the second,
    and the labels that name the status of each task to the listing sent
    after the creations.  A task whose status is no status of the
    board but a property that every object inherits is written with no
    label.  The push sends as many writes of issues as the board has
    tasks, which is the count it returns. *)
Theorem pushBoard_sends_one_write_per_task (w : World R) (result : PushResult) :
  (pushBoard server toISOString w).2 = Return result ->
  exists repo b issues labels labels' r1 r2 r4,
    selectedRepo w = Some repo
    /\ kanbanBoard w = Some b
    /\ result = mkPushResult true (length (KanbanBoard.tasks b))
    /\ (let owner := Repo.owner_login repo in
        let name := Repo.name repo in
        let existingIssues := filter (fun i => negb (Issue.pull_request i)) issues in
        let creations :=
          map (fun status =>
                 answered_entry (POST_label owner name status (label_color status)))
            (missing_labels (labelMap_of labels)) in
        server _ (remote w) (GET_issues owner name "all" 100) = (r1, Ok issues)
        /\ server _ r1 (GET_labels owner name 100) = (r2, Ok labels)
        /\ server _ (received server r2 creations) (GET_labels owner name 100)
           = (r4, Ok labels')
        /\ requests (pushBoard server toISOString w).1
           = requests w
             ++ [answered_entry (GET_issues owner name "all" 100);
                 answered_entry (GET_labels owner name 100)]
             ++ creations
             ++ [answered_entry (GET_labels owner name 100)]
             ++ map (fun task =>
                       answered_entry
                         (task_request repo existingIssues (newLabelMap_of labels')
                            (userManager w) task))
                  (KanbanBoard.tasks b)).
Proof. exact (pushBoard_returns server toISOString w result). Qed.

End Writes.

Lemma pushBoard_sends_one_write_per_task_witness :
  let w := connected_page (Tracker.make [octocat_issue] [] 16)
             [octocat_task; task_for_ann] [ann] in
  let server := Tracker.handle in
  (pushBoard server fixed_clock w).2 = Return (mkPushResult true 2)
  /\ exists repo b issues labels labels' r1 r2 r4,
      selectedRepo w = Some repo
      /\ kanbanBoard w = Some b
      /\ mkPushResult true 2 = mkPushResult true (length (KanbanBoard.tasks b))
      /\ (let owner := Repo.owner_login repo in
          let name := Repo.name repo in
          let existingIssues := filter (fun i => negb (Issue.pull_request i)) issues in
          let creations :=
            map (fun status =>
                   answered_entry (POST_label owner name status (label_color status)))
              (missing_labels (labelMap_of labels)) in
          server _ (remote w) (GET_issues owner name "all" 100) = (r1, Ok issues)
          /\ server _ r1 (GET_labels owner name 100) = (r2, Ok labels)
          /\ server _ (received server r2 creations) (GET_labels owner name 100)
             = (r4, Ok labels')
          /\ requests (pushBoard server fixed_clock w).1
             = requests w
               ++ [answered_entry (GET_issues owner name "all" 100);
                   answered_entry (GET_labels owner name 100)]
               ++ creations
               ++ [answered_entry (GET_labels owner name 100)]
               ++ map (fun task =>
                         answered_entry
                           (task_request repo existingIssues (newLabelMap_of labels')
                              (userManager w) task))
                    (KanbanBoard.tasks b)).
Proof.
  intros w server.
  assert ((pushBoard server fixed_clock w).2 = Return (mkPushResult true 2))
    as Hrun by (by vm_compute).
  split; [exact Hrun |].
  exact (pushBoard_sends_one_write_per_task Tracker.handle fixed_clock w
           (mkPushResult true 2) Hrun).
Defined.

(* ===================================================================== *)
(** * What a pull sends, and the edges of deleting a user *)
(* ===================================================================== *)

Section PullReads.

Context {R : Type} (server : forall T, R -> request T -> R * response T).
Context (toISOString : nat -> string).

(** A computation that sends nothing. *)
Definition quiet {A} (m : M R A) : Prop :=
  forall w, requests (m w).1 = requests w /\ remote (m w).1 = remote w.

Lemma quiet_ret {A} (a : A) : quiet (@ret R A a).
Proof. done. Qed.

Lemma quiet_throw {A} e : quiet (@throw R A e).
Proof. done. Qed.

Lemma quiet_update f : private_update f -> quiet (update f).
Proof. intros Hf w. destruct (Hf w) as (_ & _ & ? & ?). done. Qed.

Lemma quiet_now : quiet (@now R toISOString).
Proof. done. Qed.

Lemma quiet_bind {A B} (m : M R A) (f : A -> M R B) :
  quiet m -> (forall a, quiet (f a)) -> quiet (bind m f).
Proof.
  intros Hm Hf w. unfold bind. specialize (Hm w).
  destruct (m w) as [w1 [a|e]]; simpl in *; [| done].
  destruct (Hf a w1) as [-> ->]. done.
Qed.

Lemma quiet_lift {A} (c : completion A) : quiet (@lift R A c).
Proof. done. Qed.

(** What is sent by [m] followed by a computation that sends nothing. *)
Definition wire (w : World R) : list sent * R := (requests w, remote w).

Lemma after_bind {A B} (m : M R A) (f : A -> M R B) w :
  (forall a, quiet (f a)) -> wire (bind m f w).1 = wire (m w).1.
Proof.
  intros Hf. unfold bind, wire. destruct (m w) as [w1 [a|e]]; [| done].
  by destruct (Hf a w1) as [-> ->].
Qed.

Lemma after_try_catch {A} (m : M R A) handler w :
  (forall e, quiet (handler e)) -> wire (try_catch m handler w).1 = wire (m w).1.
Proof.
  intros Hh. unfold try_catch, wire. destruct (m w) as [w1 [a|e]]; [done |].
  by destruct (Hh e w1) as [-> ->].
Qed.

Lemma quiet_handler (what : string) e :
  quiet (update (set_syncStatus "error") ;;
         showNotification (cat what (exn_message e)) "error" ;;
         @throw R PullResult e).
Proof.
  apply quiet_bind; [apply quiet_update, private_set_syncStatus | intros _].
  apply quiet_bind; [apply quiet_update, private_add_notification | intros _].
  apply quiet_throw.
Qed.

Lemma quiet_pull_tail (mapped : list Task.t * Z) :
  quiet (let '(tasks, nextTaskId) := mapped in
         update (set_syncStatus "success") ;;
         let* stamp := now toISOString in
         update (set_lastSync stamp) ;;
         update (set_github_last_sync (Some stamp)) ;;
         showNotification
           (cat "Pulled "
              (cat (string_of_Z (Z.of_nat (length tasks))) " tasks from GitHub"))
           "success" ;;
         @ret R _ (mkPullResult true tasks nextTaskId)).
Proof.
  destruct mapped as [tasks next].
  apply quiet_bind; [apply quiet_update, private_set_syncStatus | intros _].
  apply quiet_bind; [apply quiet_now | intros stamp].
  apply quiet_bind; [apply quiet_update, private_set_lastSync | intros _].
  apply quiet_bind; [apply quiet_update, private_set_github_last_sync | intros _].
  apply quiet_bind; [apply quiet_update, private_add_notification | intros _].
  apply quiet_ret.
Qed.

Lemma send_log {T} (req : request T) (w : World R) :
  has_token w = true ->
  requests (send server req w).1
  = requests w ++ [Sent T req (outcome_of (server T (remote w) req).2)]
  /\ remote (send server req w).1 = (server T (remote w) req).1.
Proof.
  intros Htok. unfold send, bind, isAuthenticated, read. simpl. rewrite Htok. simpl.
  by destruct (server T (remote w) req) as [r [json|status message|e]].
Qed.

(** The requests of the [try] block of [pullBoard] and of its handler. *)
Lemma pullBoard_try_log repo (w : World R) :
  has_token w = true ->
  let listing := GET_issues (Repo.owner_login repo) (Repo.name repo) "all" 100 in
  let out :=
    try_catch (pullBoard_try server toISOString repo)
      (fun error =>
         update (set_syncStatus "error") ;;
         showNotification (cat "Pull failed: " (exn_message error)) "error" ;;
         throw error) w in
  requests out.1
  = requests w ++ [Sent _ listing (outcome_of (server _ (remote w) listing).2)]
  /\ remote out.1 = (server _ (remote w) listing).1.
Proof.
  intros Htok listing out.
  destruct (send_log listing w Htok) as [<- <-].
  assert (wire out.1 = wire (send server listing w).1) as [= -> ->]; [| done].
  unfold out, pullBoard_try, getRepoIssues.
  rewrite after_try_catch by (intros e; apply (quiet_handler "Pull failed: ")).
  rewrite after_bind.
  - rewrite after_bind; [done |]. intros issues. apply quiet_ret.
  - intros issues. apply quiet_bind; [apply quiet_lift | apply quiet_pull_tail].
Qed.

(** X24. A pull never writes: the board, the users and what is saved of
    them are as they were when [pullBoard] ends, whether it returns or
    throws (the tasks it returns are for the caller to install), and the
    only request it sends is the listing of the issues of the selected
    repository, once; without a token or without a repository it sends
    nothing. *)
Theorem pullBoard_only_lists (w : World R) :
  stores (pullBoard server toISOString w).1 = stores w
  /\ match has_token w, selectedRepo w with
     | true, Some repo =>
         let listing :=
           GET_issues (Repo.owner_login repo) (Repo.name repo) "all" 100 in
         requests (pullBoard server toISOString w).1
         = requests w
           ++ [Sent _ listing (outcome_of (server _ (remote w) listing).2)]
         /\ remote (pullBoard server toISOString w).1
            = (server _ (remote w) listing).1
     | _, _ =>
         requests (pullBoard server toISOString w).1 = requests w
         /\ remote (pullBoard server toISOString w).1 = remote w
     end.
Proof.
  split; [apply (disciplined_pullBoard server toISOString w) |].
  assert (pullBoard server toISOString w
          = if negb (has_token w) then (w, Throw (Error "Not connected to GitHub"))
            else match selectedRepo w with
                 | None => (w, Throw (Error "No repository selected"))
                 | Some repo =>
                     try_catch (pullBoard_try server toISOString repo)
                       (fun error =>
                          update (set_syncStatus "error") ;;
                          showNotification (cat "Pull failed: " (exn_message error))
                            "error" ;;
                          throw error) (set_syncStatus "syncing" w)
                 end) as ->.
  { unfold pullBoard, bind at 1, isConnected, isAuthenticated, read. cbn [fst snd].
    destruct (negb (has_token w)); [done |].
    unfold bind at 1. cbn [fst snd]. by destruct (selectedRepo w). }
  destruct (has_token w) eqn:Htok; cbn [negb]; [| done].
  destruct (selectedRepo w) as [repo|]; [| done].
  apply (pullBoard_try_log repo (set_syncStatus "syncing" w) Htok).
Qed.

End PullReads.

Section DeleteUserEdges.

Context {R : Type}.
Context (toISOString : nat -> string) (confirm : string -> bool).

Lemma filter_absent_user (id : ref) (users : list User.t) :
  id ∉ map User.id users -> filter (fun u => User.id u <> id) users = users.
Proof.
  induction users as [|u users IH]; [done |]. simpl.
  intros [Hne Hnot]%not_elem_of_cons. rewrite filter_cons_True by done.
  by rewrite IH.
Qed.

(** X25. The edges of [deleteUser].  A task counts as assigned to the
    user when its assignee and the id read as the same number.  When
    tasks are assigned to the user and the user of the page declines,
    nothing changes and [false] is returned.  When no task is assigned
    to the user, no question is asked: the users whose id is strictly
    equal to the id given, in type and in value, are removed, the users
    are saved and [true] is returned.  That is so even when no user has
    the id, the list of users then being as it was; in particular a user
    whose id is a string, as the users loaded from a sheet have, stays
    when the id is given as a number. *)
Theorem deleteUser_edges (w : World R) (id : ref) (um : UserManager.t) :
  userManager w = Some um ->
  let assigned :=
    match kanbanBoard w with
    | Some b => filter (assigned_to id) (KanbanBoard.tasks b)
    | None => []
    end in
  (assigned <> [] -> confirm (deletion_prompt (length assigned)) = false ->
   deleteUser toISOString confirm id w = (w, Return false))
  /\ (assigned = [] ->
      exists users',
        deleteUser toISOString confirm id w
        = (set_saved_users (Some (users', UserManager.nextUserId um))
             (set_userManager
                (Some (UserManager.make users' (UserManager.nextUserId um))) w),
           Return true)
        /\ users' = filter (fun u => User.id u <> id) (UserManager.users um)
        /\ (id ∉ map User.id (UserManager.users um) -> users' = UserManager.users um)
        /\ (forall n u, id = RefNum n -> u ∈ UserManager.users um ->
                        (exists s, User.id u = RefStr s) -> u ∈ users')).
Proof.
  intros Hum assigned.
  assert (getUserAssignedTasks id w = (w, Return assigned)) as Hget.
  { unfold getUserAssignedTasks, bind, read, assigned. cbn [fst snd].
    destruct (kanbanBoard w) as [b|]; [| done]. unfold ret.
    by rewrite assignedTasks_filter. }
  split.
  - intros Hne Hc. unfold deleteUser, bind at 1. rewrite Hget.
    unfold bind at 1. destruct assigned as [|t ts]; [done |].
    rewrite Hc. reflexivity.
  - intros He. exists (filter (fun u => User.id u <> id) (UserManager.users um)).
    split; [| split; [done | split; [apply filter_absent_user |]]].
    + unfold deleteUser, bind at 1. rewrite Hget, He.
      unfold bind, read, ret, update, saveUsers. simpl. rewrite Hum. simpl.
      by rewrite remaining_users_filter.
    + intros n u -> Hin [s Hs]. apply list_elem_of_filter. split; [| done].
      rewrite Hs. done.
Qed.

End DeleteUserEdges.

Lemma deleteUser_edges_witness :
  deleteUser fixed_clock (fun _ => false) (RefNum 7) board_of_three
  = (board_of_three, Return false)
  /\ exists users',
      deleteUser fixed_clock (fun _ => false) (RefNum 9) board_of_three
      = (set_saved_users (Some (users', 3%Z))
           (set_userManager (Some (UserManager.make users' 3)) board_of_three),
         Return true)
      /\ users' = filter (fun u => User.id u <> RefNum 9) two_users
      /\ (RefNum 9 ∉ map User.id two_users -> users' = two_users)
      /\ (forall n u, RefNum 9 = RefNum n -> u ∈ two_users ->
                      (exists s, User.id u = RefStr s) -> u ∈ users').
Proof.
  split.
  - apply (proj1 (deleteUser_edges fixed_clock (fun _ => false) board_of_three
                    (RefNum 7) (UserManager.make two_users 3) eq_refl)).
    + by vm_compute.
    + reflexivity.
  - apply (proj2 (deleteUser_edges fixed_clock (fun _ => false) board_of_three
                    (RefNum 9) (UserManager.make two_users 3) eq_refl)).
    by vm_compute.
Defined.

Section AssignedTasks.

Context {R : Type}.

(** [===] on numbers holds of a number that is not NaN and itself. *)
Lemma number_eqb_spec a b : number_eqb a b = true <-> a = b /\ a <> NaN.
Proof.
  destruct a as [x|m e|s|], b as [y|m' e'|s'|]; simpl;
    try (split; [done | intros [? ?]; done]).
  - rewrite Z.eqb_eq. split; [by intros -> | by intros [[= ->] _]].
  - rewrite andb_true_iff, Z.eqb_eq, Pos.eqb_eq.
    split; [by intros [-> ->] | by intros [[= -> ->] _]].
  - destruct s, s'; simpl; split; try done; by intros [? _].
Qed.

(** X26. [getUserAssignedTasks] changes nothing and returns, in the
    order of the board, the tasks whose assignee reads as the same
    number as the user id it is given: a number as it is, and a string
    as the double that [parseInt] makes of its leading digits, so that a
    safe integer written out reads as that integer.  Given an id that
    reads as no number it returns no task, and a task whose assignee
    reads as no number is returned for no user.  Without a board it
    returns no task. *)
Theorem getUserAssignedTasks_by_number (w : World R) (q : ref) :
  exists found,
    getUserAssignedTasks q w = (w, Return found)
    /\ match kanbanBoard w with
       | None => found = []
       | Some b =>
           found `sublist_of` KanbanBoard.tasks b
           /\ (forall t,
                 t ∈ found
                 <-> t ∈ KanbanBoard.tasks b
                     /\ id_number (Task.assignee t) = id_number q
                     /\ id_number q <> NaN)
           /\ (id_number q = NaN -> found = [])
           /\ (forall t, id_number (Task.assignee t) = NaN -> t ∉ found)
       end
    /\ (forall n, id_number (RefNum n) = Int n)
    /\ (forall s, id_number (RefStr s) = parseInt s)
    /\ (forall n, is_safe_integer n = true ->
                  id_number (RefStr (string_of_Z n)) = Int n).
Proof.
  unfold getUserAssignedTasks, bind, read. cbn [fst snd].
  assert (forall t,
            same_number (id_number (Task.assignee t)) (id_number q) = true
            <-> id_number (Task.assignee t) = id_number q /\ id_number q <> NaN)
    as Hsame.
  { intros t. unfold same_number. rewrite number_eqb_spec.
    split; [intros [E H]; by rewrite <- E | intros [E H]; by rewrite E]. }
  destruct (kanbanBoard w) as [b|].
  - eexists. split; [reflexivity |]. split; [| by split; [| split; [| apply parseInt_string_of_Z]]].
    split; [apply sublist_filter |]. split; [| split].
    + intros t. rewrite list_elem_of_filter, Is_true_true, Hsame. tauto.
    + intros Hq. induction (KanbanBoard.tasks b) as [|t tasks IH]; [done |].
      rewrite filter_cons_False; [done |]. rewrite Is_true_true, Hsame.
      by intros [_ ?].
    + intros t Ht [Hs _]%list_elem_of_filter. apply Is_true_true, Hsame in Hs.
      destruct Hs as [E H]. by rewrite <- E in H.
  - exists []. split; [done |]. split; [done |].
    by split; [| split; [| apply parseInt_string_of_Z]].
Qed.

(** Strings are compared as the doubles that [parseInt] reads: digits in
    front are enough, and what is beyond the safe integers is rounded. *)
Example getUserAssignedTasks_reads_doubles :
  id_number (RefStr "7up") = Int 7
  /\ id_number (RefStr "octocat") = NaN
  /\ same_number (id_number (RefStr "9007199254740993"))
       (id_number (RefStr "9007199254740992")) = true.
Proof. by vm_compute. Qed.

End AssignedTasks.
